(** * The request-dispatch core of the TikTok Business API Go SDK

    A shallow embedding of [pkg/client] (config.go, client.go) and of
    [pkg/models/errors.go]: configuration validation, client construction,
    the retrying request executor [DoRequest], the response parser
    [ParseResponse] and the [APIError] classification predicates.

    Go's [int] and [time.Duration] are 64-bit signed integers: they are
    modelled as [Z] with the wrap-around of the arithmetic written out.
    [float64] values are only ever compared with zero by the code; they are
    modelled by the IEEE-754 specification type [spec_float].  Calls into
    net/http, encoding/json, io and golang.org/x/time/rate are oracles of
    an environment record; what they do to the objects the code shares with
    them (response bodies, the request body reader, the limiter's bucket)
    is recorded in an explicit [World]. *)

From Stdlib Require Import ZArith List String Ascii Bool Lia.
From Stdlib Require Import Strings.Byte.
From Stdlib Require Import Floats.SpecFloat.
From Stdlib Require Import Numbers.DecimalString.
Import ListNotations.

Open Scope string_scope.
Open Scope Z_scope.

(** ** Go machine integers *)

Module GoInt.

Definition int_min : Z := - 2 ^ 63.
Definition int_max : Z := 2 ^ 63 - 1.

Definition in_range (z : Z) : Prop := int_min <= z <= int_max.

(** Two's-complement reduction of a mathematical result to [int64]. *)
Definition wrap64 (z : Z) : Z := (z + 2 ^ 63) mod 2 ^ 64 - 2 ^ 63.

Definition add (a b : Z) : Z := wrap64 (a + b).
Definition mul (a b : Z) : Z := wrap64 (a * b).

(** [%d] of fmt: the decimal rendering of an integer. *)
Definition fmt_d (z : Z) : string := NilZero.string_of_int (Z.to_int z).

End GoInt.

(** ** time.Duration: a count of nanoseconds in an int64 *)

Module GoTime.

Definition Duration := Z.
Definition Nanosecond : Duration := 1.
Definition Second : Duration := 1000000000.

(** [n * time.Second] for an integer [n]. *)
Definition seconds (n : Z) : Duration := GoInt.mul n Second.

End GoTime.

(** ** pkg/models/errors.go *)

Module Models.

Definition StatusBadRequest : Z := 400.
Definition StatusUnauthorized : Z := 401.
Definition StatusForbidden : Z := 403.
Definition StatusTooManyRequests : Z := 429.
Definition StatusInternalServerError : Z := 500.
Definition StatusBadGateway : Z := 502.
Definition StatusServiceUnavailable : Z := 503.
Definition StatusGatewayTimeout : Z := 504.

(** [Data interface{}] holds whatever JSON value the body carried; the
    classification never looks at it, so it is kept as raw text. *)
Record APIError := mkAPIError
  { Code : string
  ; Message : string
  ; RequestID : string
  ; Data : option string
  ; HTTPStatusCode : Z }.

(** The zero value [var apiErr models.APIError]. *)
Definition zeroAPIError : APIError := mkAPIError "" "" "" None 0.

(** A [switch] over constants: the first matching case wins. *)
Definition Z_case (x : Z) (cases : list Z) : bool :=
  existsb (Z.eqb x) cases.
Definition string_case (x : string) (cases : list string) : bool :=
  existsb (String.eqb x) cases.

Definition IsRetryable (e : APIError) : bool :=
  if Z_case (HTTPStatusCode e)
       [StatusTooManyRequests; StatusInternalServerError; StatusBadGateway;
        StatusServiceUnavailable; StatusGatewayTimeout]
  then true
  else if string_case (Code e)
            ["RATE_LIMIT_EXCEEDED"; "INTERNAL_ERROR"; "SERVICE_UNAVAILABLE";
             "TIMEOUT"]
  then true
  else false.

Definition IsAuthenticationError (e : APIError) : bool :=
  if Z_case (HTTPStatusCode e) [StatusUnauthorized; StatusForbidden]
  then true
  else if string_case (Code e)
            ["UNAUTHORIZED"; "FORBIDDEN"; "INVALID_ACCESS_TOKEN";
             "ACCESS_TOKEN_EXPIRED"; "INSUFFICIENT_PERMISSIONS"]
  then true
  else false.

Definition IsValidationError (e : APIError) : bool :=
  if Z_case (HTTPStatusCode e) [StatusBadRequest]
  then true
  else if string_case (Code e)
            ["INVALID_PARAMETER"; "MISSING_PARAMETER";
             "PARAMETER_VALUE_NOT_SUPPORTED"; "VALIDATION_ERROR"]
  then true
  else false.

Definition IsRateLimitError (e : APIError) : bool :=
  (HTTPStatusCode e =? StatusTooManyRequests) || (Code e =? "RATE_LIMIT_EXCEEDED")%string.

(** [APIError.Error()]. *)
Definition APIError_Error (e : APIError) : string :=
  if (RequestID e =? "")%string
  then "TikTok API error [" ++ Code e ++ "]: " ++ Message e
  else "TikTok API error [" ++ Code e ++ "]: " ++ Message e
       ++ " (request_id: " ++ RequestID e ++ ")".

End Models.

(** ** Go error values

    The constructors are the error values the modelled code creates or
    receives; [ErrWrapf] is [fmt.Errorf] with a [%w] verb, [ErrWrapfNil] the
    same call handed a nil error, [ErrNew] is [fmt.Errorf] without [%w]. *)

Inductive error : Type :=
| ErrContextCanceled
| ErrDeadlineExceeded
| ErrForeign (msg : string)
| ErrURL (op url : string) (cause : error)
| ErrNew (msg : string)
| ErrWrapf (prefix : string) (cause : error)
| ErrWrapfNil (prefix : string)
| ErrInvalidConfig (Field Message : string)
| ErrAPI (e : Models.APIError).

(** [strconv.Quote], the [%q] verb of [fmt]: the string between double
    quotes, with a backslash before a double quote or a backslash, the short
    escape of each control character that has one and [\x] with two
    hexadecimal digits for the others.  Bytes from 128 on are kept as they
    are, which is what [Quote] does with the printable characters they
    encode. *)
Definition double_quote : ascii := ascii_of_nat 34.

Definition hex_digit (n : nat) : ascii :=
  nth n (list_ascii_of_string "0123456789abcdef") "0"%char.

Definition quote_byte (a : ascii) : string :=
  let n := nat_of_ascii a in
  if Nat.eqb n 34 then String "\" (String double_quote EmptyString)
  else if Nat.eqb n 92 then "\\"
  else if Nat.eqb n 7 then "\a"
  else if Nat.eqb n 8 then "\b"
  else if Nat.eqb n 12 then "\f"
  else if Nat.eqb n 10 then "\n"
  else if Nat.eqb n 13 then "\r"
  else if Nat.eqb n 9 then "\t"
  else if Nat.eqb n 11 then "\v"
  else if Nat.ltb n 32 || Nat.eqb n 127 then
    String "\" (String "x" (String (hex_digit (n / 16))
                               (String (hex_digit (n mod 16)) EmptyString)))
  else String a EmptyString.

Fixpoint quote_bytes (s : string) : string :=
  match s with
  | EmptyString => EmptyString
  | String a s' => quote_byte a ++ quote_bytes s'
  end.

Definition strconv_Quote (s : string) : string :=
  String double_quote (quote_bytes s ++ String double_quote EmptyString).

(** [err.Error()].  The [ErrURL] case is the [Error] method of [url.Error],
    which prints the operation, the quoted URL and the cause with the
    format [%s %q: %s]. *)
Fixpoint Error (e : error) : string :=
  match e with
  | ErrContextCanceled => "context canceled"
  | ErrDeadlineExceeded => "context deadline exceeded"
  | ErrForeign msg => msg
  | ErrURL op url cause => op ++ " " ++ strconv_Quote url ++ ": " ++ Error cause
  | ErrNew msg => msg
  | ErrWrapf prefix cause => prefix ++ Error cause
  | ErrWrapfNil prefix => prefix ++ "%!w(<nil>)"
  | ErrInvalidConfig f m => "invalid config field '" ++ f ++ "': " ++ m
  | ErrAPI e => Models.APIError_Error e
  end.

(** [errors.Unwrap]. *)
Definition Unwrap (e : error) : option error :=
  match e with
  | ErrURL _ _ cause => Some cause
  | ErrWrapf _ cause => Some cause
  | _ => None
  end.


(** The last error of the unwrap chain. *)
Fixpoint root_cause (e : error) : error :=
  match e with
  | ErrURL _ _ cause => root_cause cause
  | ErrWrapf _ cause => root_cause cause
  | _ => e
  end.

(** [fmt.Errorf(prefix + "%w", err)] for an error variable that may still
    be nil. *)
Definition Errorf_w (prefix : string) (err : option error) : error :=
  match err with
  | Some e => ErrWrapf prefix e
  | None => ErrWrapfNil prefix
  end.

(** ** pkg/client/config.go *)

Inductive BackoffStrategy : Type :=
| LinearBackoff
| ExponentialBackoff
| FixedBackoff.

Record RetryConfig := mkRetryConfig
  { MaxRetries : Z
  ; Backoff : BackoffStrategy
  ; InitialDelay : GoTime.Duration
  ; MaxDelay : GoTime.Duration
  ; Multiplier : spec_float
  ; RetryableStatusCodes : list Z }.

Record RateLimitConfig := mkRateLimitConfig
  { RequestsPerSecond : spec_float
  ; BurstSize : Z }.

(** The pointer fields [RetryConfig] (here [Retry], the record type has the
    name) and [RateLimit] may be nil. *)
Record Config := mkConfig
  { BaseURL : string
  ; AccessToken : string
  ; ClientID : string
  ; ClientSecret : string
  ; Timeout : GoTime.Duration
  ; Retry : option RetryConfig
  ; RateLimit : option RateLimitConfig
  ; UserAgent : string
  ; Debug : bool }.

(** float64 literals of the source. *)
Definition float_zero : spec_float := S754_zero false.
Definition float_2 : spec_float := S754_finite false 4503599627370496 (-51).
Definition float_10 : spec_float := S754_finite false 5629499534213120 (-49).

(** Go's [x <= 0] on a float64: false on NaN. *)
Definition float_le_zero (x : spec_float) : bool := SFleb x float_zero.

Definition DefaultConfig : Config :=
  {| BaseURL := "https://business-api.tiktok.com"
   ; AccessToken := ""
   ; ClientID := ""
   ; ClientSecret := ""
   ; Timeout := GoTime.seconds 30
   ; Retry := Some
       {| MaxRetries := 3
        ; Backoff := ExponentialBackoff
        ; InitialDelay := GoTime.seconds 1
        ; MaxDelay := GoTime.seconds 30
        ; Multiplier := float_2
        ; RetryableStatusCodes := [429; 500; 502; 503; 504] |}
   ; RateLimit := Some
       {| RequestsPerSecond := float_10
        ; BurstSize := 20 |}
   ; UserAgent := "tiktok-business-api-go-sdk/1.0.0"
   ; Debug := false |}.

Definition validateRetry (r : RetryConfig) : option error :=
  if MaxRetries r <? 0 then
    Some (ErrInvalidConfig "RetryConfig.MaxRetries" "max retries cannot be negative")
  else if InitialDelay r <=? 0 then
    Some (ErrInvalidConfig "RetryConfig.InitialDelay" "initial delay must be positive")
  else if MaxDelay r <=? 0 then
    Some (ErrInvalidConfig "RetryConfig.MaxDelay" "max delay must be positive")
  else if float_le_zero (Multiplier r) then
    Some (ErrInvalidConfig "RetryConfig.Multiplier" "multiplier must be positive")
  else None.

Definition validateRateLimit (r : RateLimitConfig) : option error :=
  if float_le_zero (RequestsPerSecond r) then
    Some (ErrInvalidConfig "RateLimit.RequestsPerSecond" "requests per second must be positive")
  else if BurstSize r <=? 0 then
    Some (ErrInvalidConfig "RateLimit.BurstSize" "burst size must be positive")
  else None.

(** [Config.Validate]: [None] is the nil error.  The two blocks guarded by
    [!= nil] return from the function when a check fails and fall through
    otherwise. *)
Definition Validate (c : Config) : option error :=
  if (BaseURL c =? "")%string then
    Some (ErrInvalidConfig "BaseURL" "base URL is required")
  else if (AccessToken c =? "")%string
          && ((ClientID c =? "")%string || (ClientSecret c =? "")%string) then
    Some (ErrInvalidConfig "Authentication"
            "either access token or client credentials are required")
  else if Timeout c <=? 0 then
    Some (ErrInvalidConfig "Timeout" "timeout must be positive")
  else
    match match Retry c with Some r => validateRetry r | None => None end with
    | Some e => Some e
    | None =>
        match RateLimit c with
        | Some r => validateRateLimit r
        | None => None
        end
    end.

(** ** pkg/client/client.go *)

(** A Go function returning [(x, nil)] or [(nil, err)]. *)
Inductive Returned (A : Type) : Type :=
| Ok (a : A)
| Fail (e : error).
Arguments Ok {A} a.
Arguments Fail {A} e.

(** *** The objects shared with net/http *)

Definition URL := string.

(** A handle names a reader object (a response body, or the [io.Reader] the
    caller passes as request body); its state lives in the [World]. *)
Definition handle := nat.

Record Response := mkResponse
  { StatusCode : Z
  ; Status : string
  ; Body : handle }.

(** [http.Request].  [ContentLength] and [GetBody] are what
    [http.NewRequestWithContext] derives from the body: the declared length
    and the snapshot that [GetBody] returns a fresh reader on; a request
    without [GetBody] has no declared length. *)
Record Request := mkRequest
  { Method : string
  ; RequestURL : string
  ; Header : list (string * string)
  ; RequestBody : option handle
  ; ContentLength : Z
  ; GetBody : option (list byte) }.

Record Transport := mkTransport
  { MaxIdleConns : Z
  ; MaxIdleConnsPerHost : Z
  ; IdleConnTimeout : GoTime.Duration
  ; TLSHandshakeTimeout : GoTime.Duration
  ; TLSMinVersion : Z
  ; InsecureSkipVerify : bool }.

Definition VersionTLS12 : Z := 771.

Record HTTPClient := mkHTTPClient
  { ClientTimeout : GoTime.Duration
  ; ClientTransport : Transport }.

(** [rate.NewLimiter(limit, burst)]. *)
Record Limiter := mkLimiter
  { limit : spec_float
  ; burst : Z }.

Record Client := mkClient
  { config : Config
  ; httpClient : HTTPClient
  ; rateLimiter : option Limiter
  ; baseURL : URL }.

(** One call of [httpClient.Do]: the request object handed over and what
    its body reader still held when the call began. *)
Record SendRecord := mkSendRecord
  { sr_request : Request
  ; sr_body : option (list byte) }.

(** What a call of [httpClient.Do] does: how many bytes it reads from the
    request body reader, whether it takes a fresh body from [GetBody] when
    that reader falls short of the declared length (the transport does on a
    connection it has used before, and gives up on a new one), and what it
    returns. *)
Record RoundTrip := mkRoundTrip
  { rt_consumed : nat
  ; rt_rewinds : bool
  ; rt_result : Returned Response }.

(** [in_memory] tells which readers are of the types [*bytes.Buffer],
    [*bytes.Reader] and [*strings.Reader]. *)
Record World := mkWorld
  { tokens : nat
  ; sent : list SendRecord
  ; closed : list handle
  ; readers : handle -> list byte
  ; in_memory : handle -> bool }.

(** The libraries the client calls.  The caller's context is part of the
    environment: its cancellation shows in what [limiter_Wait] and
    [round_trip] return. *)
Record Env := mkEnv
  { url_Parse : string -> Returned URL
  ; url_Resolve : URL -> string -> string
  ; request_check : string -> string -> option error
  ; canonicalKey : string -> string
  ; limiter_Wait : option error
  ; round_trip : nat -> RoundTrip
  ; read_all : handle -> Returned string
  ; unmarshal_APIError : string -> Models.APIError -> Models.APIError * option error }.

(** *** Effects on the world *)

(** [rateLimiter.Wait(ctx)]: a token leaves the bucket when the wait ends
    with admission, none when it ends with an error. *)
Definition rateLimiter_Wait (env : Env) (w : World) : World * option error :=
  match limiter_Wait env with
  | Some err => (w, Some err)
  | None => (mkWorld (S (tokens w)) (sent w) (closed w) (readers w) (in_memory w), None)
  end.

Definition Body_Close (h : handle) (w : World) : World :=
  mkWorld (tokens w) (sent w) (closed w ++ [h])%list (readers w) (in_memory w).

Definition update_reader (rs : handle -> list byte) (h : handle) (rest : list byte)
  : handle -> list byte :=
  fun h' => if Nat.eqb h' h then rest else rs h'.

(** [httpClient.Do(req)]: the attempt is logged with the state of the body
    reader it was given, the transport advances that reader, and the
    environment decides the result. *)
Definition httpClient_Do (env : Env) (req : Request) (w : World)
  : World * Returned Response :=
  let rt := round_trip env (List.length (sent w)) in
  let offered := option_map (readers w) (RequestBody req) in
  let readers' :=
    match RequestBody req with
    | Some h => update_reader (readers w) h (skipn (rt_consumed rt) (readers w h))
    | None => readers w
    end in
  (mkWorld (tokens w) (sent w ++ [mkSendRecord req offered])%list (closed w) readers'
     (in_memory w),
   rt_result rt).

(** What [http.NewRequestWithContext] records about a body: for one of the
    in-memory reader types the number of bytes the reader holds, as
    [ContentLength], and a snapshot of them for [GetBody]; for any other
    body, and for none, neither. *)
Definition body_snapshot (body : option handle) (w : World) : Z * option (list byte) :=
  match body with
  | Some h =>
      if in_memory w h
      then (Z.of_nat (List.length (readers w h)), Some (readers w h))
      else (0, None)
  | None => (0, None)
  end.

(** [http.NewRequestWithContext]: fails on a malformed method or URL.  (An
    in-memory body that holds nothing is replaced by [http.NoBody], which
    reads like the empty reader it stands for.) *)
Definition NewRequestWithContext (env : Env) (method url : string)
    (body : option handle) (w : World) : Returned Request :=
  match request_check env method url with
  | Some err => Fail err
  | None =>
      Ok (mkRequest method url [] body
            (fst (body_snapshot body w)) (snd (body_snapshot body w)))
  end.

(** [req.Header.Set(key, value)]: replaces the values under the canonical
    form of [key]. *)
Definition Header_Set (env : Env) (key value : string) (req : Request) : Request :=
  let k := canonicalKey env key in
  mkRequest (Method req) (RequestURL req)
    (filter (fun kv => negb (String.eqb (fst kv) k)) (Header req) ++ [(k, value)])%list
    (RequestBody req) (ContentLength req) (GetBody req).

(** *** NewClient and SetTimeout *)

Definition NewClient (env : Env) (cfg : option Config) : Returned Client :=
  let config := match cfg with None => DefaultConfig | Some c => c end in
  match Validate config with
  | Some err => Fail (ErrWrapf "invalid config: " err)
  | None =>
      match url_Parse env (BaseURL config) with
      | Fail err => Fail (ErrWrapf "invalid base URL: " err)
      | Ok baseURL =>
          let httpClient :=
            {| ClientTimeout := GoInt.mul (Timeout config) GoTime.Second
             ; ClientTransport :=
                 {| MaxIdleConns := 100
                  ; MaxIdleConnsPerHost := 10
                  ; IdleConnTimeout := GoTime.seconds 90
                  ; TLSHandshakeTimeout := GoTime.seconds 10
                  ; TLSMinVersion := VersionTLS12
                  ; InsecureSkipVerify := false |} |} in
          let rateLimiter :=
            match RateLimit config with
            | Some rl => Some (mkLimiter (RequestsPerSecond rl) (BurstSize rl))
            | None => None
            end in
          Ok (mkClient config httpClient rateLimiter baseURL)
      end
  end.

Definition SetTimeout (c : Client) (timeout : GoTime.Duration) : Client :=
  let cfg := config c in
  mkClient
    (mkConfig (BaseURL cfg) (AccessToken cfg) (ClientID cfg) (ClientSecret cfg)
       timeout (Retry cfg) (RateLimit cfg) (UserAgent cfg) (Debug cfg))
    (mkHTTPClient timeout (ClientTransport (httpClient c)))
    (rateLimiter c) (baseURL c).

(** *** The request executor *)

Definition default_retryable : list Z := [429; 500; 502; 503; 504].

Definition retryableCodes (c : Client) : list Z :=
  match Retry (config c) with
  | Some r =>
      match RetryableStatusCodes r with
      | [] => default_retryable
      | _ :: _ => RetryableStatusCodes r
      end
  | None => default_retryable
  end.

Definition shouldRetry (c : Client) (statusCode : Z) : bool :=
  existsb (fun code => statusCode =? code) (retryableCodes c).

Definition maxRetries_of (c : Client) : Z :=
  match Retry (config c) with
  | Some r => MaxRetries r
  | None => 3
  end.

(** The [for attempt := 0; attempt <= maxRetries; attempt++] loop, entered
    at [attempt] with [lastErr]; [None] as result means the loop is still
    running when the fuel is spent. *)
Fixpoint retry_loop (env : Env) (fuel : nat) (c : Client) (req : Request)
    (maxRetries attempt : Z) (lastErr : option error) (w : World)
  : World * option (Returned Response) :=
  match fuel with
  | O => (w, None)
  | S fuel' =>
      if attempt <=? maxRetries then
        match httpClient_Do env req w with
        | (w1, Fail err) =>
            retry_loop env fuel' c req maxRetries (GoInt.add attempt 1) (Some err) w1
        | (w1, Ok resp) =>
            if shouldRetry c (StatusCode resp) && (attempt <? maxRetries) then
              retry_loop env fuel' c req maxRetries (GoInt.add attempt 1)
                (Some (ErrNew ("HTTP " ++ GoInt.fmt_d (StatusCode resp) ++ ": "
                               ++ Status resp)))
                (Body_Close (Body resp) w1)
            else (w1, Some (Ok resp))
        end
      else
        (w, Some (Fail (Errorf_w
                          ("request failed after "
                           ++ GoInt.fmt_d (GoInt.add maxRetries 1) ++ " attempts: ")
                          lastErr)))
  end.

Definition default_headers (env : Env) (c : Client) (req : Request) : Request :=
  let req := Header_Set env "User-Agent" (UserAgent (config c)) req in
  let req :=
    if (AccessToken (config c) =? "")%string then req
    else Header_Set env "Access-Token" (AccessToken (config c)) req in
  Header_Set env "Content-Type" "application/json" req.

Definition custom_headers (env : Env) (headers : list (string * string))
    (req : Request) : Request :=
  fold_left (fun r kv => Header_Set env (fst kv) (snd kv) r) headers req.

Definition DoRequest (env : Env) (fuel : nat) (c : Client)
    (method endpoint : string) (body : option handle)
    (headers : list (string * string)) (w : World)
  : World * option (Returned Response) :=
  let '(w1, waitErr) :=
    match rateLimiter c with
    | Some _ => rateLimiter_Wait env w
    | None => (w, None)
    end in
  match waitErr with
  | Some err => (w1, Some (Fail (ErrWrapf "rate limit error: " err)))
  | None =>
      let fullURL := url_Resolve env (baseURL c) endpoint in
      match NewRequestWithContext env method fullURL body w1 with
      | Fail err => (w1, Some (Fail (ErrWrapf "failed to create request: " err)))
      | Ok req =>
          let req := custom_headers env headers (default_headers env c req) in
          retry_loop env fuel c req (maxRetries_of c) 0 None w1
      end
  end.

(** *** The response parser *)

(** [defer resp.Body.Close()]: the close runs when the function body has
    produced its result, whichever return statement produced it. *)
Definition defer_Close {R : Type} (h : handle) (body : World -> World * R)
    (w : World) : World * R :=
  let '(w1, r) := body w in (Body_Close h w1, r).

(** [ParseResponse(resp, v)]: [v] is the value the caller's pointer refers
    to, [unmarshal] is [json.Unmarshal] at the type of that value; the
    updated value is returned beside the error. *)
Definition ParseResponse {T : Type} (env : Env)
    (unmarshal : string -> T -> T * option error)
    (resp : Response) (v : T) (w : World) : World * (T * option error) :=
  defer_Close (Body resp)
    (fun w =>
       match read_all env (Body resp) with
       | Fail err => (w, (v, Some (ErrWrapf "failed to read response body: " err)))
       | Ok body =>
           if StatusCode resp >=? 400 then
             let '(apiErr, err) := unmarshal_APIError env body Models.zeroAPIError in
             match err with
             | None =>
                 if negb (Models.Code apiErr =? "")%string
                 then (w, (v, Some (ErrAPI apiErr)))
                 else (w, (v, Some (ErrNew ("HTTP " ++ GoInt.fmt_d (StatusCode resp)
                                            ++ ": " ++ body))))
             | Some _ =>
                 (w, (v, Some (ErrNew ("HTTP " ++ GoInt.fmt_d (StatusCode resp)
                                       ++ ": " ++ body))))
             end
           else
             let '(v', err) := unmarshal body v in
             match err with
             | Some e => (w, (v', Some (ErrWrapf "failed to parse response: " e)))
             | None => (w, (v', None))
             end
       end) w.

(** *** What one logical call did to the world *)

Definition physical_attempts (before after : World) : nat :=
  (List.length (sent after) - List.length (sent before))%nat.

Definition tokens_consumed (before after : World) : nat :=
  (tokens after - tokens before)%nat.

(** The send records one call appended to the log. *)
Definition attempts_of (before after : World) : list SendRecord :=
  skipn (List.length (sent before)) (sent after).


(** The body handed to [ParseResponse] decodes as an API error [a] with a
    code. *)
Definition decodes_as_api_error (env : Env) (body : string) (a : Models.APIError)
  : Prop :=
  unmarshal_APIError env body Models.zeroAPIError = (a, None)
  /\ Models.Code a <> "".

Definition generic_http_error (resp : Response) (body : string) : error :=
  ErrNew ("HTTP " ++ GoInt.fmt_d (StatusCode resp) ++ ": " ++ body).

Definition is_api_error (e : option error) : Prop :=
  exists a, e = Some (ErrAPI a).

(** The request object [DoRequest] builds before it enters the loop, when
    called in the world [w]. *)
Definition build_request (env : Env) (c : Client) (method endpoint : string)
    (body : option handle) (headers : list (string * string)) (w : World) : Request :=
  custom_headers env headers
    (default_headers env c
       (mkRequest method (url_Resolve env (baseURL c) endpoint) [] body
          (fst (body_snapshot body w)) (snd (body_snapshot body w)))).

(** The error [DoRequest] returns when the loop runs out of attempts. *)
Definition exhaustion_error (attempts : Z) (last : error) : error :=
  ErrWrapf ("request failed after " ++ GoInt.fmt_d attempts ++ " attempts: ") last.


(** The synthetic error the loop records for a retried status. *)
Definition status_error (resp : Response) : error :=
  ErrNew ("HTTP " ++ GoInt.fmt_d (StatusCode resp) ++ ": " ++ Status resp).

(** Tokens one logical call takes: one when a limiter is configured and
    admits the call, none otherwise. *)
Definition admissions (env : Env) (c : Client) : nat :=
  match rateLimiter c, limiter_Wait env with
  | Some _, None => 1%nat
  | _, _ => 0%nat
  end.


(** ** Two readings of the specification, as predicates on one run

    [one_token_per_attempt]: the call took as many tokens from the limiter
    as it made physical attempts.  [stops_at_cancellation]: when an attempt
    of the call failed with a cancellation, it was the last attempt, and the
    call returned a cancellation-classified error that is not the
    retry-exhaustion error. *)

Definition one_token_per_attempt (before after : World) : Prop :=
  tokens_consumed before after = physical_attempts before after.


(** ** Configurations the specification calls invalid

    Stated after the specification's wording, to be compared with
    [Validate]: a missing base URL; no access token and no complete
    client-id/client-secret pair; a non-positive timeout; with a retry
    policy, negative max retries or a non-positive initial delay, max delay
    or multiplier; with a rate-limit policy, a non-positive rate or burst. *)

Definition spec_invalid_retry (r : RetryConfig) : Prop :=
  MaxRetries r < 0 \/ InitialDelay r <= 0 \/ MaxDelay r <= 0
  \/ float_le_zero (Multiplier r) = true.

Definition spec_invalid_rate (r : RateLimitConfig) : Prop :=
  float_le_zero (RequestsPerSecond r) = true \/ BurstSize r <= 0.

Definition spec_invalid_config (c : Config) : Prop :=
  BaseURL c = ""
  \/ (AccessToken c = "" /\ (ClientID c = "" \/ ClientSecret c = ""))
  \/ Timeout c <= 0
  \/ (exists r, Retry c = Some r /\ spec_invalid_retry r)
  \/ (exists r, RateLimit c = Some r /\ spec_invalid_rate r).

(** The error [NewClient] returns for a configuration [Validate] rejects. *)
Definition is_config_error (e : error) : Prop :=
  exists field message,
    e = ErrWrapf "invalid config: " (ErrInvalidConfig field message).

(** ** Fixtures: concrete environments, clients and worlds *)

Module Fixtures.

Definition world0 : World := mkWorld 0 [] [] (fun _ => []) (fun _ => true).

Definition api_url : string := "https://business-api.tiktok.com".

Definition refused : error :=
  ErrURL "Get" "https://business-api.tiktok.com/x"
    (ErrForeign "dial tcp: connection refused").


(** An environment whose transport answers every call with [rt]. *)
Definition env_of (wait : option error) (rt : nat -> RoundTrip) : Env :=
  {| url_Parse := fun s => Ok s
   ; url_Resolve := fun base path => base ++ path
   ; request_check := fun _ _ => None
   ; canonicalKey := fun k => k
   ; limiter_Wait := wait
   ; round_trip := rt
   ; read_all := fun _ => Ok "{}"
   ; unmarshal_APIError := fun _ e => (e, None) |}.

Definition env_refused : Env :=
  env_of None (fun _ => mkRoundTrip 0 true (Fail refused)).



Definition retry_of (n : Z) (codes : list Z) : RetryConfig :=
  mkRetryConfig n ExponentialBackoff (GoTime.seconds 1) (GoTime.seconds 30)
    float_2 codes.

(** The configuration of README.md and of the tests: a token and a
    timeout of thirty seconds. *)
Definition config_of (retry : option RetryConfig)
    (rate : option RateLimitConfig) : Config :=
  mkConfig api_url "test_token" "" "" (GoTime.seconds 30) retry rate
    "tiktok-business-api-go-sdk/1.0.0" false.

Definition transport0 : Transport :=
  mkTransport 100 10 (GoTime.seconds 90) (GoTime.seconds 10) VersionTLS12 false.

(** A client as [NewClient] lays it out, for a given policy pair. *)
Definition client_of (retry : option RetryConfig)
    (rate : option RateLimitConfig) : Client :=
  mkClient (config_of retry rate)
    (mkHTTPClient (GoInt.mul (GoTime.seconds 30) GoTime.Second) transport0)
    (match rate with
     | Some rl => Some (mkLimiter (RequestsPerSecond rl) (BurstSize rl))
     | None => None
     end)
    api_url.

Definition limited : option RateLimitConfig := Some (mkRateLimitConfig float_10 20).

Definition resp (status : Z) (text : string) (h : handle) : Response :=
  mkResponse status text h.

(** 503, 503, then 200: the scenario of the specification. *)
Definition env_503_503_200 : Env :=
  env_of None
    (fun i =>
       match i with
       | O => mkRoundTrip 2 true (Ok (resp 503 "503 Service Unavailable" 10%nat))
       | S O => mkRoundTrip 0 true (Ok (resp 503 "503 Service Unavailable" 11%nat))
       | _ => mkRoundTrip 0 true (Ok (resp 200 "200 OK" 12%nat))
       end).


End Fixtures.

(** ** Further observations on a run *)

(** Bodies of the responses the transport returned in the [n] calls of
    [httpClient.Do] that start at call number [i], in order. *)
Fixpoint received (env : Env) (i n : nat) : list handle :=
  match n with
  | O => []
  | S n' =>
      (match rt_result (round_trip env i) with
       | Ok r => [Body r]
       | Fail _ => []
       end ++ received env (S i) n')%list
  end.

(** The body of the response a call handed to its caller, if it did. *)
Definition handed_over (result : option (Returned Response)) : list handle :=
  match result with
  | Some (Ok r) => [Body r]
  | _ => []
  end.

Definition header_keys (req : Request) : list string := map fst (Header req).

(** HTTP statuses one of the classification predicates of errors.go looks
    at. *)
Definition classified_statuses : list Z := [400; 401; 403; 429; 500; 502; 503; 504].

(** A configuration [Validate] has nothing to object to, field by field. *)
Definition well_formed_config (c : Config) : Prop :=
  BaseURL c <> ""
  /\ (AccessToken c <> "" \/ (ClientID c <> "" /\ ClientSecret c <> ""))
  /\ 0 < Timeout c
  /\ (forall r, Retry c = Some r ->
                0 <= MaxRetries r /\ 0 < InitialDelay r /\ 0 < MaxDelay r
                /\ float_le_zero (Multiplier r) = false)
  /\ (forall r, RateLimit c = Some r ->
                float_le_zero (RequestsPerSecond r) = false /\ 0 < BurstSize r).

(** Further fixtures. *)

Module Fixtures2.

(** A decoder that finds the code "QUOTA" in every body and, as the field
    tagged [json:"-"] demands, leaves the status field alone. *)
Definition env_api_error : Env :=
  {| url_Parse := fun s => Ok s
   ; url_Resolve := fun base path => base ++ path
   ; request_check := fun _ _ => None
   ; canonicalKey := fun k => k
   ; limiter_Wait := None
   ; round_trip := fun _ => mkRoundTrip 0 true (Fail Fixtures.refused)
   ; read_all := fun _ => Ok "{}"
   ; unmarshal_APIError :=
       fun _ a => (Models.mkAPIError "QUOTA" "quota" "r9" None (Models.HTTPStatusCode a),
                   None) |}.

(** 503 on every call. *)
Definition env_always_503 : Env :=
  Fixtures.env_of None
    (fun i => mkRoundTrip 0 true (Ok (Fixtures.resp 503 "503 Service Unavailable" (20 + i)%nat))).


End Fixtures2.

(** ** pkg/client/business_center.go: two callers of the executor

    [BuildURL] (client.go) and [json.Marshal] are taken as oracles, like the
    other calls into net/url and encoding/json; [T] is the decoded form of
    [BCResponse] and [zero] its zero value. *)

Module BusinessCenter.

Record BCGetRequest := mkBCGetRequest
  { BCID : string
  ; Scene : string }.

Record ContactInfo := mkContactInfo
  { Email : string
  ; Name : string
  ; Phone : string }.

Record BCCreateRequest := mkBCCreateRequest
  { BCName : string
  ; CompanyName : string
  ; Contact : ContactInfo
  ; TimeZone : string }.

Record Lib (T : Type) := mkLib
  { BuildURL : Client -> string -> list (string * string) -> string
  ; Marshal : BCCreateRequest -> Returned string
  ; unmarshal : string -> T -> T * option error
  ; zero : T }.
Arguments BuildURL {T} _ _ _ _.
Arguments Marshal {T} _ _.
Arguments unmarshal {T} _ _ _.
Arguments zero {T} _.

(** The [params] map [Get] fills: a nil request is an empty one, [bc_id]
    is left out when empty, [scene] defaults to SINGLE_ACCOUNT. *)
Definition get_params (req : option BCGetRequest) : list (string * string) :=
  let req := match req with Some r => r | None => mkBCGetRequest "" "" end in
  ((if (BCID req =? "")%string then [] else [("bc_id", BCID req)])
   ++ [("scene", if (Scene req =? "")%string then "SINGLE_ACCOUNT" else Scene req)])%list.

Definition Get {T : Type} (lib : Lib T) (env : Env) (fuel : nat) (c : Client)
    (req : option BCGetRequest) (w : World) : World * option (Returned T) :=
  let url := BuildURL lib c "/bc/get/" (get_params req) in
  match DoRequest env fuel c "GET" url None [] w with
  | (w1, None) => (w1, None)
  | (w1, Some (Fail err)) =>
      (w1, Some (Fail (ErrWrapf "failed to get business center: " err)))
  | (w1, Some (Ok resp)) =>
      let '(w2, (response, err)) := ParseResponse env (unmarshal lib) resp (zero lib) w1 in
      match err with
      | Some e => (w2, Some (Fail e))
      | None => (w2, Some (Ok response))
      end
  end.

(** [strings.NewReader(s)]: a new reader, at handle [h], holding [s]. *)
Definition NewReader (h : handle) (s : string) (w : World) : World :=
  mkWorld (tokens w) (sent w) (closed w)
    (update_reader (readers w) h (list_byte_of_string s))
    (fun h' => if Nat.eqb h' h then true else in_memory w h').

(** The checks [Create] makes before it touches the network. *)
Definition create_check (req : option BCCreateRequest) : option error :=
  match req with
  | None => Some (ErrNew "request cannot be nil")
  | Some r =>
      if (BCName r =? "")%string then Some (ErrNew "bc_name is required")
      else if (CompanyName r =? "")%string then Some (ErrNew "company_name is required")
      else if (Email (Contact r) =? "")%string then Some (ErrNew "contact email is required")
      else if (Name (Contact r) =? "")%string then Some (ErrNew "contact name is required")
      else None
  end.

Definition Create {T : Type} (lib : Lib T) (env : Env) (fuel : nat) (c : Client)
    (h : handle) (req : option BCCreateRequest) (w : World)
  : World * option (Returned T) :=
  match create_check req, req with
  | Some err, _ => (w, Some (Fail err))
  | None, None => (w, Some (Fail (ErrNew "request cannot be nil")))
  | None, Some r =>
      let url := BuildURL lib c "/bc/create/" [] in
      match Marshal lib r with
      | Fail err => (w, Some (Fail (ErrWrapf "failed to marshal request: " err)))
      | Ok body =>
          match DoRequest env fuel c "POST" url (Some h) [] (NewReader h body w) with
          | (w1, None) => (w1, None)
          | (w1, Some (Fail err)) =>
              (w1, Some (Fail (ErrWrapf "failed to create business center: " err)))
          | (w1, Some (Ok resp)) =>
              let '(w2, (response, err)) :=
                ParseResponse env (unmarshal lib) resp (zero lib) w1 in
              match err with
              | Some e => (w2, Some (Fail e))
              | None => (w2, Some (Ok response))
              end
          end
      end
  end.

(** A library for the fixtures: the URL is the path, bodies decode to
    their length. *)
Definition lib0 : Lib nat :=
  {| BuildURL := fun _ path _ => path
   ; Marshal := fun r => Ok ("{name:" ++ BCName r ++ "}")
   ; unmarshal := fun body _ => (String.length body, None)
   ; zero := 0%nat |}.

End BusinessCenter.

Module Fixtures3.

(** A server that answers 404 with an error body of code "QUOTA". *)
Definition env_404_quota : Env :=
  {| url_Parse := fun s => Ok s
   ; url_Resolve := fun base path => base ++ path
   ; request_check := fun _ _ => None
   ; canonicalKey := fun k => k
   ; limiter_Wait := None
   ; round_trip := fun _ => mkRoundTrip 0 true (Ok (Fixtures.resp 404 "404 Not Found" 30%nat))
   ; read_all := fun _ => Ok "{code:QUOTA}"
   ; unmarshal_APIError :=
       fun _ a => (Models.mkAPIError "QUOTA" "quota" "r9" None (Models.HTTPStatusCode a),
                   None) |}.

End Fixtures3.

(** ** pkg/utils/pagination.go *)

Module Pagination.

(** Go's [-] and [/] on int: the difference wraps, the quotient truncates
    toward zero. *)
Definition int_sub (a b : Z) : Z := GoInt.wrap64 (a - b).
Definition int_quot (a b : Z) : Z := GoInt.wrap64 (Z.quot a b).

(** [models.ValidationError], as returned by [models.NewValidationError]. *)
Record ValidationError := NewValidationError
  { Field : string
  ; Message : string }.

(** [models.PaginationInfo]. *)
Record PaginationInfo := mkPaginationInfo
  { Page : Z
  ; PageSize : Z
  ; TotalCount : Z
  ; TotalPage : Z
  ; HasMore : bool }.

(** *** PaginationHelper *)

Definition CalculateOffset (page pageSize : Z) : Z :=
  let page := if page <=? 0 then 1 else page in
  GoInt.mul (int_sub page 1) pageSize.

Definition CalculateTotalPages (totalCount pageSize : Z) : Z :=
  if pageSize <=? 0 then 0
  else int_quot (int_sub (GoInt.add totalCount pageSize) 1) pageSize.

Definition ValidatePaginationParams (page pageSize : Z) : option ValidationError :=
  if page <=? 0 then
    Some (NewValidationError "page" "page must be greater than 0")
  else if pageSize <=? 0 then
    Some (NewValidationError "page_size" "page size must be greater than 0")
  else if pageSize >? 1000 then
    Some (NewValidationError "page_size" "page size cannot exceed 1000")
  else None.

Definition CreatePaginationInfo (page pageSize totalCount : Z) : PaginationInfo :=
  let totalPages := CalculateTotalPages totalCount pageSize in
  let hasMore := page <? totalPages in
  mkPaginationInfo page pageSize totalCount totalPages hasMore.

(** *** PaginationIterator *)

Record PaginationOptions := mkPaginationOptions
  { OptPageSize : Z
  ; MaxPages : Z }.

Definition DefaultPaginationOptions : PaginationOptions := mkPaginationOptions 50 0.

Record PaginatedResult (T : Type) := mkPaginatedResult
  { Data : list T
  ; PageInfo : PaginationInfo }.
Arguments mkPaginatedResult {T} _ _.
Arguments Data {T} _.
Arguments PageInfo {T} _.

(** The iterator's fields, and the calls of [fetchFunc] made through it so
    far as (page, pageSize) pairs, oldest first.  [fetchFunc] is a closure
    of the caller: what it returns is given by [fetch], by the number of
    the call and its arguments.  It returns a result or an error; a
    closure that returned neither would make [Next] panic on the nil
    result, and has no counterpart here. *)
Record PaginationIterator (T : Type) := mkPaginationIterator
  { options : PaginationOptions
  ; currentPage : Z
  ; hasMore : bool
  ; lastResult : option (PaginatedResult T)
  ; fetched : list (Z * Z) }.
Arguments mkPaginationIterator {T} _ _ _ _ _.
Arguments options {T} _.
Arguments currentPage {T} _.
Arguments hasMore {T} _.
Arguments lastResult {T} _.
Arguments fetched {T} _.

Definition Fetch (T : Type) := nat -> Z -> Z -> Returned (PaginatedResult T).

Definition NewPaginationIterator {T : Type} (opts : option PaginationOptions)
  : PaginationIterator T :=
  let opts := match opts with Some o => o | None => DefaultPaginationOptions end in
  mkPaginationIterator opts 1 true None [].

Definition Next {T : Type} (fetch : Fetch T) (p : PaginationIterator T)
  : PaginationIterator T * Returned (PaginatedResult T) :=
  if negb (hasMore p) then (p, Fail (ErrNew "no more pages available"))
  else if (MaxPages (options p) >? 0) && (currentPage p >? MaxPages (options p)) then
    (mkPaginationIterator (options p) (currentPage p) false (lastResult p) (fetched p),
     Fail (ErrNew "maximum pages limit reached"))
  else
    let calls := (fetched p ++ [(currentPage p, OptPageSize (options p))])%list in
    match fetch (List.length (fetched p)) (currentPage p) (OptPageSize (options p)) with
    | Fail err =>
        (mkPaginationIterator (options p) (currentPage p) (hasMore p) (lastResult p) calls,
         Fail (ErrWrapf ("failed to fetch page " ++ GoInt.fmt_d (currentPage p) ++ ": ")
                 err))
    | Ok result =>
        (mkPaginationIterator (options p) (GoInt.add (currentPage p) 1)
           (HasMore (PageInfo result)) (Some result) calls,
         Ok result)
    end.

Definition HasNext {T : Type} (p : PaginationIterator T) : bool := hasMore p.

Definition CurrentPage {T : Type} (p : PaginationIterator T) : Z :=
  int_sub (currentPage p) 1.

Definition LastResult {T : Type} (p : PaginationIterator T)
  : option (PaginatedResult T) := lastResult p.

(** The loop of [AllPages], entered with the results gathered so far;
    [None] when the fuel is spent before the loop ends.  Go returns the
    gathered results next to the error. *)
Fixpoint AllPages_loop {T : Type} (fetch : Fetch T) (fuel : nat)
    (p : PaginationIterator T) (allResults : list T)
  : PaginationIterator T * option (list T * option error) :=
  match fuel with
  | O => (p, None)
  | S fuel' =>
      if HasNext p then
        match Next fetch p with
        | (p', Fail err) => (p', Some (allResults, Some err))
        | (p', Ok result) =>
            let allResults' := (allResults ++ Data result)%list in
            if Z.of_nat (List.length allResults') >? 100000 then
              (p', Some (allResults',
                         Some (ErrNew "too many results, stopping at 100,000 items")))
            else AllPages_loop fetch fuel' p' allResults'
        end
      else (p, Some (allResults, None))
  end.

Definition AllPages {T : Type} (fetch : Fetch T) (fuel : nat)
    (p : PaginationIterator T)
  : PaginationIterator T * option (list T * option error) :=
  AllPages_loop fetch fuel p [].

(** *** BatchProcessor *)

Inductive ProcessResult : Type :=
| Done
| Failed (e : error)
| Panicked.

(** [items[i:end]]: a run-time panic unless [0 <= i <= end <= len(items)]. *)
Definition slice {T : Type} (items : list T) (i e : Z) : option (list T) :=
  if (0 <=? i) && (i <=? e) && (e <=? Z.of_nat (List.length items))
  then Some (firstn (Z.to_nat (e - i)) (skipn (Z.to_nat i) items))
  else None.

(** The loop of [Process], entered at index [i]; the batches handed to
    [processor] so far are returned, oldest first. *)
Fixpoint Process_loop {T : Type} (processor : list T -> option error)
    (batchSize : Z) (items : list T) (fuel : nat) (i : Z) (batches : list (list T))
  : list (list T) * option ProcessResult :=
  match fuel with
  | O => (batches, None)
  | S fuel' =>
      if i <? Z.of_nat (List.length items) then
        let e := GoInt.add i batchSize in
        let e := if e >? Z.of_nat (List.length items)
                 then Z.of_nat (List.length items) else e in
        match slice items i e with
        | None => (batches, Some Panicked)
        | Some batch =>
            match processor batch with
            | Some err =>
                ((batches ++ [batch])%list,
                 Some (Failed (ErrWrapf ("failed to process batch starting at index "
                                         ++ GoInt.fmt_d i ++ ": ") err)))
            | None =>
                Process_loop processor batchSize items fuel' (GoInt.add i batchSize)
                  (batches ++ [batch])%list
            end
        end
      else (batches, Some Done)
  end.

Definition Process {T : Type} (processor : list T -> option error)
    (batchSize : Z) (items : list T) (fuel : nat)
  : list (list T) * option ProcessResult :=
  Process_loop processor batchSize items fuel 0 [].

End Pagination.

(** The calls of [fetchFunc] for [k] pages in a row from [page] on, and
    the items of the first [k] pages of a source. *)
Definition page_calls (opts : Pagination.PaginationOptions) (page : Z) (k : nat)
  : list (Z * Z) :=
  map (fun i => (page + Z.of_nat i, Pagination.OptPageSize opts)) (seq 0 k).

Definition gathered {T : Type} (datas : nat -> list T) (k : nat) : list T :=
  List.concat (map datas (seq 0 k)).

Module PaginationFixtures.

(** A source that serves the given pages in order, whatever page number is
    asked for, and fails once they are used up. *)
Definition fetch_pages {T : Type} (pages : list (list T)) : Pagination.Fetch T :=
  fun i page size =>
    match nth_error pages i with
    | Some d =>
        Ok (Pagination.mkPaginatedResult d
              (Pagination.mkPaginationInfo page size 0 0
                 (Nat.ltb (S i) (List.length pages))))
    | None => Fail (ErrForeign "unexpected EOF")
    end.

(** A source with no end: every page holds one item and says more follow. *)
Definition fetch_endless : Pagination.Fetch nat :=
  fun i page size =>
    Ok (Pagination.mkPaginatedResult [i] (Pagination.mkPaginationInfo page size 0 0 true)).

End PaginationFixtures.

(** ** pkg/utils/validation.go

    The functions return a [models.ValidationError] or nil.  The regular
    expressions are constants that always compile, so the "regex validation
    failed" returns cannot happen; a match of [^\d{4}-\d{2}-\d{2}$] is
    written out as a test on the ten bytes of the string. *)

Module Validation.

(** [strings.Join(elems, sep)]. *)
Definition Join (elems : list string) (sep : string) : string :=
  String.concat sep elems.

(** [allowedMap[field]] for the map built from [allowedFields]: false for a
    key that was never stored. *)
Definition allowedMap (allowedFields : list string) (field : string) : bool :=
  existsb (String.eqb field) allowedFields.

Definition invalidFields (fields allowedFields : list string) : list string :=
  filter (fun field => negb (allowedMap allowedFields field)) fields.

Definition ValidateFields (fields allowedFields : list string)
  : option Pagination.ValidationError :=
  match fields with
  | [] => None
  | _ :: _ =>
      match invalidFields fields allowedFields with
      | [] => None
      | _ :: _ =>
          Some (Pagination.NewValidationError "fields"
                  ("invalid fields: "
                   ++ Join (invalidFields fields allowedFields) ", "))
      end
  end.

(** [\d]: an ASCII digit. *)
Definition is_digit (c : ascii) : bool :=
  ((48 <=? N_of_ascii c) && (N_of_ascii c <=? 57))%N.

Definition is_hyphen (c : ascii) : bool := Ascii.eqb c "-"%char.

(** [regexp.MatchString(`^\d{4}-\d{2}-\d{2}$`, s)]. *)
Definition matches_date (s : string) : bool :=
  match s with
  | String y1 (String y2 (String y3 (String y4 (String h1
      (String m1 (String m2 (String h2 (String d1 (String d2 EmptyString))))))))) =>
      is_digit y1 && is_digit y2 && is_digit y3 && is_digit y4 && is_hyphen h1
      && is_digit m1 && is_digit m2 && is_hyphen h2 && is_digit d1 && is_digit d2
  | _ => false
  end.

Definition ValidateDateRange (startDate endDate : string)
  : option Pagination.ValidationError :=
  if (startDate =? "")%string then
    Some (Pagination.NewValidationError "start_date" "start date cannot be empty")
  else if (endDate =? "")%string then
    Some (Pagination.NewValidationError "end_date" "end date cannot be empty")
  else if negb (matches_date startDate) then
    Some (Pagination.NewValidationError "start_date"
            "start date must be in YYYY-MM-DD format")
  else if negb (matches_date endDate) then
    Some (Pagination.NewValidationError "end_date"
            "end date must be in YYYY-MM-DD format")
  else
    match String.compare startDate endDate with
    | Gt =>
        Some (Pagination.NewValidationError "date_range"
                "start date must be before or equal to end date")
    | _ => None
    end.

Definition ValidatePageSize (pageSize : Z) : option Pagination.ValidationError :=
  if pageSize <=? 0 then
    Some (Pagination.NewValidationError "page_size" "page size must be greater than 0")
  else if pageSize >? 1000 then
    Some (Pagination.NewValidationError "page_size" "page size cannot exceed 1000")
  else None.

(** The number a digit stands for, and the date "YYYY-MM-DD" read as the
    number YYYYMMDD. *)
Definition digit_value (c : ascii) : Z := Z.of_N (N_of_ascii c) - 48.

Definition date_number (s : string) : Z :=
  match s with
  | String y1 (String y2 (String y3 (String y4 (String _
      (String m1 (String m2 (String _ (String d1 (String d2 EmptyString))))))))) =>
      digit_value y1 * 10000000 + digit_value y2 * 1000000
      + digit_value y3 * 100000 + digit_value y4 * 10000
      + digit_value m1 * 1000 + digit_value m2 * 100
      + digit_value d1 * 10 + digit_value d2
  | _ => 0
  end.

End Validation.

(** The batch of at most [batchSize] items that starts at index [i]. *)
Definition chunk_at {T : Type} (batchSize : Z) (items : list T) (i : Z) : list T :=
  firstn (Z.to_nat batchSize) (skipn (Z.to_nat i) items).

(** ** The retryable set, after the specification

    Stated after the specification's wording, to be compared with
    [shouldRetry]: the status codes the retry policy lists, and 429, 500,
    502, 503 and 504 when there is no retry policy or it lists none. *)
Definition spec_retryable_set (c : Client) : list Z :=
  match Retry (config c) with
  | None => [429; 500; 502; 503; 504]
  | Some policy =>
      if (List.length (RetryableStatusCodes policy) =? 0)%nat
      then [429; 500; 502; 503; 504]
      else RetryableStatusCodes policy
  end.

(** ** What an attempt sends as request body

    [outgoing] is the request body that call number [i] of [httpClient.Do]
    sends, read off its log record by the rules of net/http.  A request
    without [GetBody] declares no length and the transport streams what the
    body reader still holds.  A request with [GetBody] declares
    [ContentLength] bytes: the transport sends the reader's bytes when it
    holds that many; when it holds fewer, the write fails before anything
    has left the connection's buffer, and the transport either takes a
    fresh copy of the body from [GetBody] and sends that, or gives up
    ([rt_rewinds]). *)




Module Fixtures4.

(** 503, then 500. *)
Definition env_503_500 : Env :=
  Fixtures.env_of None
    (fun i =>
       match i with
       | O => mkRoundTrip 0 true (Ok (Fixtures.resp 503 "503 Service Unavailable" 10%nat))
       | _ => mkRoundTrip 0 true (Ok (Fixtures.resp 500 "500 Internal Server Error" 11%nat))
       end).


End Fixtures4.

(** * Properties *)

(** ** Machine integers *)

Lemma wrap64_id (z : Z) : GoInt.in_range z -> GoInt.wrap64 z = z.
Proof.
  unfold GoInt.in_range, GoInt.int_min, GoInt.int_max, GoInt.wrap64.
  intros H. rewrite Z.mod_small; lia.
Qed.

Lemma add_one (a : Z) : 0 <= a < GoInt.int_max -> GoInt.add a 1 = a + 1.
Proof.
  intros H. unfold GoInt.add. apply wrap64_id.
  unfold GoInt.in_range, GoInt.int_min, GoInt.int_max in *. lia.
Qed.

(** ** Error classification (errors.go) *)

(** C9. An API error whose code is "RATE_LIMIT_EXCEEDED" is retryable and a
    rate-limit failure whatever its HTTP status; one whose code is
    "INVALID_PARAMETER" is a validation failure. *)
Theorem code_classification (e : Models.APIError) :
  (Models.Code e = "RATE_LIMIT_EXCEEDED" ->
   Models.IsRetryable e = true /\ Models.IsRateLimitError e = true)
  /\ (Models.Code e = "INVALID_PARAMETER" -> Models.IsValidationError e = true).
Proof.
  destruct e as [code msg rid data status]; cbn [Models.Code].
  split; intros ->.
  - split.
    + unfold Models.IsRetryable; cbn [Models.HTTPStatusCode Models.Code].
      destruct (Models.Z_case status _); reflexivity.
    + unfold Models.IsRateLimitError; cbn [Models.HTTPStatusCode Models.Code].
      apply orb_true_r.
  - unfold Models.IsValidationError; cbn [Models.HTTPStatusCode Models.Code].
    destruct (Models.Z_case status _); reflexivity.
Qed.

Lemma code_classification_witness :
  (Models.IsRetryable (Models.mkAPIError "RATE_LIMIT_EXCEEDED" "slow down" "r1" None 200) = true
   /\ Models.IsRateLimitError (Models.mkAPIError "RATE_LIMIT_EXCEEDED" "slow down" "r1" None 200) = true)
  /\ Models.IsValidationError (Models.mkAPIError "INVALID_PARAMETER" "bad id" "r2" None 200) = true.
Proof.
  split.
  - apply (proj1 (code_classification
                    (Models.mkAPIError "RATE_LIMIT_EXCEEDED" "slow down" "r1" None 200))).
    reflexivity.
  - apply (proj2 (code_classification
                    (Models.mkAPIError "INVALID_PARAMETER" "bad id" "r2" None 200))).
    reflexivity.
Defined.

(** ** Construction (config.go, NewClient) *)

Lemma validateRetry_rejects (r : RetryConfig) :
  spec_invalid_retry r -> exists f m, validateRetry r = Some (ErrInvalidConfig f m).
Proof.
  unfold spec_invalid_retry, validateRetry. intros H.
  destruct (MaxRetries r <? 0) eqn:E1; [eauto|].
  destruct (InitialDelay r <=? 0) eqn:E2; [eauto|].
  destruct (MaxDelay r <=? 0) eqn:E3; [eauto|].
  destruct (float_le_zero (Multiplier r)) eqn:E4; [eauto|].
  exfalso. apply Z.ltb_ge in E1. apply Z.leb_gt in E2, E3.
  destruct H as [H | [H | [H | H]]]; try lia; discriminate.
Qed.

Lemma validateRateLimit_rejects (r : RateLimitConfig) :
  spec_invalid_rate r -> exists f m, validateRateLimit r = Some (ErrInvalidConfig f m).
Proof.
  unfold spec_invalid_rate, validateRateLimit. intros H.
  destruct (float_le_zero (RequestsPerSecond r)) eqn:E1; [eauto|].
  destruct (BurstSize r <=? 0) eqn:E2; [eauto|].
  exfalso. apply Z.leb_gt in E2. destruct H as [H | H]; [discriminate | lia].
Qed.

Lemma validateRetry_error (r : RetryConfig) (e : error) :
  validateRetry r = Some e -> exists f m, e = ErrInvalidConfig f m.
Proof.
  unfold validateRetry.
  repeat match goal with |- context [if ?b then _ else _] => destruct b end;
    intros [= <-]; eauto.
Qed.

Lemma Validate_rejects (c : Config) :
  spec_invalid_config c -> exists f m, Validate c = Some (ErrInvalidConfig f m).
Proof.
  unfold spec_invalid_config, Validate. intros H.
  destruct (BaseURL c =? "")%string eqn:E1; [eauto|].
  destruct ((AccessToken c =? "")%string
            && ((ClientID c =? "")%string || (ClientSecret c =? "")%string)) eqn:E2;
    [eauto|].
  destruct (Timeout c <=? 0) eqn:E3; [eauto|].
  apply String.eqb_neq in E1. apply Z.leb_gt in E3.
  destruct H as [H | [H | [H | [H | H]]]].
  - contradiction.
  - exfalso. destruct H as [Ht Hp]. rewrite Ht in E2. cbn in E2.
    destruct Hp as [Hp | Hp]; rewrite Hp in E2; cbn in E2;
      [discriminate | rewrite orb_true_r in E2; discriminate].
  - lia.
  - destruct H as (r & -> & Hr).
    destruct (validateRetry_rejects r Hr) as (f & m & ->). eauto.
  - destruct H as (r & -> & Hr).
    destruct (Retry c) as [rc|].
    + destruct (validateRetry rc) as [e|] eqn:Erc.
      * destruct (validateRetry_error rc e Erc) as (f & m & ->). eauto.
      * apply validateRateLimit_rejects; assumption.
    + apply validateRateLimit_rejects; assumption.
Qed.

(** C8. A configuration the specification calls invalid makes [NewClient]
    fail with a configuration error: the result is [Fail], so no client is
    produced.  A nil configuration is replaced by the default one, which
    carries no credential, and fails in the same way. *)
Theorem NewClient_rejects_invalid (env : Env) (c : Config) :
  spec_invalid_config c ->
  (exists e, NewClient env (Some c) = Fail e /\ is_config_error e)
  /\ NewClient env None
     = Fail (ErrWrapf "invalid config: "
               (ErrInvalidConfig "Authentication"
                  "either access token or client credentials are required")).
Proof.
  intros H. split.
  - destruct (Validate_rejects c H) as (f & m & Hv).
    unfold NewClient. rewrite Hv.
    eexists; split; [reflexivity|]. exists f, m. reflexivity.
  - reflexivity.
Qed.

Lemma NewClient_rejects_invalid_witness :
  (exists e,
      NewClient Fixtures.env_refused
        (Some (mkConfig Fixtures.api_url "" "id" "" (GoTime.seconds 30) None None "" false))
      = Fail e /\ is_config_error e)
  /\ NewClient Fixtures.env_refused None
     = Fail (ErrWrapf "invalid config: "
               (ErrInvalidConfig "Authentication"
                  "either access token or client credentials are required")).
Proof.
  apply (NewClient_rejects_invalid Fixtures.env_refused
           (mkConfig Fixtures.api_url "" "id" "" (GoTime.seconds 30) None None "" false)).
  unfold spec_invalid_config; cbn. right; left. split; [reflexivity | right; reflexivity].
Defined.

Lemma NewClient_timeout (env : Env) (cfg : Config) (c : Client) :
  NewClient env (Some cfg) = Ok c ->
  ClientTimeout (httpClient c) = GoInt.mul (Timeout cfg) GoTime.Second
  /\ Timeout (config c) = Timeout cfg.
Proof.
  unfold NewClient.
  destruct (Validate cfg); [discriminate|].
  destruct (url_Parse env (BaseURL cfg)); [|discriminate].
  intros [= <-]. split; reflexivity.
Qed.

Lemma SetTimeout_timeout (c : Client) (t : GoTime.Duration) :
  ClientTimeout (httpClient (SetTimeout c t)) = t
  /\ Timeout (config (SetTimeout c t)) = t.
Proof. split; reflexivity. Qed.

(** C7. [NewClient] on the documented configuration (a token and a timeout
    of [30 * time.Second]) multiplies the duration by [time.Second] once
    more: the product overflows int64 and the HTTP client gets a negative
    timeout, not the thirty seconds configured.  [SetTimeout] on the same
    client stores the duration as it is. *)
Theorem NewClient_timeout_not_configured :
  exists c,
    NewClient Fixtures.env_refused (Some (Fixtures.config_of None None)) = Ok c
    /\ Timeout (config c) = 30000000000
    /\ ClientTimeout (httpClient c) = -6893488147419103232
    /\ ClientTimeout (httpClient c) <> Timeout (config c)
    /\ ClientTimeout (httpClient (SetTimeout c (GoTime.seconds 30))) = 30000000000.
Proof.
  eexists. split; [reflexivity|].
  repeat split; try reflexivity. discriminate.
Qed.

(** ** The response parser *)

(** C6. Whatever the status, the body and the decoders do, [ParseResponse]
    closes the response body exactly once, as the last thing it does, and
    closes nothing else. *)
Theorem ParseResponse_closes_body_once {T : Type} (env : Env)
    (unmarshal : string -> T -> T * option error)
    (resp : Response) (v : T) (w : World) :
  closed (fst (ParseResponse env unmarshal resp v w)) = (closed w ++ [Body resp])%list
  /\ count_occ Nat.eq_dec (closed (fst (ParseResponse env unmarshal resp v w))) (Body resp)
     = S (count_occ Nat.eq_dec (closed w) (Body resp)).
Proof.
  assert (Hc : closed (fst (ParseResponse env unmarshal resp v w))
               = (closed w ++ [Body resp])%list).
  { unfold ParseResponse, defer_Close.
    destruct (read_all env (Body resp)) as [body|err]; [|reflexivity].
    destruct (StatusCode resp >=? 400).
    - destruct (unmarshal_APIError env body Models.zeroAPIError) as [a [e|]];
        [reflexivity|].
      destruct (negb (Models.Code a =? "")%string); reflexivity.
    - destruct (unmarshal body v) as [v' [e|]]; reflexivity. }
  split; [exact Hc|].
  rewrite Hc, count_occ_app. cbn [count_occ].
  destruct (Nat.eq_dec (Body resp) (Body resp)) as [_|Hne]; [|congruence].
  rewrite Nat.add_1_r. reflexivity.
Qed.

(** C5. Once the body has been read: on a status of 400 or more the result
    is the decoded API error exactly when the body decodes as one with a
    non-empty code, and the generic "HTTP status: body" error otherwise; on
    a status below 400 the body is decoded into the target, and a decode
    failure gives a parsing error, which is not an API error. *)
Theorem ParseResponse_classifies {T : Type} (env : Env)
    (unmarshal : string -> T -> T * option error)
    (resp : Response) (v : T) (w : World) (body : string) :
  read_all env (Body resp) = Ok body ->
  let out := snd (ParseResponse env unmarshal resp v w) in
  (400 <= StatusCode resp ->
   (forall a, snd out = Some (ErrAPI a) <-> decodes_as_api_error env body a)
   /\ ((forall a, ~ decodes_as_api_error env body a) ->
       snd out = Some (generic_http_error resp body)))
  /\ (StatusCode resp < 400 ->
      fst out = fst (unmarshal body v)
      /\ match snd (unmarshal body v) with
         | None => snd out = None
         | Some e =>
             snd out = Some (ErrWrapf "failed to parse response: " e)
             /\ ~ is_api_error (snd out)
         end).
Proof.
  intros Hread out. subst out.
  unfold ParseResponse, defer_Close, decodes_as_api_error, generic_http_error.
  rewrite Hread. split; intros Hs.
  - assert (E : (StatusCode resp >=? 400) = true) by (apply Z.geb_le; lia).
    rewrite E.
    destruct (unmarshal_APIError env body Models.zeroAPIError) as [a0 [e|]].
    + cbn. split.
      * intros a. split; [discriminate | intros [[=] _]].
      * reflexivity.
    + destruct (Models.Code a0 =? "")%string eqn:Ec; cbn.
      * apply String.eqb_eq in Ec. split.
        -- intros a. split; [discriminate|].
           intros [[= <-] Hne]. contradiction.
        -- reflexivity.
      * apply String.eqb_neq in Ec. split.
        -- intros a. split.
           ++ intros [= <-]. split; [reflexivity | assumption].
           ++ intros [[= <-] _]. reflexivity.
        -- intros Hno. exfalso. apply (Hno a0). split; [reflexivity | assumption].
  - assert (E : (StatusCode resp >=? 400) = false).
    { destruct (StatusCode resp >=? 400) eqn:E'; [|reflexivity].
      apply Z.geb_le in E'. lia. }
    rewrite E.
    destruct (unmarshal body v) as [v' [e|]]; cbn.
    + split; [reflexivity|]. split; [reflexivity|].
      intros [a Ha]. discriminate.
    + split; reflexivity.
Qed.

Lemma ParseResponse_classifies_witness :
  let out := snd (ParseResponse Fixtures.env_refused
                    (fun (_ : string) (t : nat) => (t, Some (ErrForeign "unexpected end of JSON input")))
                    (Fixtures.resp 200 "200 OK" 3%nat) 0%nat Fixtures.world0) in
  (400 <= 200 ->
   (forall a, snd out = Some (ErrAPI a)
              <-> decodes_as_api_error Fixtures.env_refused "{}" a)
   /\ ((forall a, ~ decodes_as_api_error Fixtures.env_refused "{}" a) ->
       snd out = Some (generic_http_error (Fixtures.resp 200 "200 OK" 3%nat) "{}")))
  /\ (200 < 400 ->
      fst out = 0%nat
      /\ snd out = Some (ErrWrapf "failed to parse response: "
                           (ErrForeign "unexpected end of JSON input"))
      /\ ~ is_api_error (snd out)).
Proof.
  exact (ParseResponse_classifies Fixtures.env_refused
           (fun (_ : string) (t : nat) => (t, Some (ErrForeign "unexpected end of JSON input")))
           (Fixtures.resp 200 "200 OK" 3%nat) 0%nat Fixtures.world0 "{}" eq_refl).
Defined.

(** When the body cannot be read, the read error is returned whatever the
    status is. *)
Lemma ParseResponse_read_failure {T : Type} (env : Env)
    (unmarshal : string -> T -> T * option error)
    (resp : Response) (v : T) (w : World) (err : error) :
  read_all env (Body resp) = Fail err ->
  snd (ParseResponse env unmarshal resp v w)
  = (v, Some (ErrWrapf "failed to read response body: " err)).
Proof.
  intros H. unfold ParseResponse, defer_Close. rewrite H. reflexivity.
Qed.

(** ** The request executor *)

Section Executor.

Variable env : Env.
Variable c : Client.
Variable req : Request.

Lemma httpClient_Do_world (w : World) :
  tokens (fst (httpClient_Do env req w)) = tokens w
  /\ closed (fst (httpClient_Do env req w)) = closed w
  /\ sent (fst (httpClient_Do env req w))
     = (sent w ++ [mkSendRecord req (option_map (readers w) (RequestBody req))])%list
  /\ snd (httpClient_Do env req w) = rt_result (round_trip env (List.length (sent w))).
Proof. repeat split. Qed.

Lemma httpClient_Do_sent_length (w : World) :
  List.length (sent (fst (httpClient_Do env req w))) = S (List.length (sent w)).
Proof. cbn. rewrite length_app. cbn. lia. Qed.

(** One iteration that ends in [continue] or [return], by the result of the
    send. *)
Lemma retry_loop_step (fuel : nat) (N a : Z) (lastErr : option error) (w : World) :
  a <= N ->
  retry_loop env (S fuel) c req N a lastErr w
  = match rt_result (round_trip env (List.length (sent w))) with
    | Fail err =>
        retry_loop env fuel c req N (GoInt.add a 1) (Some err)
          (fst (httpClient_Do env req w))
    | Ok resp =>
        if shouldRetry c (StatusCode resp) && (a <? N) then
          retry_loop env fuel c req N (GoInt.add a 1) (Some (status_error resp))
            (Body_Close (Body resp) (fst (httpClient_Do env req w)))
        else (fst (httpClient_Do env req w), Some (Ok resp))
    end.
Proof.
  intros Ha. cbn [retry_loop].
  apply Z.leb_le in Ha. rewrite Ha.
  unfold httpClient_Do at 1. cbn [fst].
  destruct (rt_result (round_trip env (List.length (sent w)))); reflexivity.
Qed.

Lemma retry_loop_exit (fuel : nat) (N a : Z) (lastErr : option error) (w : World) :
  N < a ->
  retry_loop env (S fuel) c req N a lastErr w
  = (w, Some (Fail (Errorf_w
                      ("request failed after " ++ GoInt.fmt_d (GoInt.add N 1)
                       ++ " attempts: ") lastErr))).
Proof.
  intros Ha. cbn [retry_loop].
  apply Z.leb_gt in Ha. rewrite Ha. reflexivity.
Qed.

(** The loop never touches the limiter. *)
Lemma retry_loop_tokens (fuel : nat) :
  forall (N a : Z) (lastErr : option error) (w : World),
    tokens (fst (retry_loop env fuel c req N a lastErr w)) = tokens w.
Proof.
  induction fuel as [|fuel IH]; intros N a lastErr w; [reflexivity|].
  destruct (Z.le_gt_cases a N) as [Ha | Ha].
  - rewrite retry_loop_step by assumption.
    destruct (rt_result (round_trip env (List.length (sent w)))) as [resp|err].
    + destruct (shouldRetry c (StatusCode resp) && (a <? N)).
      * rewrite IH. reflexivity.
      * reflexivity.
    + rewrite IH. reflexivity.
  - rewrite retry_loop_exit by assumption. reflexivity.
Qed.

(** A transport that fails every call: the loop makes the [n] attempts it
    has left, then returns the exhaustion error around the last failure. *)
Lemma retry_loop_all_fail (N : Z) (fails : nat -> error) :
  (forall i, rt_result (round_trip env i) = Fail (fails i)) ->
  N < GoInt.int_max ->
  forall (n : nat) (a : Z) (lastErr : option error) (w : World) (fuel : nat),
    0 <= a -> a + Z.of_nat n = N + 1 -> (n < fuel)%nat ->
    snd (retry_loop env fuel c req N a lastErr w)
    = Some (Fail (Errorf_w
                    ("request failed after " ++ GoInt.fmt_d (GoInt.add N 1)
                     ++ " attempts: ")
                    (match n with
                     | O => lastErr
                     | S n' => Some (fails (List.length (sent w) + n')%nat)
                     end)))
    /\ List.length (sent (fst (retry_loop env fuel c req N a lastErr w)))
       = (List.length (sent w) + n)%nat
    /\ closed (fst (retry_loop env fuel c req N a lastErr w)) = closed w.
Proof.
  intros Hfail HN. induction n as [|n IH]; intros a lastErr w fuel Ha Han Hfuel.
  - destruct fuel as [|fuel]; [lia|].
    rewrite retry_loop_exit by lia. cbn. rewrite Nat.add_0_r. auto.
  - destruct fuel as [|fuel]; [lia|].
    rewrite retry_loop_step by lia. rewrite Hfail.
    rewrite add_one by lia.
    destruct (IH (a + 1) (Some (fails (List.length (sent w))))
                (fst (httpClient_Do env req w)) fuel) as (Hr & Hs & Hc);
      [lia | lia | lia |].
    rewrite Hr, Hs, Hc, httpClient_Do_sent_length.
    split; [|split; [lia | reflexivity]].
    destruct n as [|n'].
    + rewrite Nat.add_0_r. reflexivity.
    + rewrite Nat.add_succ_comm. reflexivity.
Qed.

(** [k] responses with a retryable status while attempts remain, then a
    response that is not retried: the loop closes the [k] bodies, in order,
    and returns the last response with its body open. *)
Lemma retry_loop_retry_then_return (N : Z) :
  N <= GoInt.int_max ->
  forall (k : nat) (resps : nat -> Response) (a : Z) (lastErr : option error)
         (w : World) (fuel : nat) (r : Response),
    0 <= a -> a + Z.of_nat k <= N -> (k < fuel)%nat ->
    (forall i, (i < k)%nat ->
               rt_result (round_trip env (List.length (sent w) + i)%nat) = Ok (resps i)
               /\ shouldRetry c (StatusCode (resps i)) = true) ->
    rt_result (round_trip env (List.length (sent w) + k)%nat) = Ok r ->
    shouldRetry c (StatusCode r) = false \/ a + Z.of_nat k = N ->
    snd (retry_loop env fuel c req N a lastErr w) = Some (Ok r)
    /\ List.length (sent (fst (retry_loop env fuel c req N a lastErr w)))
       = (List.length (sent w) + k + 1)%nat
    /\ closed (fst (retry_loop env fuel c req N a lastErr w))
       = (closed w ++ map (fun i => Body (resps i)) (seq 0 k))%list.
Proof.
  intros HN. induction k as [|k IH];
    intros resps a lastErr w fuel r Ha Hak Hfuel Hre Hr Hlast.
  - destruct fuel as [|fuel]; [lia|].
    rewrite retry_loop_step by lia.
    rewrite Nat.add_0_r in Hr. rewrite Hr.
    assert (E : shouldRetry c (StatusCode r) && (a <? N) = false).
    { destruct Hlast as [-> | Hlast]; [reflexivity|].
      apply andb_false_iff. right. apply Z.ltb_ge. lia. }
    rewrite E. cbn [fst snd]. rewrite httpClient_Do_sent_length.
    split; [reflexivity|]. split; [lia|].
    cbn. rewrite app_nil_r. reflexivity.
  - destruct fuel as [|fuel]; [lia|].
    rewrite retry_loop_step by lia.
    destruct (Hre 0%nat ltac:(lia)) as [H0 Hs0].
    rewrite Nat.add_0_r in H0. rewrite H0, Hs0.
    assert (E : (a <? N) = true) by (apply Z.ltb_lt; lia).
    rewrite E. cbn [andb].
    rewrite add_one by (unfold GoInt.int_max in *; lia).
    set (w1 := Body_Close (Body (resps 0%nat)) (fst (httpClient_Do env req w))).
    assert (Hlen : List.length (sent w1) = S (List.length (sent w))).
    { subst w1. cbn. rewrite length_app. cbn. lia. }
    destruct (IH (fun i => resps (S i)) (a + 1) (Some (status_error (resps 0%nat)))
                w1 fuel r) as (Hres & Hsent & Hclosed).
    + lia.
    + lia.
    + lia.
    + intros i Hi. rewrite Hlen.
      replace (S (List.length (sent w)) + i)%nat
        with (List.length (sent w) + S i)%nat by lia.
      apply Hre. lia.
    + rewrite Hlen.
      replace (S (List.length (sent w)) + k)%nat
        with (List.length (sent w) + S k)%nat by lia.
      exact Hr.
    + destruct Hlast as [Hlast | Hlast]; [left; exact Hlast | right; lia].
    + rewrite Hres, Hsent, Hclosed, Hlen.
      split; [reflexivity|]. split; [lia|].
      subst w1. cbn [Body_Close closed].
      rewrite (proj1 (proj2 (httpClient_Do_world w))).
      cbn [seq map]. rewrite <- seq_shift, map_map, <- app_assoc. reflexivity.
Qed.




End Executor.

(** ** DoRequest as a whole *)



(** [DoRequest] either returns before the loop with an error, or runs the
    loop on the request it built; by then the limiter has been asked once,
    and nothing else in the world has changed. *)
Lemma DoRequest_shape (env : Env) (fuel : nat) (c : Client)
    (method endpoint : string) (body : option handle)
    (headers : list (string * string)) (w : World) :
  exists w1,
    tokens w1 = (tokens w + admissions env c)%nat
    /\ sent w1 = sent w /\ closed w1 = closed w /\ readers w1 = readers w
    /\ ((exists e, DoRequest env fuel c method endpoint body headers w
                   = (w1, Some (Fail e)))
        \/ DoRequest env fuel c method endpoint body headers w
           = retry_loop env fuel c (build_request env c method endpoint body headers w)
               (maxRetries_of c) 0 None w1).
Proof.
  unfold DoRequest, admissions, rateLimiter_Wait, NewRequestWithContext, build_request.
  destruct (rateLimiter c) as [lim|]; [destruct (limiter_Wait env) as [e|]|].
  - exists w. rewrite Nat.add_0_r. do 4 (split; [reflexivity|]). left. eauto.
  - exists (mkWorld (S (tokens w)) (sent w) (closed w) (readers w) (in_memory w)).
    cbn [tokens sent closed readers]. rewrite Nat.add_1_r.
    do 4 (split; [reflexivity|]).
    destruct (request_check env method (url_Resolve env (baseURL c) endpoint))
      as [e|]; [left; eauto | right; reflexivity].
  - exists w. rewrite Nat.add_0_r. do 4 (split; [reflexivity|]).
    destruct (request_check env method (url_Resolve env (baseURL c) endpoint))
      as [e|]; [left; eauto | right; reflexivity].
Qed.

(** With admission granted and a well-formed request, the loop is entered. *)
Lemma DoRequest_enters_loop (env : Env) (fuel : nat) (c : Client)
    (method endpoint : string) (body : option handle)
    (headers : list (string * string)) (w : World) :
  limiter_Wait env = None ->
  request_check env method (url_Resolve env (baseURL c) endpoint) = None ->
  exists w1,
    tokens w1 = (tokens w + admissions env c)%nat
    /\ sent w1 = sent w /\ closed w1 = closed w /\ readers w1 = readers w
    /\ DoRequest env fuel c method endpoint body headers w
       = retry_loop env fuel c (build_request env c method endpoint body headers w)
           (maxRetries_of c) 0 None w1.
Proof.
  intros Hw Hr.
  unfold DoRequest, admissions, rateLimiter_Wait, NewRequestWithContext, build_request.
  rewrite Hw, Hr.
  destruct (rateLimiter c) as [lim|].
  - exists (mkWorld (S (tokens w)) (sent w) (closed w) (readers w) (in_memory w)).
    cbn [tokens sent closed readers]. rewrite Nat.add_1_r.
    do 4 (split; [reflexivity|]). reflexivity.
  - exists w. rewrite Nat.add_0_r. do 4 (split; [reflexivity|]). reflexivity.
Qed.

(** A transport that fails every call, at the level of [DoRequest]. *)
Lemma DoRequest_all_fail (env : Env) (c : Client) (fails : nat -> error)
    (fuel : nat) (method endpoint : string) (body : option handle)
    (headers : list (string * string)) (w : World) :
  0 <= maxRetries_of c < GoInt.int_max ->
  limiter_Wait env = None ->
  request_check env method (url_Resolve env (baseURL c) endpoint) = None ->
  (forall i, rt_result (round_trip env i) = Fail (fails i)) ->
  (Z.to_nat (maxRetries_of c) + 1 < fuel)%nat ->
  physical_attempts w (fst (DoRequest env fuel c method endpoint body headers w))
  = (Z.to_nat (maxRetries_of c) + 1)%nat
  /\ snd (DoRequest env fuel c method endpoint body headers w)
     = Some (Fail (exhaustion_error (maxRetries_of c + 1)
                     (fails (List.length (sent w) + Z.to_nat (maxRetries_of c))%nat))).
Proof.
  intros HN Hw Hr Hf Hfuel.
  destruct (DoRequest_enters_loop env fuel c method endpoint body headers w Hw Hr)
    as (w1 & _ & Hs & _ & _ & ->).
  destruct (retry_loop_all_fail env c (build_request env c method endpoint body headers w)
              (maxRetries_of c) fails Hf ltac:(lia)
              (S (Z.to_nat (maxRetries_of c))) 0 None w1 fuel)
    as (Hres & Hsent & _); [lia | lia | lia |].
  split.
  - unfold physical_attempts. rewrite Hsent, Hs. lia.
  - rewrite Hres, Hs, add_one by lia. reflexivity.
Qed.

(** C2. With max_retries = N configured (N and N+1 being Go ints), admission
    granted and a transport that fails every call, [DoRequest] makes exactly
    N+1 physical attempts and returns "request failed after N+1 attempts"
    wrapping the failure of the last attempt. *)
Theorem DoRequest_transport_always_fails (env : Env) (c : Client)
    (rc : RetryConfig) (N : Z) (fails : nat -> error) (fuel : nat)
    (method endpoint : string) (body : option handle)
    (headers : list (string * string)) (w : World) :
  Retry (config c) = Some rc -> MaxRetries rc = N ->
  0 <= N < GoInt.int_max ->
  limiter_Wait env = None ->
  request_check env method (url_Resolve env (baseURL c) endpoint) = None ->
  (forall i, rt_result (round_trip env i) = Fail (fails i)) ->
  (Z.to_nat N + 1 < fuel)%nat ->
  physical_attempts w (fst (DoRequest env fuel c method endpoint body headers w))
  = (Z.to_nat N + 1)%nat
  /\ snd (DoRequest env fuel c method endpoint body headers w)
     = Some (Fail (exhaustion_error (N + 1)
                     (fails (List.length (sent w) + Z.to_nat N)%nat)))
  /\ Error (exhaustion_error (N + 1) (fails (List.length (sent w) + Z.to_nat N)%nat))
     = ("request failed after " ++ GoInt.fmt_d (N + 1) ++ " attempts: ")
       ++ Error (fails (List.length (sent w) + Z.to_nat N)%nat).
Proof.
  intros Hrc HN Hrange Hw Hr Hf Hfuel.
  assert (Hmax : maxRetries_of c = N) by (unfold maxRetries_of; rewrite Hrc; exact HN).
  destruct (DoRequest_all_fail env c fails fuel method endpoint body headers w)
    as [Ha Hres]; try rewrite Hmax; try assumption.
  rewrite Hmax in Ha, Hres.
  split; [exact Ha|]. split; [exact Hres|].
  reflexivity.
Qed.

Lemma DoRequest_transport_always_fails_witness :
  physical_attempts Fixtures.world0
    (fst (DoRequest Fixtures.env_refused 5
            (Fixtures.client_of (Some (Fixtures.retry_of 2 [])) Fixtures.limited)
            "GET" "/x" None [] Fixtures.world0))
  = 3%nat
  /\ snd (DoRequest Fixtures.env_refused 5
            (Fixtures.client_of (Some (Fixtures.retry_of 2 [])) Fixtures.limited)
            "GET" "/x" None [] Fixtures.world0)
     = Some (Fail (exhaustion_error 3 Fixtures.refused))
  /\ Error (exhaustion_error 3 Fixtures.refused)
     = "request failed after 3 attempts: "
       ++ Error Fixtures.refused.
Proof.
  apply (DoRequest_transport_always_fails Fixtures.env_refused
           (Fixtures.client_of (Some (Fixtures.retry_of 2 [])) Fixtures.limited)
           (Fixtures.retry_of 2 []) 2 (fun _ => Fixtures.refused) 5
           "GET" "/x" None [] Fixtures.world0).
  - reflexivity.
  - reflexivity.
  - unfold GoInt.int_max. lia.
  - reflexivity.
  - reflexivity.
  - intros i. reflexivity.
  - cbn. lia.
Defined.

(** Two attempts of one call against a limited client take one token: the
    reading "a call of k attempts takes k tokens" fails on this run. *)
Lemma two_attempts_one_token :
  physical_attempts Fixtures.world0
    (fst (DoRequest Fixtures.env_refused 5
            (Fixtures.client_of (Some (Fixtures.retry_of 1 [])) Fixtures.limited)
            "GET" "/x" None [] Fixtures.world0)) = 2%nat
  /\ tokens_consumed Fixtures.world0
       (fst (DoRequest Fixtures.env_refused 5
               (Fixtures.client_of (Some (Fixtures.retry_of 1 [])) Fixtures.limited)
               "GET" "/x" None [] Fixtures.world0)) = 1%nat
  /\ ~ one_token_per_attempt Fixtures.world0
         (fst (DoRequest Fixtures.env_refused 5
                 (Fixtures.client_of (Some (Fixtures.retry_of 1 [])) Fixtures.limited)
                 "GET" "/x" None [] Fixtures.world0)).
Proof.
  split; [reflexivity|]. split; [reflexivity|].
  unfold one_token_per_attempt. vm_compute. discriminate.
Qed.

(** C1, as the code has it. A logical call asks the limiter once, before
    the loop: it takes one token when a limiter is configured and admits
    the call, none otherwise, however many physical attempts follow. *)
Theorem DoRequest_one_token_per_call (env : Env) (fuel : nat) (c : Client)
    (method endpoint : string) (body : option handle)
    (headers : list (string * string)) (w : World) :
  tokens (fst (DoRequest env fuel c method endpoint body headers w))
  = (tokens w + admissions env c)%nat
  /\ tokens_consumed w (fst (DoRequest env fuel c method endpoint body headers w))
     = admissions env c
  /\ (admissions env c <= 1)%nat.
Proof.
  assert (Ht : tokens (fst (DoRequest env fuel c method endpoint body headers w))
               = (tokens w + admissions env c)%nat).
  { destruct (DoRequest_shape env fuel c method endpoint body headers w)
      as (w1 & Ht & _ & _ & _ & [[e ->] | ->]).
    - exact Ht.
    - rewrite retry_loop_tokens. exact Ht. }
  split; [exact Ht|]. split.
  - unfold tokens_consumed. rewrite Ht. lia.
  - unfold admissions. destruct (rateLimiter c), (limiter_Wait env); lia.
Qed.




Lemma shouldRetry_In (c : Client) (s : Z) :
  shouldRetry c s = true <-> In s (retryableCodes c).
Proof.
  unfold shouldRetry. rewrite existsb_exists. split.
  - intros (code & Hin & Heq). apply Z.eqb_eq in Heq. subst. exact Hin.
  - intros Hin. exists s. split; [exact Hin | apply Z.eqb_refl].
Qed.

Lemma shouldRetry_spec (c : Client) (s : Z) :
  shouldRetry c s = true <-> In s (spec_retryable_set c).
Proof.
  rewrite shouldRetry_In. unfold retryableCodes, spec_retryable_set, default_retryable.
  destruct (Retry (config c)) as [policy|]; [|tauto].
  destruct (RetryableStatusCodes policy); cbn; tauto.
Qed.

(** [k] attempts that end in [continue], each a failed send or a response
    with a retryable status, then a response that is not retried: the loop
    closes every body it received on the way, in order, and returns the
    last response with its body open. *)
Lemma retry_loop_continue_then_return (env : Env) (c : Client) (req : Request) (N : Z) :
  N <= GoInt.int_max ->
  forall (k : nat) (a : Z) (lastErr : option error) (w : World) (fuel : nat)
         (r : Response),
    0 <= a -> a + Z.of_nat k <= N -> (k < fuel)%nat ->
    (forall i resp, (i < k)%nat ->
                    rt_result (round_trip env (List.length (sent w) + i)%nat) = Ok resp ->
                    shouldRetry c (StatusCode resp) = true) ->
    rt_result (round_trip env (List.length (sent w) + k)%nat) = Ok r ->
    shouldRetry c (StatusCode r) = false \/ a + Z.of_nat k = N ->
    snd (retry_loop env fuel c req N a lastErr w) = Some (Ok r)
    /\ List.length (sent (fst (retry_loop env fuel c req N a lastErr w)))
       = (List.length (sent w) + k + 1)%nat
    /\ closed (fst (retry_loop env fuel c req N a lastErr w))
       = (closed w ++ received env (List.length (sent w)) k)%list.
Proof.
  intros HN. induction k as [|k IH];
    intros a lastErr w fuel r Ha Hak Hfuel Hre Hr Hlast.
  - destruct fuel as [|fuel]; [lia|].
    rewrite retry_loop_step by lia.
    rewrite Nat.add_0_r in Hr. rewrite Hr.
    assert (E : shouldRetry c (StatusCode r) && (a <? N) = false).
    { destruct Hlast as [-> | Hlast]; [reflexivity|].
      apply andb_false_iff. right. apply Z.ltb_ge. lia. }
    rewrite E. cbn [fst snd]. rewrite httpClient_Do_sent_length.
    split; [reflexivity|]. split; [lia|].
    cbn. rewrite app_nil_r. reflexivity.
  - destruct fuel as [|fuel]; [lia|].
    rewrite retry_loop_step by lia.
    assert (E : (a <? N) = true) by (apply Z.ltb_lt; lia).
    assert (Hnext : forall e w1,
               List.length (sent w1) = S (List.length (sent w)) ->
               snd (retry_loop env fuel c req N (GoInt.add a 1) e w1) = Some (Ok r)
               /\ List.length (sent (fst (retry_loop env fuel c req N (GoInt.add a 1) e w1)))
                  = (List.length (sent w) + S k + 1)%nat
               /\ closed (fst (retry_loop env fuel c req N (GoInt.add a 1) e w1))
                  = (closed w1 ++ received env (S (List.length (sent w))) k)%list).
    { intros e w1 Hlen.
      rewrite add_one by (unfold GoInt.int_max in *; lia).
      destruct (IH (a + 1) e w1 fuel r) as (Hres & Hsent & Hclosed).
      - lia.
      - lia.
      - lia.
      - intros i resp Hi. rewrite Hlen.
        replace (S (List.length (sent w)) + i)%nat
          with (List.length (sent w) + S i)%nat by lia.
        apply Hre. lia.
      - rewrite Hlen.
        replace (S (List.length (sent w)) + k)%nat
          with (List.length (sent w) + S k)%nat by lia.
        exact Hr.
      - destruct Hlast as [Hlast | Hlast]; [left; exact Hlast | right; lia].
      - rewrite Hres, Hsent, Hclosed, Hlen. split; [reflexivity|]. split; [lia|].
        reflexivity. }
    cbn [received].
    destruct (rt_result (round_trip env (List.length (sent w)))) as [resp|err] eqn:Ert.
    + assert (Hs0 : shouldRetry c (StatusCode resp) = true).
      { apply (Hre 0%nat resp); [lia|]. rewrite Nat.add_0_r. exact Ert. }
      rewrite Hs0, E. cbn [andb].
      destruct (Hnext (Some (status_error resp))
                  (Body_Close (Body resp) (fst (httpClient_Do env req w))))
        as (Hres & Hsent & Hclosed).
      { cbn. rewrite length_app. cbn. lia. }
      unfold status_error in *. rewrite Hres, Hsent, Hclosed.
      split; [reflexivity|]. split; [reflexivity|].
      cbn [Body_Close closed].
      rewrite (proj1 (proj2 (httpClient_Do_world env req w))).
      rewrite <- !app_assoc. reflexivity.
    + destruct (Hnext (Some err) (fst (httpClient_Do env req w)))
        as (Hres & Hsent & Hclosed).
      { apply httpClient_Do_sent_length. }
      rewrite Hres, Hsent, Hclosed.
      split; [reflexivity|]. split; [reflexivity|].
      rewrite (proj1 (proj2 (httpClient_Do_world env req w))). reflexivity.
Qed.

(** C4. The set [shouldRetry] consults is the one the retry policy lists,
    and {429, 500, 502, 503, 504} when there is no policy or it lists no
    status code.  In a call of [DoRequest] that the limiter admits, on a
    well-formed request: when every response received in the first [k]
    attempts has a status in that set, with [k] at most max_retries, and
    attempt [k + 1] receives a response [r] whose status is outside the set
    (or is the last attempt), then the call makes exactly [k + 1] attempts,
    has closed the body of every response received before [r], in order,
    and returns [r] as it is, its body open, whatever number of attempts
    remain.  The call is the loop entered at attempt 0, and an iteration of
    that loop that receives a response with a status in the set while
    attempts remain closes its body, records the error "HTTP status: text"
    as the last error and goes on with the next attempt. *)
Theorem DoRequest_retries_by_status (env : Env) (c : Client) (fuel : nat)
    (method endpoint : string) (body : option handle)
    (headers : list (string * string)) (w : World) (k : nat) (r : Response) :
  maxRetries_of c <= GoInt.int_max ->
  limiter_Wait env = None ->
  request_check env method (url_Resolve env (baseURL c) endpoint) = None ->
  Z.of_nat k <= maxRetries_of c -> (k < fuel)%nat ->
  (forall i resp, (i < k)%nat ->
                  rt_result (round_trip env (List.length (sent w) + i)%nat) = Ok resp ->
                  In (StatusCode resp) (spec_retryable_set c)) ->
  rt_result (round_trip env (List.length (sent w) + k)%nat) = Ok r ->
  ~ In (StatusCode r) (spec_retryable_set c) \/ Z.of_nat k = maxRetries_of c ->
  (forall s, shouldRetry c s = true <-> In s (spec_retryable_set c))
  /\ snd (DoRequest env fuel c method endpoint body headers w) = Some (Ok r)
  /\ physical_attempts w (fst (DoRequest env fuel c method endpoint body headers w))
     = (k + 1)%nat
  /\ closed (fst (DoRequest env fuel c method endpoint body headers w))
     = (closed w ++ received env (List.length (sent w)) k)%list
  /\ (exists w1,
        sent w1 = sent w /\ closed w1 = closed w
        /\ DoRequest env fuel c method endpoint body headers w
           = retry_loop env fuel c (build_request env c method endpoint body headers w)
               (maxRetries_of c) 0 None w1)
  /\ (forall (fuel' : nat) (a : Z) (lastErr : option error) (w' : World)
             (resp : Response),
        0 <= a < maxRetries_of c ->
        rt_result (round_trip env (List.length (sent w'))) = Ok resp ->
        In (StatusCode resp) (spec_retryable_set c) ->
        exists w'',
          retry_loop env (S fuel') c (build_request env c method endpoint body headers w)
            (maxRetries_of c) a lastErr w'
          = retry_loop env fuel' c (build_request env c method endpoint body headers w)
              (maxRetries_of c) (a + 1)
              (Some (ErrNew ("HTTP " ++ GoInt.fmt_d (StatusCode resp) ++ ": "
                             ++ Status resp)))
              w''
          /\ closed w'' = (closed w' ++ [Body resp])%list
          /\ physical_attempts w' w'' = 1%nat).
Proof.
  intros HN Hw Hr Hk Hfuel Hre Hlast Hstop.
  split; [apply shouldRetry_spec|].
  destruct (DoRequest_enters_loop env fuel c method endpoint body headers w Hw Hr)
    as (w1 & _ & Hs & Hc & _ & Hrun).
  destruct (retry_loop_continue_then_return env c
              (build_request env c method endpoint body headers w)
              (maxRetries_of c) HN k 0 None w1 fuel r)
    as (Hres & Hsent & Hclosed).
  - lia.
  - lia.
  - exact Hfuel.
  - intros i resp Hi Hrt. rewrite Hs in Hrt.
    apply shouldRetry_spec. exact (Hre i resp Hi Hrt).
  - rewrite Hs. exact Hlast.
  - destruct Hstop as [Hstop | Hstop]; [left | right; lia].
    destruct (shouldRetry c (StatusCode r)) eqn:E; [|reflexivity].
    apply shouldRetry_spec in E. contradiction.
  - rewrite Hrun. split; [exact Hres|]. split; [|split; [|split]].
    + unfold physical_attempts. rewrite Hsent, Hs. lia.
    + rewrite Hclosed, Hc, Hs. reflexivity.
    + exists w1. auto.
    + intros fuel' a lastErr w' resp Ha Hrt Hin.
      exists (Body_Close (Body resp)
                (fst (httpClient_Do env
                        (build_request env c method endpoint body headers w) w'))).
      rewrite retry_loop_step by lia. rewrite Hrt.
      apply shouldRetry_spec in Hin. rewrite Hin.
      assert (E : (a <? maxRetries_of c) = true) by (apply Z.ltb_lt; lia).
      rewrite E. cbn [andb]. rewrite add_one by lia.
      split; [reflexivity|]. split; [reflexivity|].
      unfold physical_attempts. cbn [Body_Close sent].
      rewrite httpClient_Do_sent_length. lia.
Qed.

Lemma DoRequest_retries_by_status_witness :
  snd (DoRequest Fixtures4.env_503_500 5
         (Fixtures.client_of (Some (Fixtures.retry_of 2 [503])) None)
         "GET" "/x" None [] Fixtures.world0)
  = Some (Ok (Fixtures.resp 500 "500 Internal Server Error" 11%nat))
  /\ physical_attempts Fixtures.world0
       (fst (DoRequest Fixtures4.env_503_500 5
               (Fixtures.client_of (Some (Fixtures.retry_of 2 [503])) None)
               "GET" "/x" None [] Fixtures.world0)) = 2%nat
  /\ closed (fst (DoRequest Fixtures4.env_503_500 5
                    (Fixtures.client_of (Some (Fixtures.retry_of 2 [503])) None)
                    "GET" "/x" None [] Fixtures.world0)) = [10%nat].
Proof.
  destruct (DoRequest_retries_by_status Fixtures4.env_503_500
              (Fixtures.client_of (Some (Fixtures.retry_of 2 [503])) None) 5
              "GET" "/x" None [] Fixtures.world0 1
              (Fixtures.resp 500 "500 Internal Server Error" 11%nat))
    as (_ & Hres & Hn & Hc & _).
  - cbn. unfold GoInt.int_max. lia.
  - reflexivity.
  - reflexivity.
  - cbn. lia.
  - lia.
  - intros i resp Hi Hrt. destruct i as [|i]; [|lia].
    cbn in Hrt. injection Hrt as <-. cbn. left. reflexivity.
  - reflexivity.
  - left. cbn. intros [H | []]. discriminate H.
  - split; [exact Hres|]. split; [exact Hn | exact Hc].
Defined.

(** [k] retried responses, then one that is returned: the whole call. *)
Lemma DoRequest_retry_then_return (env : Env) (c : Client) (fuel : nat)
    (method endpoint : string) (body : option handle)
    (headers : list (string * string)) (w : World)
    (k : nat) (resps : nat -> Response) (r : Response) :
  maxRetries_of c <= GoInt.int_max ->
  limiter_Wait env = None ->
  request_check env method (url_Resolve env (baseURL c) endpoint) = None ->
  Z.of_nat k <= maxRetries_of c -> (k < fuel)%nat ->
  (forall i, (i < k)%nat ->
             rt_result (round_trip env (List.length (sent w) + i)%nat) = Ok (resps i)
             /\ In (StatusCode (resps i)) (retryableCodes c)) ->
  rt_result (round_trip env (List.length (sent w) + k)%nat) = Ok r ->
  ~ In (StatusCode r) (retryableCodes c) \/ Z.of_nat k = maxRetries_of c ->
  snd (DoRequest env fuel c method endpoint body headers w) = Some (Ok r)
  /\ physical_attempts w (fst (DoRequest env fuel c method endpoint body headers w))
     = (k + 1)%nat
  /\ closed (fst (DoRequest env fuel c method endpoint body headers w))
     = (closed w ++ map (fun i => Body (resps i)) (seq 0 k))%list.
Proof.
  intros HN Hw Hr Hk Hfuel Hre Hlast Hstop.
  destruct (DoRequest_enters_loop env fuel c method endpoint body headers w Hw Hr)
    as (w1 & _ & Hs & Hc & _ & ->).
  destruct (retry_loop_retry_then_return env c
              (build_request env c method endpoint body headers w)
              (maxRetries_of c) HN k resps 0 None w1 fuel r)
    as (Hres & Hsent & Hclosed).
  - lia.
  - lia.
  - exact Hfuel.
  - intros i Hi. rewrite Hs. destruct (Hre i Hi) as [H1 H2].
    split; [exact H1 | apply shouldRetry_In; exact H2].
  - rewrite Hs. exact Hlast.
  - destruct Hstop as [Hstop | Hstop]; [left | right; lia].
    destruct (shouldRetry c (StatusCode r)) eqn:E; [|reflexivity].
    apply shouldRetry_In in E. contradiction.
  - split; [exact Hres|]. split.
    + unfold physical_attempts. rewrite Hsent, Hs. lia.
    + rewrite Hclosed, Hc. reflexivity.
Qed.

(** The scenario of the specification: max_retries = 2, retryable set {503},
    the transport answers 503, 503, 200; the 200 response is returned after
    three attempts, the two 503 bodies closed. *)
Example scenario_503_503_200 :
  snd (DoRequest Fixtures.env_503_503_200 4
         (Fixtures.client_of (Some (Fixtures.retry_of 2 [503])) None)
         "GET" "/x" None [] Fixtures.world0)
  = Some (Ok (Fixtures.resp 200 "200 OK" 12%nat))
  /\ physical_attempts Fixtures.world0
       (fst (DoRequest Fixtures.env_503_503_200 4
               (Fixtures.client_of (Some (Fixtures.retry_of 2 [503])) None)
               "GET" "/x" None [] Fixtures.world0)) = 3%nat
  /\ closed (fst (DoRequest Fixtures.env_503_503_200 4
                    (Fixtures.client_of (Some (Fixtures.retry_of 2 [503])) None)
                    "GET" "/x" None [] Fixtures.world0)) = [10%nat; 11%nat].
Proof. repeat split. Qed.







(** * Further properties of the code *)

(** ** errors.go *)

Lemma string_case_In (x : string) (cases : list string) :
  Models.string_case x cases = true <-> In x cases.
Proof.
  unfold Models.string_case. rewrite existsb_exists. split.
  - intros (y & Hin & Heq). apply String.eqb_eq in Heq. subst. exact Hin.
  - intros Hin. exists x. split; [exact Hin | apply String.eqb_refl].
Qed.

Lemma Z_case_In (x : Z) (cases : list Z) :
  Models.Z_case x cases = true <-> In x cases.
Proof.
  unfold Models.Z_case. rewrite existsb_exists. split.
  - intros (y & Hin & Heq). apply Z.eqb_eq in Heq. subst. exact Hin.
  - intros Hin. exists x. split; [exact Hin | apply Z.eqb_refl].
Qed.

(** Every rate-limit failure is retryable. *)
Theorem rate_limit_error_is_retryable (e : Models.APIError) :
  Models.IsRateLimitError e = true -> Models.IsRetryable e = true.
Proof.
  unfold Models.IsRateLimitError, Models.IsRetryable. intros H.
  apply orb_true_iff in H. destruct H as [H | H].
  - apply Z.eqb_eq in H. rewrite H. reflexivity.
  - apply String.eqb_eq in H. rewrite H.
    destruct (Models.Z_case (Models.HTTPStatusCode e) _); reflexivity.
Qed.

Lemma rate_limit_error_is_retryable_witness :
  Models.IsRetryable (Models.mkAPIError "ANY" "" "" None 429) = true.
Proof.
  apply (rate_limit_error_is_retryable (Models.mkAPIError "ANY" "" "" None 429)).
  reflexivity.
Defined.

Lemma class_by_code (e : Models.APIError) :
  Models.Z_case (Models.HTTPStatusCode e) classified_statuses = false ->
  Models.IsRetryable e
  = Models.string_case (Models.Code e)
      ["RATE_LIMIT_EXCEEDED"; "INTERNAL_ERROR"; "SERVICE_UNAVAILABLE"; "TIMEOUT"]
  /\ Models.IsAuthenticationError e
     = Models.string_case (Models.Code e)
         ["UNAUTHORIZED"; "FORBIDDEN"; "INVALID_ACCESS_TOKEN";
          "ACCESS_TOKEN_EXPIRED"; "INSUFFICIENT_PERMISSIONS"]
  /\ Models.IsValidationError e
     = Models.string_case (Models.Code e)
         ["INVALID_PARAMETER"; "MISSING_PARAMETER";
          "PARAMETER_VALUE_NOT_SUPPORTED"; "VALIDATION_ERROR"].
Proof.
  intros H.
  assert (Hno : forall s, In s classified_statuses -> Models.HTTPStatusCode e <> s).
  { intros s Hs Heq.
    assert (Hin : In (Models.HTTPStatusCode e) classified_statuses)
      by (rewrite Heq; exact Hs).
    apply Z_case_In in Hin. congruence. }
  assert (Hz : forall l, (forall s, In s l -> In s classified_statuses) ->
                         Models.Z_case (Models.HTTPStatusCode e) l = false).
  { intros l Hl. destruct (Models.Z_case (Models.HTTPStatusCode e) l) eqn:E;
      [|reflexivity].
    apply Z_case_In in E. exfalso. apply (Hno _ (Hl _ E)). reflexivity. }
  unfold Models.IsRetryable, Models.IsAuthenticationError, Models.IsValidationError.
  rewrite !Hz.
  - repeat split;
      match goal with |- (if ?b then true else false) = _ => destruct b; reflexivity end.
  - unfold classified_statuses. cbn. intros s [<- | []]. tauto.
  - unfold classified_statuses. cbn. intros s [<- | [<- | []]]; tauto.
  - unfold classified_statuses. cbn.
    intros s [<- | [<- | [<- | [<- | [<- | []]]]]]; tauto.
Qed.

(** When the HTTP status is none of those the predicates look at (as for
    every error decoded from a body, whose status field stays 0), the
    classes retryable, authentication and validation exclude one
    another. *)
Theorem code_classes_exclusive (e : Models.APIError) :
  Models.Z_case (Models.HTTPStatusCode e) classified_statuses = false ->
  ~ (Models.IsRetryable e = true /\ Models.IsAuthenticationError e = true)
  /\ ~ (Models.IsRetryable e = true /\ Models.IsValidationError e = true)
  /\ ~ (Models.IsAuthenticationError e = true /\ Models.IsValidationError e = true).
Proof.
  intros H. destruct (class_by_code e H) as (-> & -> & ->).
  repeat split; intros [H1 H2];
    apply string_case_In in H1; apply string_case_In in H2;
    cbn in H1, H2;
    repeat match goal with
           | H : _ \/ _ |- _ => destruct H
           | H : False |- _ => contradiction
           end;
    congruence.
Qed.

Lemma code_classes_exclusive_witness :
  ~ (Models.IsRetryable (Models.mkAPIError "TIMEOUT" "" "" None 0) = true
     /\ Models.IsAuthenticationError (Models.mkAPIError "TIMEOUT" "" "" None 0) = true)
  /\ ~ (Models.IsRetryable (Models.mkAPIError "TIMEOUT" "" "" None 0) = true
        /\ Models.IsValidationError (Models.mkAPIError "TIMEOUT" "" "" None 0) = true)
  /\ ~ (Models.IsAuthenticationError (Models.mkAPIError "TIMEOUT" "" "" None 0) = true
        /\ Models.IsValidationError (Models.mkAPIError "TIMEOUT" "" "" None 0) = true).
Proof.
  apply (code_classes_exclusive (Models.mkAPIError "TIMEOUT" "" "" None 0)).
  reflexivity.
Defined.

(** ** Validate and NewClient *)

Lemma validateRetry_None (r : RetryConfig) :
  validateRetry r = None <->
  0 <= MaxRetries r /\ 0 < InitialDelay r /\ 0 < MaxDelay r
  /\ float_le_zero (Multiplier r) = false.
Proof.
  unfold validateRetry.
  destruct (MaxRetries r <? 0) eqn:E1;
    [apply Z.ltb_lt in E1; split; [discriminate | lia]|].
  destruct (InitialDelay r <=? 0) eqn:E2;
    [apply Z.leb_le in E2; split; [discriminate | lia]|].
  destruct (MaxDelay r <=? 0) eqn:E3;
    [apply Z.leb_le in E3; split; [discriminate | lia]|].
  apply Z.ltb_ge in E1. apply Z.leb_gt in E2, E3.
  destruct (float_le_zero (Multiplier r)) eqn:E4.
  - split; [discriminate | intros (_ & _ & _ & H); discriminate].
  - split; [intros _; repeat split; lia | reflexivity].
Qed.

Lemma validateRateLimit_None (r : RateLimitConfig) :
  validateRateLimit r = None <->
  float_le_zero (RequestsPerSecond r) = false /\ 0 < BurstSize r.
Proof.
  unfold validateRateLimit.
  destruct (float_le_zero (RequestsPerSecond r)) eqn:E1.
  - split; [discriminate | intros [H _]; discriminate].
  - destruct (BurstSize r <=? 0) eqn:E2.
    + apply Z.leb_le in E2. split; [discriminate | lia].
    + apply Z.leb_gt in E2. split; [intros _; split; [reflexivity | lia] | reflexivity].
Qed.

Lemma Validate_None (c : Config) : Validate c = None <-> well_formed_config c.
Proof.
  unfold Validate, well_formed_config.
  destruct (BaseURL c =? "")%string eqn:E1.
  { apply String.eqb_eq in E1. split; [discriminate | intros [H _]; contradiction]. }
  apply String.eqb_neq in E1.
  destruct ((AccessToken c =? "")%string
            && ((ClientID c =? "")%string || (ClientSecret c =? "")%string)) eqn:E2.
  { apply andb_true_iff in E2. destruct E2 as [Et Ep].
    apply String.eqb_eq in Et. apply orb_true_iff in Ep.
    split; [discriminate|]. intros (_ & [H | [H1 H2]] & _); [contradiction|].
    destruct Ep as [Ep | Ep]; apply String.eqb_eq in Ep; contradiction. }
  assert (Hcred : AccessToken c <> "" \/ (ClientID c <> "" /\ ClientSecret c <> "")).
  { apply andb_false_iff in E2. destruct E2 as [Et | Ep].
    - left. apply String.eqb_neq. exact Et.
    - right. apply orb_false_iff in Ep. destruct Ep as [Ei Es].
      split; apply String.eqb_neq; assumption. }
  destruct (Timeout c <=? 0) eqn:E3.
  { apply Z.leb_le in E3. split; [discriminate | intros (_ & _ & H & _); lia]. }
  apply Z.leb_gt in E3.
  assert (Hbase : forall P Q : Prop,
             P -> Q ->
             BaseURL c <> ""
             /\ (AccessToken c <> "" \/ (ClientID c <> "" /\ ClientSecret c <> ""))
             /\ 0 < Timeout c /\ P /\ Q).
  { intros P Q HP HQ. do 3 (split; [assumption|]). split; assumption. }
  destruct (Retry c) as [rc|].
  - destruct (validateRetry rc) as [e|] eqn:Er.
    + split; [discriminate|]. intros (_ & _ & _ & Hr & _).
      specialize (Hr rc eq_refl). apply validateRetry_None in Hr. congruence.
    + apply validateRetry_None in Er.
      destruct (RateLimit c) as [rl|].
      * rewrite validateRateLimit_None. split.
        -- intros Hl. apply Hbase.
           ++ intros r0 [= <-]. exact Er.
           ++ intros r0 [= <-]. exact Hl.
        -- intros (_ & _ & _ & _ & Hl). apply Hl. reflexivity.
      * split; [|reflexivity]. intros _. apply Hbase.
        -- intros r0 [= <-]. exact Er.
        -- intros r0 [=].
  - destruct (RateLimit c) as [rl|].
    + rewrite validateRateLimit_None. split.
      * intros Hl. apply Hbase.
        -- intros r0 [=].
        -- intros r0 [= <-]. exact Hl.
      * intros (_ & _ & _ & _ & Hl). apply Hl. reflexivity.
    + split; [|reflexivity]. intros _. apply Hbase; intros r0 [=].
Qed.

(** A client [NewClient] returns was built from a configuration that is
    given (never the nil one), well formed and unchanged; its base URL is
    the parsed one, it will never run the loop with a negative bound, and it
    has a limiter exactly when a rate-limit policy is configured, with the
    policy's rate and burst. *)
Theorem NewClient_ok_invariant (env : Env) (cfg : option Config) (c : Client) :
  NewClient env cfg = Ok c ->
  cfg = Some (config c)
  /\ well_formed_config (config c)
  /\ url_Parse env (BaseURL (config c)) = Ok (baseURL c)
  /\ 0 <= maxRetries_of c
  /\ rateLimiter c
     = option_map (fun rl => mkLimiter (RequestsPerSecond rl) (BurstSize rl))
         (RateLimit (config c)).
Proof.
  unfold NewClient. intros H.
  destruct cfg as [cf|].
  - destruct (Validate cf) eqn:Ev; [discriminate|].
    destruct (url_Parse env (BaseURL cf)) as [u|] eqn:Eu; [|discriminate].
    injection H as <-. cbn [config baseURL rateLimiter].
    apply Validate_None in Ev.
    split; [reflexivity|]. split; [exact Ev|]. split; [exact Eu|]. split.
    + unfold maxRetries_of. cbn [config].
      destruct (Retry cf) as [rc|] eqn:Er; [|lia].
      destruct Ev as (_ & _ & _ & Hr & _). apply (Hr rc). exact Er.
    + destruct (RateLimit cf); reflexivity.
  - cbn in H. discriminate.
Qed.

Lemma NewClient_ok_invariant_witness :
  Some (Fixtures.config_of None Fixtures.limited)
  = Some (config (Fixtures.client_of None Fixtures.limited))
  /\ well_formed_config (config (Fixtures.client_of None Fixtures.limited))
  /\ url_Parse Fixtures.env_refused
       (BaseURL (config (Fixtures.client_of None Fixtures.limited)))
     = Ok (baseURL (Fixtures.client_of None Fixtures.limited))
  /\ 0 <= maxRetries_of (Fixtures.client_of None Fixtures.limited)
  /\ rateLimiter (Fixtures.client_of None Fixtures.limited)
     = option_map (fun rl => mkLimiter (RequestsPerSecond rl) (BurstSize rl))
         (RateLimit (config (Fixtures.client_of None Fixtures.limited))).
Proof.
  apply (NewClient_ok_invariant Fixtures.env_refused
           (Some (Fixtures.config_of None Fixtures.limited))
           (Fixtures.client_of None Fixtures.limited)).
  reflexivity.
Defined.

Lemma NewClient_inversion (env : Env) (cfg : Config) (c : Client) :
  NewClient env (Some cfg) = Ok c ->
  Validate cfg = None
  /\ url_Parse env (BaseURL cfg) = Ok (baseURL c)
  /\ config c = cfg.
Proof.
  unfold NewClient. intros H.
  destruct (Validate cfg); [discriminate|].
  destruct (url_Parse env (BaseURL cfg)) as [u|]; [|discriminate].
  injection H as <-. auto.
Qed.

(** [NewClient] succeeds on exactly the well-formed configurations whose
    base URL parses. *)
Theorem NewClient_succeeds_iff (env : Env) (cfg : Config) :
  (exists c, NewClient env (Some cfg) = Ok c)
  <-> well_formed_config cfg /\ exists u, url_Parse env (BaseURL cfg) = Ok u.
Proof.
  split.
  - intros [c H]. destruct (NewClient_inversion env cfg c H) as (Hv & Hu & _).
    apply Validate_None in Hv. split; [exact Hv | eauto].
  - intros [Hw [u Hu]]. apply Validate_None in Hw.
    unfold NewClient. rewrite Hw, Hu. eauto.
Qed.

(** The timeout [NewClient] gives the HTTP client is never the configured
    one: the duration is scaled by 10^9, exactly so up to about 9.2 seconds
    and with int64 wrap-around above. *)
Theorem NewClient_timeout_never_configured (env : Env) (cfg : Config) (c : Client) :
  NewClient env (Some cfg) = Ok c ->
  GoInt.in_range (Timeout cfg) ->
  ClientTimeout (httpClient c) <> Timeout (config c)
  /\ (Timeout cfg <= 9223372036 ->
      ClientTimeout (httpClient c) = Timeout cfg * 1000000000).
Proof.
  intros H Hr.
  destruct (NewClient_inversion env cfg c H) as (Hv & _ & _).
  apply Validate_None in Hv. destruct (NewClient_timeout env cfg c H) as [Ht Ht'].
  rewrite Ht, Ht'.
  assert (Hpos : 0 < Timeout cfg).
  { destruct Hv as (_ & _ & Hp & _). exact Hp. }
  unfold GoInt.in_range, GoInt.int_min, GoInt.int_max in Hr.
  unfold GoInt.mul, GoTime.Second. split.
  - intros Heq.
    unfold GoInt.wrap64 in Heq.
    assert (Hdiv : (2 ^ 64 | 999999999 * Timeout cfg)).
    { exists ((Timeout cfg * 1000000000 + 2 ^ 63) / 2 ^ 64).
      pose proof (Z.div_mod (Timeout cfg * 1000000000 + 2 ^ 63) (2 ^ 64)
                    ltac:(lia)) as Hdm.
      lia. }
    apply Z.gauss in Hdiv; [|reflexivity].
    destruct Hdiv as [k Hk]. lia.
  - intros Hsmall. apply wrap64_id.
    unfold GoInt.in_range, GoInt.int_min, GoInt.int_max. lia.
Qed.

Lemma NewClient_timeout_never_configured_witness :
  ClientTimeout (httpClient (Fixtures.client_of None None))
  <> Timeout (config (Fixtures.client_of None None))
  /\ (GoTime.seconds 30 <= 9223372036 ->
      ClientTimeout (httpClient (Fixtures.client_of None None))
      = GoTime.seconds 30 * 1000000000).
Proof.
  apply (NewClient_timeout_never_configured Fixtures.env_refused
           (Fixtures.config_of None None) (Fixtures.client_of None None)).
  - reflexivity.
  - unfold GoInt.in_range, GoInt.int_min, GoInt.int_max. cbn. lia.
Defined.

(** ** More on the request executor *)

Section ExecutorMore.

Variable env : Env.
Variable c : Client.
Variable req : Request.

Lemma retry_loop_attempt_bound (N : Z) :
  N < GoInt.int_max ->
  forall (fuel : nat) (a : Z) (lastErr : option error) (w : World),
    0 <= a ->
    (List.length (sent (fst (retry_loop env fuel c req N a lastErr w)))
     <= List.length (sent w) + Z.to_nat (N + 1 - a))%nat.
Proof.
  intros HN. induction fuel as [|fuel IH]; intros a lastErr w Ha; [cbn; lia|].
  destruct (Z.le_gt_cases a N) as [HaN | HaN].
  - rewrite retry_loop_step by assumption.
    assert (Hnext : forall e w1,
               List.length (sent w1) = S (List.length (sent w)) ->
               (List.length (sent (fst (retry_loop env fuel c req N (GoInt.add a 1) e w1)))
                <= List.length (sent w) + Z.to_nat (N + 1 - a))%nat).
    { intros e w1 Hl. rewrite add_one by lia.
      specialize (IH (a + 1) e w1 ltac:(lia)). rewrite Hl in IH. lia. }
    destruct (rt_result (round_trip env (List.length (sent w)))) as [resp|err].
    + destruct (shouldRetry c (StatusCode resp) && (a <? N)).
      * apply Hnext. cbn. rewrite length_app. cbn. lia.
      * cbn [fst]. rewrite httpClient_Do_sent_length. lia.
    + apply Hnext. apply httpClient_Do_sent_length.
  - rewrite retry_loop_exit by assumption. cbn [fst]. lia.
Qed.


(** Every body the loop received it has closed, but for the one it
    returns. *)
Lemma retry_loop_closed :
  forall (fuel : nat) (N a : Z) (lastErr : option error) (w : World),
  exists n,
    List.length (sent (fst (retry_loop env fuel c req N a lastErr w)))
    = (List.length (sent w) + n)%nat
    /\ (closed (fst (retry_loop env fuel c req N a lastErr w))
        ++ handed_over (snd (retry_loop env fuel c req N a lastErr w)))%list
       = (closed w ++ received env (List.length (sent w)) n)%list.
Proof.
  induction fuel as [|fuel IH]; intros N a lastErr w.
  - exists 0%nat. cbn. rewrite Nat.add_0_r. auto.
  - destruct (Z.le_gt_cases a N) as [Ha | Ha].
    + rewrite retry_loop_step by assumption.
      destruct (rt_result (round_trip env (List.length (sent w)))) as [resp|err] eqn:Ert.
      * destruct (shouldRetry c (StatusCode resp) && (a <? N)).
        -- set (w1 := Body_Close (Body resp) (fst (httpClient_Do env req w))).
           assert (Hl : List.length (sent w1) = S (List.length (sent w))).
           { subst w1. cbn. rewrite length_app. cbn. lia. }
           destruct (IH N (GoInt.add a 1) (Some (status_error resp)) w1) as (n & Hs & Hc).
           exists (S n). rewrite Hs, Hc, Hl. split; [lia|].
           cbn [received]. rewrite Ert. subst w1. cbn [Body_Close closed].
           rewrite (proj1 (proj2 (httpClient_Do_world env req w))).
           rewrite <- !app_assoc. reflexivity.
        -- exists 1%nat. cbn [fst snd handed_over received].
           rewrite httpClient_Do_sent_length, Ert.
           rewrite (proj1 (proj2 (httpClient_Do_world env req w))).
           split; [lia|]. rewrite app_nil_r. reflexivity.
      * destruct (IH N (GoInt.add a 1) (Some err) (fst (httpClient_Do env req w)))
          as (n & Hs & Hc).
        exists (S n). rewrite Hs, Hc, httpClient_Do_sent_length. split; [lia|].
        cbn [received]. rewrite Ert.
        rewrite (proj1 (proj2 (httpClient_Do_world env req w))). reflexivity.
    + rewrite retry_loop_exit by assumption.
      exists 0%nat. cbn. rewrite Nat.add_0_r, !app_nil_r. auto.
Qed.

(** Every attempt of the loop is made with the request object [req]. *)
Lemma retry_loop_requests :
  forall (fuel : nat) (N a : Z) (lastErr : option error) (w : World),
  exists log,
    sent (fst (retry_loop env fuel c req N a lastErr w)) = (sent w ++ log)%list
    /\ Forall (fun r => sr_request r = req) log.
Proof.
  induction fuel as [|fuel IH]; intros N a lastErr w.
  - exists []. cbn. rewrite app_nil_r. auto.
  - destruct (Z.le_gt_cases a N) as [Ha | Ha].
    + rewrite retry_loop_step by assumption.
      pose proof (proj1 (proj2 (proj2 (httpClient_Do_world env req w)))) as Hone.
      assert (Hnext : forall e w1,
                 sent w1 = sent (fst (httpClient_Do env req w)) ->
                 exists log,
                   sent (fst (retry_loop env fuel c req N (GoInt.add a 1) e w1))
                   = (sent w ++ log)%list
                   /\ Forall (fun r => sr_request r = req) log).
      { intros e w1 Hs. destruct (IH N (GoInt.add a 1) e w1) as (log & Hl & Hf).
        eexists. rewrite Hl, Hs, Hone, <- app_assoc. split; [reflexivity|].
        constructor; [reflexivity | exact Hf]. }
      destruct (rt_result (round_trip env (List.length (sent w)))) as [resp|err].
      * destruct (shouldRetry c (StatusCode resp) && (a <? N)).
        -- apply Hnext. reflexivity.
        -- eexists. cbn [fst]. split; [exact Hone|]. repeat constructor.
      * apply Hnext. reflexivity.
    + rewrite retry_loop_exit by assumption.
      exists []. cbn. rewrite app_nil_r. auto.
Qed.

End ExecutorMore.

(** One logical call never makes more than max_retries + 1 physical
    attempts, whatever the limiter and the transport do and however long
    the call is left to run. *)
Theorem DoRequest_attempt_bound (env : Env) (fuel : nat) (c : Client)
    (method endpoint : string) (body : option handle)
    (headers : list (string * string)) (w : World) :
  maxRetries_of c < GoInt.int_max ->
  (physical_attempts w (fst (DoRequest env fuel c method endpoint body headers w))
   <= Z.to_nat (maxRetries_of c + 1))%nat.
Proof.
  intros HN. unfold physical_attempts.
  destruct (DoRequest_shape env fuel c method endpoint body headers w)
    as (w1 & _ & Hs & _ & _ & [[e ->] | ->]).
  - cbn [fst]. rewrite Hs. lia.
  - pose proof (retry_loop_attempt_bound env c
                  (build_request env c method endpoint body headers w)
                  (maxRetries_of c) HN fuel 0 None w1 ltac:(lia)) as Hb.
    rewrite Hs in Hb. rewrite Z.sub_0_r in Hb. lia.
Qed.

Lemma DoRequest_attempt_bound_witness :
  (physical_attempts Fixtures.world0
     (fst (DoRequest Fixtures.env_503_503_200 9
             (Fixtures.client_of (Some (Fixtures.retry_of 1 [])) None)
             "GET" "/x" None [] Fixtures.world0))
   <= Z.to_nat (1 + 1))%nat.
Proof.
  apply (DoRequest_attempt_bound Fixtures.env_503_503_200 9
           (Fixtures.client_of (Some (Fixtures.retry_of 1 [])) None)
           "GET" "/x" None [] Fixtures.world0).
  cbn. unfold GoInt.int_max. lia.
Defined.

(** Without a retry policy the bound of the loop is 3: against a transport
    that fails every call the client makes four attempts and reports
    "request failed after 4 attempts". *)
Theorem DoRequest_default_retries (env : Env) (c : Client) (fails : nat -> error)
    (fuel : nat) (method endpoint : string) (body : option handle)
    (headers : list (string * string)) (w : World) :
  Retry (config c) = None ->
  limiter_Wait env = None ->
  request_check env method (url_Resolve env (baseURL c) endpoint) = None ->
  (forall i, rt_result (round_trip env i) = Fail (fails i)) ->
  (4 < fuel)%nat ->
  physical_attempts w (fst (DoRequest env fuel c method endpoint body headers w)) = 4%nat
  /\ snd (DoRequest env fuel c method endpoint body headers w)
     = Some (Fail (ErrWrapf "request failed after 4 attempts: "
                     (fails (List.length (sent w) + 3)%nat))).
Proof.
  intros Hrc Hw Hr Hf Hfuel.
  assert (Hmax : maxRetries_of c = 3) by (unfold maxRetries_of; rewrite Hrc; reflexivity).
  destruct (DoRequest_all_fail env c fails fuel method endpoint body headers w)
    as [Ha Hres]; try rewrite Hmax; try assumption.
  - unfold GoInt.int_max. lia.
  - rewrite Hmax in Ha, Hres. split; [exact Ha | exact Hres].
Qed.

Lemma DoRequest_default_retries_witness :
  physical_attempts Fixtures.world0
    (fst (DoRequest Fixtures.env_refused 5 (Fixtures.client_of None None)
            "GET" "/x" None [] Fixtures.world0)) = 4%nat
  /\ snd (DoRequest Fixtures.env_refused 5 (Fixtures.client_of None None)
            "GET" "/x" None [] Fixtures.world0)
     = Some (Fail (ErrWrapf "request failed after 4 attempts: " Fixtures.refused)).
Proof.
  apply (DoRequest_default_retries Fixtures.env_refused (Fixtures.client_of None None)
           (fun _ => Fixtures.refused) 5 "GET" "/x" None [] Fixtures.world0).
  - reflexivity.
  - reflexivity.
  - reflexivity.
  - intros i. reflexivity.
  - lia.
Defined.

(** A client whose configuration holds a negative max_retries (one built
    or changed without [Validate]) sends nothing: the loop body never runs
    and the error wraps a nil error, which fmt renders as "%!w(<nil>)". *)
Theorem DoRequest_negative_retries (env : Env) (c : Client) (fuel : nat)
    (method endpoint : string) (body : option handle)
    (headers : list (string * string)) (w : World) :
  maxRetries_of c < 0 ->
  limiter_Wait env = None ->
  request_check env method (url_Resolve env (baseURL c) endpoint) = None ->
  physical_attempts w
    (fst (DoRequest env (S fuel) c method endpoint body headers w)) = 0%nat
  /\ exists e,
      snd (DoRequest env (S fuel) c method endpoint body headers w) = Some (Fail e)
      /\ Unwrap e = None
      /\ Error e
         = ("request failed after " ++ GoInt.fmt_d (GoInt.add (maxRetries_of c) 1)
            ++ " attempts: ") ++ "%!w(<nil>)".
Proof.
  intros HN Hw Hr.
  destruct (DoRequest_enters_loop env (S fuel) c method endpoint body headers w Hw Hr)
    as (w1 & _ & Hs & _ & _ & ->).
  rewrite retry_loop_exit by lia. cbn [fst snd Errorf_w]. split.
  - unfold physical_attempts. rewrite Hs. lia.
  - eexists. split; [reflexivity|]. split; reflexivity.
Qed.

Lemma DoRequest_negative_retries_witness :
  physical_attempts Fixtures.world0
    (fst (DoRequest Fixtures.env_refused 1
            (Fixtures.client_of (Some (Fixtures.retry_of (-1) [])) None)
            "GET" "/x" None [] Fixtures.world0)) = 0%nat
  /\ exists e,
      snd (DoRequest Fixtures.env_refused 1
             (Fixtures.client_of (Some (Fixtures.retry_of (-1) [])) None)
             "GET" "/x" None [] Fixtures.world0) = Some (Fail e)
      /\ Unwrap e = None
      /\ Error e
         = ("request failed after " ++ GoInt.fmt_d (GoInt.add (-1) 1)
            ++ " attempts: ") ++ "%!w(<nil>)".
Proof.
  apply (DoRequest_negative_retries Fixtures.env_refused
           (Fixtures.client_of (Some (Fixtures.retry_of (-1) [])) None)
           0 "GET" "/x" None [] Fixtures.world0).
  - cbn. lia.
  - reflexivity.
  - reflexivity.
Defined.

(** When every response up to the last attempt has a retryable status, the
    call does not end in an error: the response of attempt max_retries is
    returned, body open, after the bodies of the earlier ones were closed. *)
Theorem DoRequest_last_retryable_response_returned (env : Env) (c : Client)
    (fuel : nat) (method endpoint : string) (body : option handle)
    (headers : list (string * string)) (w : World) (resps : nat -> Response) :
  0 <= maxRetries_of c <= GoInt.int_max ->
  limiter_Wait env = None ->
  request_check env method (url_Resolve env (baseURL c) endpoint) = None ->
  (forall i, (i <= Z.to_nat (maxRetries_of c))%nat ->
             rt_result (round_trip env (List.length (sent w) + i)%nat) = Ok (resps i)
             /\ In (StatusCode (resps i)) (retryableCodes c)) ->
  (Z.to_nat (maxRetries_of c) < fuel)%nat ->
  snd (DoRequest env fuel c method endpoint body headers w)
  = Some (Ok (resps (Z.to_nat (maxRetries_of c))))
  /\ physical_attempts w (fst (DoRequest env fuel c method endpoint body headers w))
     = (Z.to_nat (maxRetries_of c) + 1)%nat
  /\ closed (fst (DoRequest env fuel c method endpoint body headers w))
     = (closed w
        ++ map (fun i => Body (resps i)) (seq 0 (Z.to_nat (maxRetries_of c))))%list.
Proof.
  intros HN Hw Hr Hre Hfuel.
  destruct (DoRequest_enters_loop env fuel c method endpoint body headers w Hw Hr)
    as (w1 & _ & Hs & Hc & _ & ->).
  destruct (retry_loop_retry_then_return env c
              (build_request env c method endpoint body headers w)
              (maxRetries_of c) ltac:(lia) (Z.to_nat (maxRetries_of c)) resps
              0 None w1 fuel (resps (Z.to_nat (maxRetries_of c))))
    as (Hres & Hsent & Hclosed).
  - lia.
  - lia.
  - exact Hfuel.
  - intros i Hi. rewrite Hs. destruct (Hre i ltac:(lia)) as [H1 H2].
    split; [exact H1 | apply shouldRetry_In; exact H2].
  - rewrite Hs. apply Hre. lia.
  - right. lia.
  - split; [exact Hres|]. split.
    + unfold physical_attempts. rewrite Hsent, Hs. lia.
    + rewrite Hclosed, Hc. reflexivity.
Qed.

Lemma DoRequest_last_retryable_response_returned_witness :
  snd (DoRequest Fixtures2.env_always_503 3
         (Fixtures.client_of (Some (Fixtures.retry_of 1 [])) None)
         "GET" "/x" None [] Fixtures.world0)
  = Some (Ok (Fixtures.resp 503 "503 Service Unavailable" 21%nat))
  /\ physical_attempts Fixtures.world0
       (fst (DoRequest Fixtures2.env_always_503 3
               (Fixtures.client_of (Some (Fixtures.retry_of 1 [])) None)
               "GET" "/x" None [] Fixtures.world0)) = 2%nat
  /\ closed (fst (DoRequest Fixtures2.env_always_503 3
                    (Fixtures.client_of (Some (Fixtures.retry_of 1 [])) None)
                    "GET" "/x" None [] Fixtures.world0)) = [20%nat].
Proof.
  apply (DoRequest_last_retryable_response_returned Fixtures2.env_always_503
           (Fixtures.client_of (Some (Fixtures.retry_of 1 [])) None)
           3 "GET" "/x" None [] Fixtures.world0
           (fun i => Fixtures.resp 503 "503 Service Unavailable" (20 + i)%nat)).
  - cbn. unfold GoInt.int_max. lia.
  - reflexivity.
  - reflexivity.
  - intros i Hi. split; [reflexivity|]. cbn. tauto.
  - cbn. lia.
Defined.

Lemma DoRequest_retry_then_return_witness :
  snd (DoRequest Fixtures.env_503_503_200 4
         (Fixtures.client_of (Some (Fixtures.retry_of 3 [503])) None)
         "GET" "/x" None [] Fixtures.world0)
  = Some (Ok (Fixtures.resp 200 "200 OK" 12%nat))
  /\ physical_attempts Fixtures.world0
       (fst (DoRequest Fixtures.env_503_503_200 4
               (Fixtures.client_of (Some (Fixtures.retry_of 3 [503])) None)
               "GET" "/x" None [] Fixtures.world0)) = 3%nat
  /\ closed (fst (DoRequest Fixtures.env_503_503_200 4
                    (Fixtures.client_of (Some (Fixtures.retry_of 3 [503])) None)
                    "GET" "/x" None [] Fixtures.world0)) = [10%nat; 11%nat].
Proof.
  apply (DoRequest_retry_then_return Fixtures.env_503_503_200
           (Fixtures.client_of (Some (Fixtures.retry_of 3 [503])) None)
           4 "GET" "/x" None [] Fixtures.world0 2
           (fun i => Fixtures.resp 503 "503 Service Unavailable" (10 + i)%nat)
           (Fixtures.resp 200 "200 OK" 12%nat)).
  - cbn. unfold GoInt.int_max. lia.
  - reflexivity.
  - reflexivity.
  - cbn. lia.
  - lia.
  - intros i Hi. destruct i as [|[|i]]; [| |lia]; (split; [reflexivity | cbn; tauto]).
  - reflexivity.
  - left. cbn. intros [H | []]. discriminate.
Defined.



Lemma DoRequest_closed_received (env : Env) (fuel : nat) (c : Client)
    (method endpoint : string) (body : option handle)
    (headers : list (string * string)) (w : World) :
  (closed (fst (DoRequest env fuel c method endpoint body headers w))
   ++ handed_over (snd (DoRequest env fuel c method endpoint body headers w)))%list
  = (closed w
     ++ received env (List.length (sent w))
          (physical_attempts w
             (fst (DoRequest env fuel c method endpoint body headers w))))%list.
Proof.
  unfold physical_attempts.
  destruct (DoRequest_shape env fuel c method endpoint body headers w)
    as (w1 & _ & Hs & Hc & _ & [[e ->] | ->]).
  - cbn [fst snd handed_over]. rewrite Hs, Hc, Nat.sub_diag. reflexivity.
  - destruct (retry_loop_closed env c (build_request env c method endpoint body headers w)
                fuel (maxRetries_of c) 0 None w1) as (n & Hl & Hcl).
    rewrite Hcl, Hl, Hs, Hc.
    replace (List.length (sent w) + n - List.length (sent w))%nat with n by lia.
    reflexivity.
Qed.

(** No response body is lost: when the call is over, every body the
    transport returned during it has been closed by [DoRequest], in the
    order received, except the body of the response handed to the caller. *)
Theorem DoRequest_closes_what_it_keeps (env : Env) (fuel : nat) (c : Client)
    (method endpoint : string) (body : option handle)
    (headers : list (string * string)) (w : World) :
  (closed (fst (DoRequest env fuel c method endpoint body headers w))
   ++ handed_over (snd (DoRequest env fuel c method endpoint body headers w)))%list
  = (closed w
     ++ received env (List.length (sent w))
          (physical_attempts w
             (fst (DoRequest env fuel c method endpoint body headers w))))%list.
Proof. apply DoRequest_closed_received. Qed.

(** ** Request headers *)

Lemma filter_keys_NoDup (f : string * string -> bool) (l : list (string * string)) :
  NoDup (map fst l) -> NoDup (map fst (filter f l)).
Proof.
  induction l as [|kv l IH]; intros H; cbn; [constructor|].
  inversion H as [|k ks Hnin Hnd]; subst.
  destruct (f kv); [|apply IH; exact Hnd].
  cbn. constructor; [|apply IH; exact Hnd].
  intros Hin. apply Hnin.
  apply in_map_iff in Hin. destruct Hin as (x & Hx & Hf).
  apply filter_In in Hf. apply in_map_iff. exists x. tauto.
Qed.

Lemma Header_Set_NoDup (env : Env) (k v : string) (req : Request) :
  NoDup (header_keys req) -> NoDup (header_keys (Header_Set env k v req)).
Proof.
  unfold header_keys, Header_Set. cbn [Header]. intros H.
  rewrite map_app. cbn [map fst].
  apply NoDup_app.
  - apply filter_keys_NoDup. exact H.
  - repeat constructor. intros [].
  - intros x Hx [<- | []].
    apply in_map_iff in Hx. destruct Hx as (kv & Hk & Hf).
    apply filter_In in Hf. destruct Hf as [_ Hf].
    rewrite Hk, String.eqb_refl in Hf. discriminate.
Qed.

Lemma Header_Set_sets (env : Env) (k v : string) (req : Request) :
  In (canonicalKey env k, v) (Header (Header_Set env k v req)).
Proof.
  unfold Header_Set. cbn [Header]. apply in_or_app. right. left. reflexivity.
Qed.

Lemma Header_Set_keeps (env : Env) (k v : string) (req : Request) (k0 v0 : string) :
  In (k0, v0) (Header req) -> k0 <> canonicalKey env k ->
  In (k0, v0) (Header (Header_Set env k v req)).
Proof.
  unfold Header_Set. cbn [Header]. intros Hin Hne.
  apply in_or_app. left. apply filter_In. split; [exact Hin|].
  cbn. apply negb_true_iff. apply String.eqb_neq. exact Hne.
Qed.

Lemma Header_Set_keeps_key (env : Env) (k v : string) (req : Request) (k0 : string) :
  In k0 (header_keys req) -> In k0 (header_keys (Header_Set env k v req)).
Proof.
  unfold header_keys. intros Hin.
  destruct (string_dec k0 (canonicalKey env k)) as [-> | Hne].
  - apply in_map_iff. exists (canonicalKey env k, v). split; [reflexivity|].
    apply Header_Set_sets.
  - apply in_map_iff in Hin. destruct Hin as ([k1 v1] & Hk & Hin). cbn in Hk. subst k1.
    apply in_map_iff. exists (k0, v1). split; [reflexivity|].
    apply Header_Set_keeps; assumption.
Qed.

Lemma custom_headers_inv (env : Env) (P : Request -> Prop) :
  (forall k v r, P r -> P (Header_Set env k v r)) ->
  forall headers r, P r -> P (custom_headers env headers r).
Proof.
  intros Hstep. unfold custom_headers.
  induction headers as [|kv hs IH]; intros r Hr; cbn; [exact Hr|].
  apply IH. apply Hstep. exact Hr.
Qed.

Lemma custom_headers_keeps (env : Env) (headers : list (string * string))
    (k0 v0 : string) :
  (forall kv, In kv headers -> canonicalKey env (fst kv) <> k0) ->
  forall r, In (k0, v0) (Header r) ->
            In (k0, v0) (Header (custom_headers env headers r)).
Proof.
  unfold custom_headers.
  induction headers as [|kv hs IH]; intros Hno r Hr; cbn; [exact Hr|].
  apply IH.
  - intros kv' Hin. apply Hno. right. exact Hin.
  - apply Header_Set_keeps; [exact Hr|].
    intros Heq. apply (Hno kv); [left; reflexivity | symmetry; exact Heq].
Qed.

Lemma DoRequest_requests (env : Env) (fuel : nat) (c : Client)
    (method endpoint : string) (body : option handle)
    (headers : list (string * string)) (w : World) :
  Forall (fun r => sr_request r = build_request env c method endpoint body headers w)
    (attempts_of w (fst (DoRequest env fuel c method endpoint body headers w))).
Proof.
  unfold attempts_of.
  destruct (DoRequest_shape env fuel c method endpoint body headers w)
    as (w1 & _ & Hs & _ & _ & [[e ->] | ->]).
  - cbn [fst]. rewrite Hs, skipn_all. constructor.
  - destruct (retry_loop_requests env c
                (build_request env c method endpoint body headers w)
                fuel (maxRetries_of c) 0 None w1) as (log & Hl & Hf).
    rewrite Hl, Hs, skipn_app, skipn_all, Nat.sub_diag. exact Hf.
Qed.

(** The request of every physical attempt has one entry per header key
    and carries a User-Agent and a Content-Type entry, and an Access-Token
    entry when a token is configured, whatever headers the caller adds.
    The token sent is the configured one unless a caller header has the
    same canonical key. *)
Theorem attempts_carry_standard_headers (env : Env) (fuel : nat) (c : Client)
    (method endpoint : string) (body : option handle)
    (headers : list (string * string)) (w : World) (rec : SendRecord) :
  In rec (attempts_of w (fst (DoRequest env fuel c method endpoint body headers w))) ->
  NoDup (header_keys (sr_request rec))
  /\ In (canonicalKey env "User-Agent") (header_keys (sr_request rec))
  /\ In (canonicalKey env "Content-Type") (header_keys (sr_request rec))
  /\ (AccessToken (config c) <> "" ->
      In (canonicalKey env "Access-Token") (header_keys (sr_request rec))
      /\ (canonicalKey env "Content-Type" <> canonicalKey env "Access-Token" ->
          (forall kv, In kv headers ->
                      canonicalKey env (fst kv) <> canonicalKey env "Access-Token") ->
          In (canonicalKey env "Access-Token", AccessToken (config c))
            (Header (sr_request rec)))).
Proof.
  intros Hin.
  pose proof (DoRequest_requests env fuel c method endpoint body headers w) as Hall.
  rewrite Forall_forall in Hall. rewrite (Hall rec Hin). clear Hall Hin.
  unfold build_request.
  set (r0 := mkRequest method (url_Resolve env (baseURL c) endpoint) [] body _ _).
  assert (Hkey : forall k v r, In (canonicalKey env k) (header_keys (Header_Set env k v r))).
  { intros k v r. unfold header_keys. apply in_map_iff.
    exists (canonicalKey env k, v). split; [reflexivity | apply Header_Set_sets]. }
  split; [|split; [|split]].
  - apply (custom_headers_inv env (fun r => NoDup (header_keys r))).
    + intros k v r. apply Header_Set_NoDup.
    + unfold default_headers.
      destruct (AccessToken (config c) =? "")%string;
        repeat apply Header_Set_NoDup; constructor.
  - apply (custom_headers_inv env
             (fun r => In (canonicalKey env "User-Agent") (header_keys r))).
    + intros k v r. apply Header_Set_keeps_key.
    + unfold default_headers.
      destruct (AccessToken (config c) =? "")%string.
      * apply Header_Set_keeps_key. apply Hkey.
      * do 2 apply Header_Set_keeps_key. apply Hkey.
  - apply (custom_headers_inv env
             (fun r => In (canonicalKey env "Content-Type") (header_keys r))).
    + intros k v r. apply Header_Set_keeps_key.
    + unfold default_headers. apply Hkey.
  - intros Htok. apply String.eqb_neq in Htok. split.
    + apply (custom_headers_inv env
               (fun r => In (canonicalKey env "Access-Token") (header_keys r))).
      * intros k v r. apply Header_Set_keeps_key.
      * unfold default_headers. rewrite Htok.
        apply Header_Set_keeps_key. apply Hkey.
    + intros Hct Hno. apply custom_headers_keeps; [exact Hno|].
      unfold default_headers. rewrite Htok.
      apply Header_Set_keeps; [apply Header_Set_sets|].
      intros Heq. apply Hct. symmetry. exact Heq.
Qed.

Lemma attempts_carry_standard_headers_witness :
  let rec :=
    mkSendRecord
      (build_request Fixtures.env_refused (Fixtures.client_of None None)
         "GET" "/x" None [("X-Trace", "1")] Fixtures.world0)
      None in
  NoDup (header_keys (sr_request rec))
  /\ In "User-Agent" (header_keys (sr_request rec))
  /\ In "Content-Type" (header_keys (sr_request rec))
  /\ ("test_token" <> "" ->
      In "Access-Token" (header_keys (sr_request rec))
      /\ ("Content-Type" <> "Access-Token" ->
          (forall kv, In kv [("X-Trace", "1")] -> fst kv <> "Access-Token") ->
          In ("Access-Token", "test_token") (Header (sr_request rec)))).
Proof.
  apply (attempts_carry_standard_headers Fixtures.env_refused 5
           (Fixtures.client_of None None) "GET" "/x" None [("X-Trace", "1")]
           Fixtures.world0).
  cbn. left. reflexivity.
Defined.

(** ** More on the response parser *)

(** [ParseResponse] returns nil exactly when the body was read, the status
    is below 400 and the body decoded into the target; unless the status is
    below 400 and the body was read, the caller's target is not touched. *)
Theorem ParseResponse_success_iff {T : Type} (env : Env)
    (unmarshal : string -> T -> T * option error)
    (resp : Response) (v : T) (w : World) :
  (snd (snd (ParseResponse env unmarshal resp v w)) = None
   <-> exists body,
       read_all env (Body resp) = Ok body
       /\ StatusCode resp < 400
       /\ snd (unmarshal body v) = None)
  /\ ((400 <= StatusCode resp \/ exists err, read_all env (Body resp) = Fail err) ->
      fst (snd (ParseResponse env unmarshal resp v w)) = v).
Proof.
  unfold ParseResponse, defer_Close.
  destruct (read_all env (Body resp)) as [body|rerr] eqn:Er.
  - destruct (StatusCode resp >=? 400) eqn:Es.
    + apply Z.geb_le in Es.
      assert (Hne : snd (snd (let '(apiErr, err) :=
                                unmarshal_APIError env body Models.zeroAPIError in
                              match err with
                              | None =>
                                  if negb (Models.Code apiErr =? "")%string
                                  then (w, (v, Some (ErrAPI apiErr)))
                                  else (w, (v, Some (generic_http_error resp body)))
                              | Some _ => (w, (v, Some (generic_http_error resp body)))
                              end)) <> None
                    /\ fst (snd (let '(apiErr, err) :=
                                   unmarshal_APIError env body Models.zeroAPIError in
                                 match err with
                                 | None =>
                                     if negb (Models.Code apiErr =? "")%string
                                     then (w, (v, Some (ErrAPI apiErr)))
                                     else (w, (v, Some (generic_http_error resp body)))
                                 | Some _ => (w, (v, Some (generic_http_error resp body)))
                                 end)) = v).
      { destruct (unmarshal_APIError env body Models.zeroAPIError) as [a [e|]].
        - split; [discriminate | reflexivity].
        - destruct (negb (Models.Code a =? "")%string);
            (split; [discriminate | reflexivity]). }
      unfold generic_http_error in Hne.
      destruct (unmarshal_APIError env body Models.zeroAPIError) as [a [e|]].
      * cbn. split; [|reflexivity]. split; [discriminate|].
        intros (b & [= <-] & Hlt & _). lia.
      * destruct (negb (Models.Code a =? "")%string); cbn;
          (split; [|reflexivity]); (split; [discriminate|]);
          intros (b & [= <-] & Hlt & _); lia.
    + assert (Hlt : StatusCode resp < 400).
      { destruct (Z.lt_ge_cases (StatusCode resp) 400) as [H | H]; [exact H|].
        apply Z.geb_le in H. congruence. }
      destruct (unmarshal body v) as [v' [e|]] eqn:Eu; cbn.
      * split.
        -- split; [discriminate|]. intros (b & [= <-] & _ & Hn).
           rewrite Eu in Hn. discriminate.
        -- intros [H | [err H]]; [lia | discriminate].
      * split.
        -- split; [|reflexivity]. intros _. exists body.
           rewrite Eu. auto.
        -- intros [H | [err H]]; [lia | discriminate].
  - cbn. split; [|reflexivity]. split; [discriminate|].
    intros (b & H & _). discriminate.
Qed.

Lemma ParseResponse_success_iff_witness :
  fst (snd (ParseResponse Fixtures.env_refused
              (fun (_ : string) (t : nat) => (S t, None))
              (Fixtures.resp 404 "404 Not Found" 3%nat) 7%nat Fixtures.world0)) = 7%nat.
Proof.
  apply (proj2 (ParseResponse_success_iff Fixtures.env_refused
                  (fun (_ : string) (t : nat) => (S t, None))
                  (Fixtures.resp 404 "404 Not Found" 3%nat) 7%nat Fixtures.world0)).
  left. cbn. lia.
Defined.

(** An API error returned by [ParseResponse] never carries the status of
    the response: the decoder cannot write the field tagged [json:"-"] and
    the parser does not fill it in, so it stays 0 and the error is
    classified by its code alone (a 429 or 401 response with another code
    is neither a rate-limit nor an authentication failure). *)
Theorem ParseResponse_api_error_has_no_status {T : Type} (env : Env)
    (unmarshal : string -> T -> T * option error)
    (resp : Response) (v : T) (w : World) (a : Models.APIError) :
  (forall body a0,
      Models.HTTPStatusCode (fst (unmarshal_APIError env body a0))
      = Models.HTTPStatusCode a0) ->
  snd (snd (ParseResponse env unmarshal resp v w)) = Some (ErrAPI a) ->
  Models.HTTPStatusCode a = 0
  /\ Models.IsRateLimitError a = (Models.Code a =? "RATE_LIMIT_EXCEEDED")%string
  /\ Models.IsAuthenticationError a
     = Models.string_case (Models.Code a)
         ["UNAUTHORIZED"; "FORBIDDEN"; "INVALID_ACCESS_TOKEN";
          "ACCESS_TOKEN_EXPIRED"; "INSUFFICIENT_PERMISSIONS"]
  /\ Models.IsRetryable a
     = Models.string_case (Models.Code a)
         ["RATE_LIMIT_EXCEEDED"; "INTERNAL_ERROR"; "SERVICE_UNAVAILABLE"; "TIMEOUT"].
Proof.
  intros Htag H.
  assert (Hz : Models.HTTPStatusCode a = 0).
  { unfold ParseResponse, defer_Close in H.
    destruct (read_all env (Body resp)) as [body|rerr]; [|discriminate].
    destruct (StatusCode resp >=? 400).
    - pose proof (Htag body Models.zeroAPIError) as Hs.
      destruct (unmarshal_APIError env body Models.zeroAPIError) as [a0 [e|]];
        [discriminate|].
      destruct (negb (Models.Code a0 =? "")%string); [|discriminate].
      cbn in H. injection H as <-. exact Hs.
    - destruct (unmarshal body v) as [v' [e|]]; discriminate. }
  split; [exact Hz|].
  assert (Hc : Models.Z_case (Models.HTTPStatusCode a) classified_statuses = false)
    by (rewrite Hz; reflexivity).
  destruct (class_by_code a Hc) as (Hr & Ha & _).
  split; [|split; assumption].
  unfold Models.IsRateLimitError. rewrite Hz. reflexivity.
Qed.

Lemma ParseResponse_api_error_has_no_status_witness :
  Models.HTTPStatusCode (Models.mkAPIError "QUOTA" "quota" "r9" None 0) = 0
  /\ Models.IsRateLimitError (Models.mkAPIError "QUOTA" "quota" "r9" None 0)
     = ("QUOTA" =? "RATE_LIMIT_EXCEEDED")%string
  /\ Models.IsAuthenticationError (Models.mkAPIError "QUOTA" "quota" "r9" None 0)
     = Models.string_case "QUOTA"
         ["UNAUTHORIZED"; "FORBIDDEN"; "INVALID_ACCESS_TOKEN";
          "ACCESS_TOKEN_EXPIRED"; "INSUFFICIENT_PERMISSIONS"]
  /\ Models.IsRetryable (Models.mkAPIError "QUOTA" "quota" "r9" None 0)
     = Models.string_case "QUOTA"
         ["RATE_LIMIT_EXCEEDED"; "INTERNAL_ERROR"; "SERVICE_UNAVAILABLE"; "TIMEOUT"].
Proof.
  apply (ParseResponse_api_error_has_no_status Fixtures2.env_api_error
           (fun (_ : string) (t : nat) => (t, None))
           (Fixtures.resp 429 "429 Too Many Requests" 3%nat) 0%nat Fixtures.world0
           (Models.mkAPIError "QUOTA" "quota" "r9" None 0)).
  - intros body a0. reflexivity.
  - reflexivity.
Defined.

(** ** The callers in business_center.go *)

Lemma ParseResponse_world {T : Type} (env : Env)
    (unmarshal : string -> T -> T * option error)
    (resp : Response) (v : T) (w : World) :
  fst (ParseResponse env unmarshal resp v w) = Body_Close (Body resp) w.
Proof.
  unfold ParseResponse, defer_Close.
  destruct (read_all env (Body resp)) as [body|err]; [|reflexivity].
  destruct (StatusCode resp >=? 400).
  - destruct (unmarshal_APIError env body Models.zeroAPIError) as [a [e|]];
      [reflexivity|].
    destruct (negb (Models.Code a =? "")%string); reflexivity.
  - destruct (unmarshal body v) as [v' [e|]]; reflexivity.
Qed.

(** What a caller of the shape "DoRequest, then ParseResponse on success"
    leaves in the close log. *)
Lemma call_then_parse_closed {T : Type} (env : Env)
    (unmarshal : string -> T -> T * option error) (zero : T)
    (fuel : nat) (c : Client) (method url : string) (body : option handle)
    (w0 w : World) (out : World) :
  sent w0 = sent w -> closed w0 = closed w ->
  out = match DoRequest env fuel c method url body [] w0 with
        | (w1, Some (Ok resp)) => fst (ParseResponse env unmarshal resp zero w1)
        | (w1, _) => w1
        end ->
  closed out
  = (closed w ++ received env (List.length (sent w)) (physical_attempts w out))%list
  /\ sent out = sent (fst (DoRequest env fuel c method url body [] w0)).
Proof.
  intros Hs Hc ->.
  pose proof (DoRequest_closed_received env fuel c method url body [] w0) as H.
  unfold physical_attempts in *. rewrite Hs, Hc in H.
  destruct (DoRequest env fuel c method url body [] w0) as [w1 [[resp|e]|]];
    cbn [fst snd handed_over] in *.
  - rewrite ParseResponse_world. cbn [Body_Close closed sent].
    split; [exact H | reflexivity].
  - rewrite app_nil_r in H. split; [exact H | reflexivity].
  - rewrite app_nil_r in H. split; [exact H | reflexivity].
Qed.

(** [Get] and [Create] leave no response body open: when either returns,
    every body the transport produced during the call has been closed
    exactly as often as it was received, the retried ones by [DoRequest]
    and the last one by [ParseResponse]. *)
Theorem service_calls_close_every_body {T : Type} (lib : BusinessCenter.Lib T)
    (env : Env) (fuel : nat) (c : Client) (w : World) :
  (forall req,
      closed (fst (BusinessCenter.Get lib env fuel c req w))
      = (closed w
         ++ received env (List.length (sent w))
              (physical_attempts w (fst (BusinessCenter.Get lib env fuel c req w))))%list)
  /\ (forall h req,
         closed (fst (BusinessCenter.Create lib env fuel c h req w))
         = (closed w
            ++ received env (List.length (sent w))
                 (physical_attempts w
                    (fst (BusinessCenter.Create lib env fuel c h req w))))%list).
Proof.
  split.
  - intros req.
    apply (call_then_parse_closed env (BusinessCenter.unmarshal lib)
             (BusinessCenter.zero lib) fuel c "GET"
             (BusinessCenter.BuildURL lib c "/bc/get/" (BusinessCenter.get_params req))
             None w w); try reflexivity.
    unfold BusinessCenter.Get.
    destruct (DoRequest env fuel c "GET" _ None [] w) as [w1 [[resp|e]|]];
      try reflexivity.
    destruct (ParseResponse env (BusinessCenter.unmarshal lib) resp
                (BusinessCenter.zero lib) w1) as [w2 [v [e|]]]; reflexivity.
  - intros h req. unfold BusinessCenter.Create.
    assert (Hidle : closed w
                    = (closed w ++ received env (List.length (sent w))
                                     (physical_attempts w w))%list).
    { unfold physical_attempts. rewrite Nat.sub_diag. cbn. rewrite app_nil_r.
      reflexivity. }
    destruct (BusinessCenter.create_check req) as [err|]; [exact Hidle|].
    destruct req as [r|]; [|exact Hidle].
    destruct (BusinessCenter.Marshal lib r) as [body|merr]; [|exact Hidle].
    apply (call_then_parse_closed env (BusinessCenter.unmarshal lib)
             (BusinessCenter.zero lib) fuel c "POST"
             (BusinessCenter.BuildURL lib c "/bc/create/" [])
             (Some h) (BusinessCenter.NewReader h body w) w); try reflexivity.
    destruct (DoRequest env fuel c "POST" _ (Some h) []
                (BusinessCenter.NewReader h body w)) as [w1 [[resp|e]|]];
      try reflexivity.
    destruct (ParseResponse env (BusinessCenter.unmarshal lib) resp
                (BusinessCenter.zero lib) w1) as [w2 [v [e|]]]; reflexivity.
Qed.

(** A request [Create] rejects (nil, or without a name, company name,
    contact email or contact name) never reaches the limiter or the
    network: the world is as before and the error is a plain one. *)
Theorem Create_rejects_before_network {T : Type} (lib : BusinessCenter.Lib T)
    (env : Env) (fuel : nat) (c : Client) (h : handle)
    (req : option BusinessCenter.BCCreateRequest) (w : World) :
  (req = None
   \/ exists r, req = Some r
                /\ (BusinessCenter.BCName r = ""
                    \/ BusinessCenter.CompanyName r = ""
                    \/ BusinessCenter.Email (BusinessCenter.Contact r) = ""
                    \/ BusinessCenter.Name (BusinessCenter.Contact r) = "")) ->
  fst (BusinessCenter.Create lib env fuel c h req w) = w
  /\ exists msg,
      snd (BusinessCenter.Create lib env fuel c h req w) = Some (Fail (ErrNew msg)).
Proof.
  intros H. unfold BusinessCenter.Create.
  assert (Hc : exists msg, BusinessCenter.create_check req = Some (ErrNew msg)).
  { destruct H as [-> | (r & -> & Hr)]; [cbn; eauto|].
    unfold BusinessCenter.create_check.
    destruct (BusinessCenter.BCName r =? "")%string eqn:E1; [eauto|].
    destruct (BusinessCenter.CompanyName r =? "")%string eqn:E2; [eauto|].
    destruct (BusinessCenter.Email (BusinessCenter.Contact r) =? "")%string eqn:E3;
      [eauto|].
    destruct (BusinessCenter.Name (BusinessCenter.Contact r) =? "")%string eqn:E4;
      [eauto|].
    apply String.eqb_neq in E1, E2, E3, E4. exfalso. tauto. }
  destruct Hc as [msg ->]. split; [reflexivity | exists msg; reflexivity].
Qed.

Lemma Create_rejects_before_network_witness :
  fst (BusinessCenter.Create BusinessCenter.lib0 Fixtures.env_refused 5
         (Fixtures.client_of None Fixtures.limited) 1%nat
         (Some (BusinessCenter.mkBCCreateRequest "bc" ""
                  (BusinessCenter.mkContactInfo "a@b.c" "n" "") ""))
         Fixtures.world0) = Fixtures.world0
  /\ exists msg,
      snd (BusinessCenter.Create BusinessCenter.lib0 Fixtures.env_refused 5
             (Fixtures.client_of None Fixtures.limited) 1%nat
             (Some (BusinessCenter.mkBCCreateRequest "bc" ""
                      (BusinessCenter.mkContactInfo "a@b.c" "n" "") ""))
             Fixtures.world0) = Some (Fail (ErrNew msg)).
Proof.
  apply (Create_rejects_before_network BusinessCenter.lib0 Fixtures.env_refused 5
           (Fixtures.client_of None Fixtures.limited) 1%nat
           (Some (BusinessCenter.mkBCCreateRequest "bc" ""
                    (BusinessCenter.mkContactInfo "a@b.c" "n" "") ""))
           Fixtures.world0).
  right. eexists. split; [reflexivity|]. right; left. reflexivity.
Defined.

(** An API error comes out of [Get] bare, and only when the last attempt
    received a response with a status of 400 or more whose body decodes
    as that error; an error of the executor comes out wrapped. *)
Theorem Get_api_error_origin {T : Type} (lib : BusinessCenter.Lib T)
    (env : Env) (fuel : nat) (c : Client)
    (req : option BusinessCenter.BCGetRequest) (w : World) (a : Models.APIError) :
  snd (BusinessCenter.Get lib env fuel c req w) = Some (Fail (ErrAPI a)) ->
  exists resp body,
    snd (DoRequest env fuel c "GET"
           (BusinessCenter.BuildURL lib c "/bc/get/" (BusinessCenter.get_params req))
           None [] w) = Some (Ok resp)
    /\ 400 <= StatusCode resp
    /\ read_all env (Body resp) = Ok body
    /\ decodes_as_api_error env body a.
Proof.
  unfold BusinessCenter.Get. intros H.
  destruct (DoRequest env fuel c "GET" _ None [] w) as [w1 [[resp|e]|]];
    [|discriminate|discriminate].
  exists resp. unfold ParseResponse, defer_Close in H.
  destruct (read_all env (Body resp)) as [body|rerr]; [|discriminate].
  exists body. unfold decodes_as_api_error.
  destruct (StatusCode resp >=? 400) eqn:Es.
  - apply Z.geb_le in Es.
    destruct (unmarshal_APIError env body Models.zeroAPIError) as [a0 [e|]];
      [discriminate|].
    destruct (Models.Code a0 =? "")%string eqn:Ec; cbn in H; [discriminate|].
    injection H as <-. apply String.eqb_neq in Ec.
    repeat split; try reflexivity; assumption.
  - destruct (BusinessCenter.unmarshal lib body (BusinessCenter.zero lib))
      as [v' [e|]]; cbn in H; [|discriminate].
    discriminate.
Qed.

Lemma Get_api_error_origin_witness :
  exists resp body,
    snd (DoRequest Fixtures3.env_404_quota 5 (Fixtures.client_of None None) "GET"
           (BusinessCenter.BuildURL BusinessCenter.lib0 (Fixtures.client_of None None)
              "/bc/get/" (BusinessCenter.get_params None))
           None [] Fixtures.world0) = Some (Ok resp)
    /\ 400 <= StatusCode resp
    /\ read_all Fixtures3.env_404_quota (Body resp) = Ok body
    /\ decodes_as_api_error Fixtures3.env_404_quota body
         (Models.mkAPIError "QUOTA" "quota" "r9" None 0).
Proof.
  apply (Get_api_error_origin BusinessCenter.lib0 Fixtures3.env_404_quota 5
           (Fixtures.client_of None None) None Fixtures.world0
           (Models.mkAPIError "QUOTA" "quota" "r9" None 0)).
  reflexivity.
Defined.

(** ** Pagination helpers (pagination.go) *)

Lemma total_pages_div (totalCount pageSize : Z) :
  0 <= totalCount -> 0 < pageSize -> totalCount + pageSize <= GoInt.int_max ->
  Pagination.CalculateTotalPages totalCount pageSize
  = (totalCount + pageSize - 1) / pageSize.
Proof.
  intros Ht Hs Hmax. unfold Pagination.CalculateTotalPages.
  assert (E : (pageSize <=? 0) = false) by (apply Z.leb_gt; lia). rewrite E.
  unfold GoInt.int_max in Hmax.
  unfold Pagination.int_quot, Pagination.int_sub, GoInt.add.
  rewrite (wrap64_id (totalCount + pageSize))
    by (unfold GoInt.in_range, GoInt.int_min, GoInt.int_max; lia).
  rewrite (wrap64_id (totalCount + pageSize - 1))
    by (unfold GoInt.in_range, GoInt.int_min, GoInt.int_max; lia).
  rewrite Z.quot_div_nonneg by lia.
  apply wrap64_id. unfold GoInt.in_range, GoInt.int_min, GoInt.int_max.
  pose proof (Z.div_pos (totalCount + pageSize - 1) pageSize ltac:(lia) ltac:(lia)).
  pose proof (Z.div_le_upper_bound (totalCount + pageSize - 1) pageSize
                (totalCount + pageSize - 1) ltac:(lia) ltac:(nia)).
  lia.
Qed.

Lemma total_pages_bounds (totalCount pageSize : Z) :
  0 <= totalCount -> 0 < pageSize -> totalCount + pageSize <= GoInt.int_max ->
  (Pagination.CalculateTotalPages totalCount pageSize - 1) * pageSize < totalCount
  /\ totalCount <= Pagination.CalculateTotalPages totalCount pageSize * pageSize.
Proof.
  intros Ht Hs Hmax. rewrite total_pages_div by assumption.
  pose proof (Z.div_mod (totalCount + pageSize - 1) pageSize ltac:(lia)) as Hdm.
  pose proof (Z.mod_pos_bound (totalCount + pageSize - 1) pageSize Hs) as Hmod.
  nia.
Qed.

(** [CalculateTotalPages] is the ceiling of totalCount / pageSize: the
    pages cover all items and the last page is not empty; with a page size
    of zero or less it is 0. *)
Theorem CalculateTotalPages_is_ceiling (totalCount pageSize : Z) :
  (pageSize <= 0 -> Pagination.CalculateTotalPages totalCount pageSize = 0)
  /\ (0 <= totalCount -> 0 < pageSize -> totalCount + pageSize <= GoInt.int_max ->
      0 <= Pagination.CalculateTotalPages totalCount pageSize
      /\ (Pagination.CalculateTotalPages totalCount pageSize - 1) * pageSize < totalCount
      /\ totalCount <= Pagination.CalculateTotalPages totalCount pageSize * pageSize).
Proof.
  split.
  - intros Hs. unfold Pagination.CalculateTotalPages.
    assert (E : (pageSize <=? 0) = true) by (apply Z.leb_le; lia).
    rewrite E. reflexivity.
  - intros Ht Hs Hmax.
    destruct (total_pages_bounds totalCount pageSize Ht Hs Hmax) as [H1 H2].
    split; [nia | split; assumption].
Qed.

Lemma CalculateTotalPages_is_ceiling_witness :
  (0 <= 0 -> Pagination.CalculateTotalPages 101 0 = 0)
  /\ (0 <= Pagination.CalculateTotalPages 101 50
      /\ (Pagination.CalculateTotalPages 101 50 - 1) * 50 < 101
      /\ 101 <= Pagination.CalculateTotalPages 101 50 * 50).
Proof.
  split.
  - apply (proj1 (CalculateTotalPages_is_ceiling 101 0)).
  - apply (proj2 (CalculateTotalPages_is_ceiling 101 50)).
    + lia.
    + lia.
    + unfold GoInt.int_max. lia.
Defined.

(** For a positive page size, a total count that is not negative and a
    sum of the two that fits an int, the record [CreatePaginationInfo]
    builds says that more pages follow exactly when the pages up to and
    including [page] do not hold all items.  For a page size of zero or
    less the record has no pages at all, and says that more follow exactly
    when [page] is negative, whatever the count. *)
Theorem CreatePaginationInfo_HasMore (page pageSize totalCount : Z) :
  (0 <= totalCount -> 0 < pageSize -> totalCount + pageSize <= GoInt.int_max ->
   (Pagination.HasMore (Pagination.CreatePaginationInfo page pageSize totalCount) = true
    <-> page * pageSize < totalCount))
  /\ (pageSize <= 0 ->
      Pagination.TotalPage (Pagination.CreatePaginationInfo page pageSize totalCount) = 0
      /\ (Pagination.HasMore (Pagination.CreatePaginationInfo page pageSize totalCount) = true
          <-> page < 0)).
Proof.
  split.
  - intros Ht Hs Hmax. unfold Pagination.CreatePaginationInfo. cbn [Pagination.HasMore].
    destruct (total_pages_bounds totalCount pageSize Ht Hs Hmax) as [H1 H2].
    rewrite Z.ltb_lt. split; intros H; nia.
  - intros Hs. unfold Pagination.CreatePaginationInfo, Pagination.CalculateTotalPages.
    cbn [Pagination.HasMore Pagination.TotalPage].
    assert (E : (pageSize <=? 0) = true) by (apply Z.leb_le; exact Hs).
    rewrite E. split; [reflexivity | apply Z.ltb_lt].
Qed.

Lemma CreatePaginationInfo_HasMore_witness :
  (Pagination.HasMore (Pagination.CreatePaginationInfo 2 50 101) = true
   <-> 2 * 50 < 101)
  /\ Pagination.HasMore (Pagination.CreatePaginationInfo 1 0 101) = false.
Proof.
  split.
  - apply (proj1 (CreatePaginationInfo_HasMore 2 50 101)); unfold GoInt.int_max; lia.
  - destruct (proj2 (CreatePaginationInfo_HasMore 1 0 101)) as [_ [H _]]; [lia |].
    destruct (Pagination.HasMore (Pagination.CreatePaginationInfo 1 0 101));
      [specialize (H eq_refl); lia | reflexivity].
Defined.

(** [CalculateOffset] treats a page number of zero or less as page 1, and
    the offset of every page that exists lies inside the data. *)
Theorem CalculateOffset_inside (page pageSize totalCount : Z) :
  (page <= 0 -> Pagination.CalculateOffset page pageSize = 0)
  /\ (0 <= totalCount -> 0 < pageSize -> totalCount + pageSize <= GoInt.int_max ->
      1 <= page <= Pagination.CalculateTotalPages totalCount pageSize ->
      Pagination.CalculateOffset page pageSize = (page - 1) * pageSize
      /\ 0 <= Pagination.CalculateOffset page pageSize < totalCount).
Proof.
  unfold Pagination.CalculateOffset. split.
  - intros Hp. assert (E : (page <=? 0) = true) by (apply Z.leb_le; lia).
    rewrite E. reflexivity.
  - intros Ht Hs Hmax Hp.
    destruct (total_pages_bounds totalCount pageSize Ht Hs Hmax) as [H1 H2].
    assert (E : (page <=? 0) = false) by (apply Z.leb_gt; lia). rewrite E.
    unfold GoInt.int_max in Hmax.
    assert (Hoff : 0 <= (page - 1) * pageSize < totalCount) by nia.
    assert (Hpage : page <= totalCount).
    { destruct (Z.le_gt_cases page totalCount) as [H | H]; [exact H | nia]. }
    unfold Pagination.int_sub, GoInt.mul.
    rewrite (wrap64_id (page - 1))
      by (unfold GoInt.in_range, GoInt.int_min, GoInt.int_max; lia).
    rewrite wrap64_id
      by (unfold GoInt.in_range, GoInt.int_min, GoInt.int_max; lia).
    split; [reflexivity | exact Hoff].
Qed.

Lemma CalculateOffset_inside_witness :
  (-4 <= 0 -> Pagination.CalculateOffset (-4) 50 = 0)
  /\ (Pagination.CalculateOffset 3 50 = (3 - 1) * 50
      /\ 0 <= Pagination.CalculateOffset 3 50 < 101).
Proof.
  split.
  - apply (proj1 (CalculateOffset_inside (-4) 50 101)).
  - apply (proj2 (CalculateOffset_inside 3 50 101)).
    + lia.
    + lia.
    + unfold GoInt.int_max. lia.
    + cbn. lia.
Defined.

(** ** The pagination iterator *)

Section Iterator.

Context {T : Type}.
Variable fetch : Pagination.Fetch T.
Variable opts : Pagination.PaginationOptions.

Lemma gathered_S (datas : nat -> list T) (k : nat) :
  gathered datas (S k) = (datas 0%nat ++ gathered (fun i => datas (S i)) k)%list.
Proof.
  unfold gathered. cbn [seq map concat]. rewrite <- seq_shift, map_map. reflexivity.
Qed.

Lemma page_calls_S (page : Z) (k : nat) :
  page_calls opts page (S k)
  = (page, Pagination.OptPageSize opts) :: page_calls opts (page + 1) k.
Proof.
  unfold page_calls. cbn [seq map]. rewrite Z.add_0_r.
  rewrite <- seq_shift, map_map. f_equal.
  apply map_ext. intros i. f_equal. lia.
Qed.

Lemma page_calls_length (page : Z) (k : nat) :
  List.length (page_calls opts page k) = k.
Proof. unfold page_calls. rewrite length_map, length_seq. reflexivity. Qed.

Lemma AllPages_loop_S (fuel : nat) (p : Pagination.PaginationIterator T)
    (acc : list T) :
  Pagination.AllPages_loop fetch (S fuel) p acc
  = if Pagination.HasNext p then
      match Pagination.Next fetch p with
      | (p', Fail err) => (p', Some (acc, Some err))
      | (p', Ok result) =>
          if Z.of_nat (List.length (acc ++ Pagination.Data result)%list) >? 100000 then
            (p', Some ((acc ++ Pagination.Data result)%list,
                       Some (ErrNew "too many results, stopping at 100,000 items")))
          else Pagination.AllPages_loop fetch fuel p' (acc ++ Pagination.Data result)%list
      end
    else (p, Some (acc, None)).
Proof. reflexivity. Qed.

(** [k] pages fetched in a row, each saying that more follow. *)
Lemma AllPages_loop_pages :
  forall (k : nat) (datas : nat -> list T) (fuel : nat) (page : Z) (acc : list T)
         (last : option (Pagination.PaginatedResult T)) (calls : list (Z * Z)),
    1 <= page -> page + Z.of_nat k <= GoInt.int_max ->
    Pagination.MaxPages opts <= 0 \/ page + Z.of_nat k - 1 <= Pagination.MaxPages opts ->
    (forall i, (i < k)%nat ->
               exists res,
                 fetch (List.length calls + i)%nat (page + Z.of_nat i)
                   (Pagination.OptPageSize opts) = Ok res
                 /\ Pagination.Data res = datas i
                 /\ Pagination.HasMore (Pagination.PageInfo res) = true) ->
    Z.of_nat (List.length (acc ++ gathered datas k)%list) <= 100000 ->
    exists last',
      Pagination.AllPages_loop fetch (k + fuel)
        (Pagination.mkPaginationIterator opts page true last calls) acc
      = Pagination.AllPages_loop fetch fuel
          (Pagination.mkPaginationIterator opts (page + Z.of_nat k) true last'
             (calls ++ page_calls opts page k)%list)
          (acc ++ gathered datas k)%list.
Proof.
  induction k as [|k IH]; intros datas fuel page acc last calls Hp Hmax Hlim Hf Hlen.
  - exists last. cbn [Nat.add]. unfold page_calls, gathered. cbn.
    rewrite !app_nil_r, Z.add_0_r. reflexivity.
  - destruct (Hf 0%nat ltac:(lia)) as (res & Hres & Hd & Hm).
    rewrite Nat.add_0_r, Z.add_0_r in Hres.
    rewrite gathered_S in Hlen. rewrite app_assoc in Hlen.
    assert (Hlen1 : Z.of_nat (List.length (acc ++ datas 0%nat)%list) <= 100000).
    { rewrite length_app in Hlen. lia. }
    cbn [Nat.add Pagination.AllPages_loop].
    unfold Pagination.HasNext, Pagination.Next.
    cbn [Pagination.hasMore Pagination.options Pagination.currentPage
         Pagination.fetched Pagination.lastResult negb].
    assert (Elim : (Pagination.MaxPages opts >? 0) && (page >? Pagination.MaxPages opts)
                   = false).
    { apply andb_false_iff. destruct Hlim as [H | H].
      - left. rewrite Z.gtb_ltb. apply Z.ltb_ge. lia.
      - right. rewrite Z.gtb_ltb. apply Z.ltb_ge. lia. }
    rewrite Elim, Hres, Hd, Hm.
    assert (Ebig : (Z.of_nat (List.length (acc ++ datas 0%nat)%list) >? 100000) = false).
    { rewrite Z.gtb_ltb. apply Z.ltb_ge. lia. }
    rewrite Ebig.
    rewrite add_one by (unfold GoInt.int_max in *; lia).
    destruct (IH (fun i => datas (S i)) fuel (page + 1) (acc ++ datas 0%nat)%list
                (Some res) (calls ++ [(page, Pagination.OptPageSize opts)])%list)
      as (last' & Heq).
    + lia.
    + lia.
    + destruct Hlim as [H | H]; [left; exact H | right; lia].
    + intros i Hi. destruct (Hf (S i) ltac:(lia)) as (r & Hr & Hdr & Hmr).
      exists r. rewrite length_app. cbn [List.length].
      replace (List.length calls + 1 + i)%nat with (List.length calls + S i)%nat by lia.
      replace (page + 1 + Z.of_nat i) with (page + Z.of_nat (S i)) by lia.
      auto.
    + exact Hlen.
    + exists last'. rewrite Heq. rewrite gathered_S, page_calls_S.
      rewrite <- !app_assoc. cbn [app].
      replace (page + 1 + Z.of_nat k) with (page + Z.of_nat (S k)) by lia.
      reflexivity.
Qed.

(** The loop never fetches a page beyond [MaxPages]. *)
Lemma AllPages_loop_fetch_bound :
  0 < Pagination.MaxPages opts < GoInt.int_max ->
  forall (fuel : nat) (p : Pagination.PaginationIterator T) (acc : list T),
    Pagination.options p = opts ->
    Z.of_nat (List.length (Pagination.fetched p)) <= Pagination.currentPage p - 1 ->
    Pagination.currentPage p <= Pagination.MaxPages opts + 1 ->
    Z.of_nat (List.length
                (Pagination.fetched (fst (Pagination.AllPages_loop fetch fuel p acc))))
    <= Pagination.MaxPages opts.
Proof.
  intros Hm. induction fuel as [|fuel IH]; intros p acc Ho Hf Hc.
  - cbn. lia.
  - cbn [Pagination.AllPages_loop]. unfold Pagination.HasNext.
    destruct (Pagination.hasMore p) eqn:Eh; [|cbn [fst]; lia].
    unfold Pagination.Next. rewrite Eh, Ho. cbn [negb].
    destruct ((Pagination.MaxPages opts >? 0)
              && (Pagination.currentPage p >? Pagination.MaxPages opts)) eqn:El.
    + cbn [fst Pagination.fetched]. lia.
    + assert (Hq : Pagination.currentPage p <= Pagination.MaxPages opts).
      { apply andb_false_iff in El. rewrite !Z.gtb_ltb in El.
        destruct El as [El | El]; apply Z.ltb_ge in El; lia. }
      destruct (fetch (List.length (Pagination.fetched p)) (Pagination.currentPage p)
                  (Pagination.OptPageSize opts)) as [res|err].
      * destruct (Z.of_nat (List.length (acc ++ Pagination.Data res)%list) >? 100000).
        -- cbn [fst Pagination.fetched]. rewrite length_app. cbn [List.length]. lia.
        -- apply IH.
           ++ reflexivity.
           ++ cbn [Pagination.fetched Pagination.currentPage].
              rewrite length_app. cbn [List.length].
              assert (Hge : 0 <= Z.of_nat (List.length (Pagination.fetched p))) by lia.
              rewrite add_one by (unfold GoInt.int_max in *; lia). lia.
           ++ cbn [Pagination.currentPage].
              assert (Hge : 0 <= Z.of_nat (List.length (Pagination.fetched p))) by lia.
              rewrite add_one by (unfold GoInt.int_max in *; lia). lia.
      * cbn [fst Pagination.fetched]. rewrite length_app. cbn [List.length]. lia.
Qed.

End Iterator.

(** A source of [n + 1] pages, the last of which says that none follows,
    is gathered whole by [AllPages] on a fresh iterator: the result is the
    pages' items in order with a nil error, pages 1 to [n + 1] were asked
    for with the configured page size, and the iterator ends on page
    [n + 1] with nothing more to fetch. *)
Theorem AllPages_collects_every_page {T : Type} (fetch : Pagination.Fetch T)
    (opts : Pagination.PaginationOptions) (n : nat) (datas : nat -> list T)
    (fuel : nat) :
  Pagination.MaxPages opts <= 0 \/ Z.of_nat (S n) <= Pagination.MaxPages opts ->
  Z.of_nat n + 1 < GoInt.int_max ->
  (forall i, (i <= n)%nat ->
             exists res,
               fetch i (1 + Z.of_nat i) (Pagination.OptPageSize opts) = Ok res
               /\ Pagination.Data res = datas i
               /\ Pagination.HasMore (Pagination.PageInfo res) = Nat.ltb i n) ->
  Z.of_nat (List.length (gathered datas (S n))) <= 100000 ->
  (n + 1 < fuel)%nat ->
  snd (Pagination.AllPages fetch fuel (Pagination.NewPaginationIterator (Some opts)))
  = Some (gathered datas (S n), None)
  /\ Pagination.fetched
       (fst (Pagination.AllPages fetch fuel (Pagination.NewPaginationIterator (Some opts))))
     = page_calls opts 1 (S n)
  /\ Pagination.CurrentPage
       (fst (Pagination.AllPages fetch fuel (Pagination.NewPaginationIterator (Some opts))))
     = Z.of_nat (S n)
  /\ Pagination.HasNext
       (fst (Pagination.AllPages fetch fuel (Pagination.NewPaginationIterator (Some opts))))
     = false.
Proof.
  intros Hlim Hmax Hf Hlen Hfuel.
  unfold Pagination.AllPages, Pagination.NewPaginationIterator.
  assert (Hsplit : gathered datas (S n) = (gathered datas n ++ datas n)%list).
  { unfold gathered. rewrite seq_S, map_app, concat_app. cbn [map List.concat Nat.add]. rewrite app_nil_r.
    reflexivity. }
  destruct (AllPages_loop_pages fetch opts n datas (fuel - n) 1 [] None [])
    as (last' & Heq).
  - lia.
  - lia.
  - destruct Hlim as [H | H]; [left; exact H | right; lia].
  - intros i Hi. destruct (Hf i ltac:(lia)) as (res & Hr & Hd & Hm).
    exists res. cbn [List.length Nat.add]. split; [exact Hr|]. split; [exact Hd|].
    rewrite Hm. apply Nat.ltb_lt. exact Hi.
  - cbn [app]. rewrite Hsplit, length_app in Hlen. lia.
  - destruct (Hf n ltac:(lia)) as (res & Hr & Hd & Hm).
    rewrite Nat.ltb_irrefl in Hm.
    assert (Hrun :
              Pagination.AllPages_loop fetch fuel
                (Pagination.mkPaginationIterator opts 1 true None []) []
              = (Pagination.mkPaginationIterator opts (1 + Z.of_nat n + 1) false
                   (Some res)
                   (page_calls opts 1 n ++ [(1 + Z.of_nat n, Pagination.OptPageSize opts)])%list,
                 Some (gathered datas (S n), None))).
    { replace fuel with (n + (fuel - n))%nat by lia.
      rewrite Heq. cbn [app].
      destruct (fuel - n)%nat as [|[|f]] eqn:Ef; [lia | lia |].
      assert (Elim : (Pagination.MaxPages opts >? 0)
                     && (1 + Z.of_nat n >? Pagination.MaxPages opts) = false).
      { apply andb_false_iff. rewrite !Z.gtb_ltb.
        destruct Hlim as [H | H]; [left | right]; apply Z.ltb_ge; lia. }
      assert (Ebig : (Z.of_nat (List.length (gathered datas n ++ datas n)%list) >? 100000)
                     = false).
      { rewrite Z.gtb_ltb. apply Z.ltb_ge. rewrite <- Hsplit. lia. }
      rewrite AllPages_loop_S. unfold Pagination.HasNext at 1, Pagination.Next.
      cbn [Pagination.hasMore Pagination.options Pagination.currentPage
           Pagination.fetched Pagination.lastResult negb].
      rewrite page_calls_length, Elim, Hr, Hd, Hm, Ebig.
      rewrite AllPages_loop_S. unfold Pagination.HasNext at 1.
      cbn [Pagination.hasMore]. rewrite <- Hsplit.
      rewrite add_one by (unfold GoInt.int_max in *; lia). reflexivity. }
    rewrite Hrun. cbn [fst snd].
    split; [reflexivity|]. split; [|split].
    + cbn [Pagination.fetched]. unfold page_calls.
      rewrite seq_S, map_app. cbn [map Nat.add app]. reflexivity.
    + unfold Pagination.CurrentPage. cbn [Pagination.currentPage].
      unfold Pagination.int_sub. rewrite wrap64_id; [lia|].
      unfold GoInt.in_range, GoInt.int_min, GoInt.int_max in *. lia.
    + reflexivity.
Qed.

Lemma AllPages_collects_every_page_witness :
  snd (Pagination.AllPages (PaginationFixtures.fetch_pages [[1; 2]; [3]; [4; 5]]) 5
         (Pagination.NewPaginationIterator
            (Some (Pagination.mkPaginationOptions 2 0))))
  = Some ([1; 2; 3; 4; 5], None)
  /\ Pagination.fetched
       (fst (Pagination.AllPages (PaginationFixtures.fetch_pages [[1; 2]; [3]; [4; 5]]) 5
               (Pagination.NewPaginationIterator
                  (Some (Pagination.mkPaginationOptions 2 0)))))
     = [(1, 2); (2, 2); (3, 2)]
  /\ Pagination.CurrentPage
       (fst (Pagination.AllPages (PaginationFixtures.fetch_pages [[1; 2]; [3]; [4; 5]]) 5
               (Pagination.NewPaginationIterator
                  (Some (Pagination.mkPaginationOptions 2 0)))))
     = 3
  /\ Pagination.HasNext
       (fst (Pagination.AllPages (PaginationFixtures.fetch_pages [[1; 2]; [3]; [4; 5]]) 5
               (Pagination.NewPaginationIterator
                  (Some (Pagination.mkPaginationOptions 2 0)))))
     = false.
Proof.
  apply (AllPages_collects_every_page
           (PaginationFixtures.fetch_pages [[1; 2]; [3]; [4; 5]])
           (Pagination.mkPaginationOptions 2 0) 2
           (fun i => nth i [[1; 2]; [3]; [4; 5]] []) 5).
  - left. cbn. lia.
  - unfold GoInt.int_max. lia.
  - intros i Hi. destruct i as [|[|[|i]]]; [| | |lia];
      (eexists; split; [reflexivity | split; reflexivity]).
  - cbn. lia.
  - lia.
Defined.

(** With a page limit [m] of at least 1, a source whose first [m] fetches
    succeed and each report more to come, and at most 100000 items on those
    [m] pages together, [AllPages] returns the items of the first [m] pages
    together with the error "maximum pages limit reached", after exactly
    [m] fetches. *)
Theorem AllPages_stops_at_MaxPages {T : Type} (fetch : Pagination.Fetch T)
    (opts : Pagination.PaginationOptions) (m : nat) (datas : nat -> list T)
    (fuel : nat) :
  Pagination.MaxPages opts = Z.of_nat m -> (0 < m)%nat ->
  Z.of_nat m + 1 < GoInt.int_max ->
  (forall i, (i < m)%nat ->
             exists res,
               fetch i (1 + Z.of_nat i) (Pagination.OptPageSize opts) = Ok res
               /\ Pagination.Data res = datas i
               /\ Pagination.HasMore (Pagination.PageInfo res) = true) ->
  Z.of_nat (List.length (gathered datas m)) <= 100000 ->
  (m < fuel)%nat ->
  snd (Pagination.AllPages fetch fuel (Pagination.NewPaginationIterator (Some opts)))
  = Some (gathered datas m, Some (ErrNew "maximum pages limit reached"))
  /\ Pagination.fetched
       (fst (Pagination.AllPages fetch fuel (Pagination.NewPaginationIterator (Some opts))))
     = page_calls opts 1 m
  /\ Pagination.HasNext
       (fst (Pagination.AllPages fetch fuel (Pagination.NewPaginationIterator (Some opts))))
     = false.
Proof.
  intros Hm Hpos Hmax Hf Hlen Hfuel.
  unfold Pagination.AllPages, Pagination.NewPaginationIterator.
  destruct (AllPages_loop_pages fetch opts m datas (fuel - m) 1 [] None [])
    as (last' & Heq).
  - lia.
  - lia.
  - right. lia.
  - intros i Hi. destruct (Hf i Hi) as (res & Hr & Hd & Hmore).
    exists res. cbn [List.length Nat.add]. auto.
  - cbn [app]. exact Hlen.
  - assert (Hrun :
              Pagination.AllPages_loop fetch fuel
                (Pagination.mkPaginationIterator opts 1 true None []) []
              = (Pagination.mkPaginationIterator opts (1 + Z.of_nat m) false last'
                   (page_calls opts 1 m),
                 Some (gathered datas m, Some (ErrNew "maximum pages limit reached")))).
    { replace fuel with (m + (fuel - m))%nat by lia.
      rewrite Heq. cbn [app].
      destruct (fuel - m)%nat as [|f] eqn:Ef; [lia|].
      rewrite AllPages_loop_S. unfold Pagination.HasNext at 1, Pagination.Next.
      cbn [Pagination.hasMore Pagination.options Pagination.currentPage
           Pagination.fetched Pagination.lastResult negb].
      assert (Elim : (Pagination.MaxPages opts >? 0)
                     && (1 + Z.of_nat m >? Pagination.MaxPages opts) = true).
      { apply andb_true_iff. rewrite !Z.gtb_ltb. split; apply Z.ltb_lt; lia. }
      rewrite Elim. reflexivity. }
    rewrite Hrun. cbn [fst snd Pagination.fetched Pagination.HasNext Pagination.hasMore].
    auto.
Qed.

Lemma AllPages_stops_at_MaxPages_witness :
  snd (Pagination.AllPages PaginationFixtures.fetch_endless 4
         (Pagination.NewPaginationIterator
            (Some (Pagination.mkPaginationOptions 10 2))))
  = Some ([0%nat; 1%nat], Some (ErrNew "maximum pages limit reached"))
  /\ Pagination.fetched
       (fst (Pagination.AllPages PaginationFixtures.fetch_endless 4
               (Pagination.NewPaginationIterator
                  (Some (Pagination.mkPaginationOptions 10 2)))))
     = [(1, 10); (2, 10)]
  /\ Pagination.HasNext
       (fst (Pagination.AllPages PaginationFixtures.fetch_endless 4
               (Pagination.NewPaginationIterator
                  (Some (Pagination.mkPaginationOptions 10 2)))))
     = false.
Proof.
  apply (AllPages_stops_at_MaxPages PaginationFixtures.fetch_endless
           (Pagination.mkPaginationOptions 10 2) 2 (fun i => [i]) 4).
  - reflexivity.
  - lia.
  - unfold GoInt.int_max. lia.
  - intros i Hi. eexists. split; [reflexivity | split; reflexivity].
  - cbn. lia.
  - lia.
Defined.

(** Whatever the source does, [AllPages] on a fresh iterator with a page
    limit never calls [fetchFunc] more often than the limit allows. *)
Theorem AllPages_fetches_at_most_MaxPages {T : Type} (fetch : Pagination.Fetch T)
    (opts : Pagination.PaginationOptions) (fuel : nat) :
  0 < Pagination.MaxPages opts < GoInt.int_max ->
  Z.of_nat
    (List.length
       (Pagination.fetched
          (fst (Pagination.AllPages fetch fuel
                  (Pagination.NewPaginationIterator (Some opts))))))
  <= Pagination.MaxPages opts.
Proof.
  intros Hm. unfold Pagination.AllPages, Pagination.NewPaginationIterator.
  apply AllPages_loop_fetch_bound.
  - exact Hm.
  - reflexivity.
  - cbn [Pagination.fetched Pagination.currentPage List.length]. lia.
  - cbn [Pagination.currentPage]. lia.
Qed.

Lemma AllPages_fetches_at_most_MaxPages_witness :
  Z.of_nat
    (List.length
       (Pagination.fetched
          (fst (Pagination.AllPages PaginationFixtures.fetch_endless 9
                  (Pagination.NewPaginationIterator
                     (Some (Pagination.mkPaginationOptions 10 3)))))))
  <= 3.
Proof.
  apply (AllPages_fetches_at_most_MaxPages PaginationFixtures.fetch_endless
           (Pagination.mkPaginationOptions 10 3) 9).
  cbn. unfold GoInt.int_max. lia.
Defined.

(** ** The batch processor *)

Section Batches.

Context {T : Type}.
Variable processor : list T -> option error.
Variable batchSize : Z.
Variable items : list T.

Lemma Process_loop_S (fuel : nat) (i : Z) (batches : list (list T)) :
  Pagination.Process_loop processor batchSize items (S fuel) i batches
  = if i <? Z.of_nat (List.length items) then
      match Pagination.slice items i
              (if GoInt.add i batchSize >? Z.of_nat (List.length items)
               then Z.of_nat (List.length items) else GoInt.add i batchSize) with
      | None => (batches, Some Pagination.Panicked)
      | Some batch =>
          match processor batch with
          | Some err =>
              ((batches ++ [batch])%list,
               Some (Pagination.Failed
                       (ErrWrapf ("failed to process batch starting at index "
                                  ++ GoInt.fmt_d i ++ ": ") err)))
          | None =>
              Pagination.Process_loop processor batchSize items fuel
                (GoInt.add i batchSize) (batches ++ [batch])%list
          end
      end
    else (batches, Some Pagination.Done).
Proof. reflexivity. Qed.

Lemma firstn_add_skipn (a b : nat) (l : list T) :
  firstn (a + b) l = (firstn a l ++ firstn b (skipn a l))%list.
Proof.
  revert l. induction a as [|a IH]; intros l; [reflexivity|].
  destruct l as [|x l]; cbn.
  - rewrite firstn_nil. reflexivity.
  - rewrite IH. reflexivity.
Qed.

Lemma slice_ok (i e : Z) :
  0 <= i <= e -> e <= Z.of_nat (List.length items) ->
  Pagination.slice items i e
  = Some (firstn (Z.to_nat (e - i)) (skipn (Z.to_nat i) items)).
Proof.
  intros Hi He. unfold Pagination.slice.
  assert (E1 : (0 <=? i) = true) by (apply Z.leb_le; lia).
  assert (E2 : (i <=? e) = true) by (apply Z.leb_le; lia).
  assert (E3 : (e <=? Z.of_nat (List.length items)) = true) by (apply Z.leb_le; lia).
  rewrite E1, E2, E3. reflexivity.
Qed.

(** The loop with a positive batch size and a processor that accepts every
    batch: full batches, then at most one shorter one. *)
Lemma Process_loop_ok :
  0 < batchSize ->
  Z.of_nat (List.length items) + batchSize <= GoInt.int_max ->
  (forall b, processor b = None) ->
  forall (fuel : nat) (i : Z) (batches : list (list T)),
    0 <= i <= Z.of_nat (List.length items) ->
    List.concat batches = firstn (Z.to_nat i) items ->
    Forall (fun b => Z.of_nat (List.length b) = batchSize) batches ->
    (Z.to_nat (Z.of_nat (List.length items) - i) < fuel)%nat ->
    exists full last,
      Pagination.Process_loop processor batchSize items fuel i batches
      = ((full ++ last)%list, Some Pagination.Done)
      /\ Forall (fun b => Z.of_nat (List.length b) = batchSize) full
      /\ (last = []
          \/ exists b, last = [b] /\ 0 < Z.of_nat (List.length b) < batchSize)
      /\ List.concat (full ++ last) = items.
Proof.
  intros Hbs Hmax Hp.
  induction fuel as [|fuel IH]; intros i batches Hi Hc Hfull Hfuel; [lia|].
  rewrite Process_loop_S.
  destruct (i <? Z.of_nat (List.length items)) eqn:Elt.
  - apply Z.ltb_lt in Elt.
    assert (Hadd : GoInt.add i batchSize = i + batchSize).
    { unfold GoInt.add. apply wrap64_id.
      unfold GoInt.in_range, GoInt.int_min, GoInt.int_max in *. lia. }
    rewrite Hadd.
    destruct (i + batchSize >? Z.of_nat (List.length items)) eqn:Eend.
    + rewrite Z.gtb_ltb in Eend. apply Z.ltb_lt in Eend.
      rewrite slice_ok by lia. rewrite Hp.
      destruct fuel as [|fuel]; [lia|].
      rewrite Process_loop_S.
      assert (Eout : (i + batchSize <? Z.of_nat (List.length items)) = false)
        by (apply Z.ltb_ge; lia).
      rewrite Eout.
      set (b := firstn (Z.to_nat (Z.of_nat (List.length items) - i))
                  (skipn (Z.to_nat i) items)).
      assert (Hb : b = skipn (Z.to_nat i) items).
      { subst b. apply firstn_all2. rewrite length_skipn. lia. }
      exists batches, [b]. split; [reflexivity|]. split; [exact Hfull|]. split.
      * right. exists b. split; [reflexivity|].
        rewrite Hb, length_skipn. lia.
      * rewrite concat_app, Hc. cbn [List.concat]. rewrite app_nil_r, Hb.
        apply firstn_skipn.
    + rewrite Z.gtb_ltb in Eend. apply Z.ltb_ge in Eend.
      rewrite slice_ok by lia. rewrite Hp.
      set (b := firstn (Z.to_nat (i + batchSize - i)) (skipn (Z.to_nat i) items)).
      assert (Hlb : Z.of_nat (List.length b) = batchSize).
      { subst b. rewrite length_firstn, length_skipn. lia. }
      destruct (IH (i + batchSize) (batches ++ [b])%list) as (full & last & Hr & Hf & Hl & Hcc).
      * lia.
      * rewrite concat_app, Hc. cbn [List.concat]. rewrite app_nil_r.
        replace (Z.to_nat (i + batchSize))
          with (Z.to_nat i + Z.to_nat (i + batchSize - i))%nat by lia.
        rewrite firstn_add_skipn. reflexivity.
      * apply Forall_app. split; [exact Hfull|]. constructor; [exact Hlb | constructor].
      * lia.
      * exists full, last. auto.
  - apply Z.ltb_ge in Elt.
    exists batches, []. rewrite app_nil_r.
    split; [reflexivity|]. split; [exact Hfull|]. split; [left; reflexivity|].
    rewrite Hc. apply firstn_all2. lia.
Qed.

Lemma Process_loop_zero :
  batchSize = 0 -> items <> [] -> processor [] = None ->
  forall (fuel : nat) (batches : list (list T)),
    Pagination.Process_loop processor batchSize items fuel 0 batches
    = ((batches ++ repeat [] fuel)%list, None).
Proof.
  intros Hz Hne Hp. induction fuel as [|fuel IH]; intros batches.
  - cbn. rewrite app_nil_r. reflexivity.
  - rewrite Process_loop_S.
    assert (Hlen : 0 < Z.of_nat (List.length items)).
    { destruct items; [contradiction | cbn [List.length]; lia]. }
    assert (E1 : (0 <? Z.of_nat (List.length items)) = true) by (apply Z.ltb_lt; lia).
    rewrite E1.
    assert (Hadd : GoInt.add 0 batchSize = 0) by (rewrite Hz; reflexivity).
    rewrite Hadd.
    assert (E2 : (0 >? Z.of_nat (List.length items)) = false).
    { rewrite Z.gtb_ltb. apply Z.ltb_ge. lia. }
    rewrite E2, slice_ok by lia.
    change (Z.to_nat (0 - 0)) with 0%nat. cbn [firstn]. rewrite Hp, IH.
    rewrite <- app_assoc. reflexivity.
Qed.

End Batches.

(** With a positive batch size and a processor that accepts every batch,
    [Process] hands over the items in order, in batches of exactly
    [batchSize] items followed by at most one shorter, non-empty batch, and
    returns nil. *)
Theorem Process_partitions_items {T : Type} (processor : list T -> option error)
    (batchSize : Z) (items : list T) (fuel : nat) :
  0 < batchSize ->
  Z.of_nat (List.length items) + batchSize <= GoInt.int_max ->
  (forall b, processor b = None) ->
  (List.length items < fuel)%nat ->
  exists full last,
    Pagination.Process processor batchSize items fuel
    = ((full ++ last)%list, Some Pagination.Done)
    /\ Forall (fun b => Z.of_nat (List.length b) = batchSize) full
    /\ (last = [] \/ exists b, last = [b] /\ 0 < Z.of_nat (List.length b) < batchSize)
    /\ List.concat (full ++ last) = items.
Proof.
  intros Hbs Hmax Hp Hfuel. unfold Pagination.Process.
  apply Process_loop_ok; try assumption.
  - lia.
  - reflexivity.
  - constructor.
  - lia.
Qed.

Lemma Process_partitions_items_witness :
  exists full last,
    Pagination.Process (fun _ : list nat => None) 2 [1; 2; 3; 4; 5]%nat 6
    = ((full ++ last)%list, Some Pagination.Done)
    /\ Forall (fun b => Z.of_nat (List.length b) = 2) full
    /\ (last = [] \/ exists b, last = [b] /\ 0 < Z.of_nat (List.length b) < 2)
    /\ List.concat (full ++ last) = [1; 2; 3; 4; 5]%nat.
Proof.
  apply (Process_partitions_items (fun _ : list nat => None) 2 [1; 2; 3; 4; 5]%nat 6).
  - lia.
  - unfold GoInt.int_max. cbn. lia.
  - intros b. reflexivity.
  - cbn. lia.
Defined.

(** A batch size that is not positive makes [Process] useless on any
    non-empty input.  With 0 the loop index never moves and every batch is
    the empty one: a processor that accepts the empty batch is handed it
    again and again and the call never returns, a processor that rejects it
    ends the call at once with the failure at index 0.  With a negative
    size the first slice expression panics before the processor is
    called. *)
Theorem Process_nonpositive_batch_size {T : Type} (processor : list T -> option error)
    (batchSize : Z) (items : list T) (fuel : nat) :
  items <> [] ->
  (batchSize = 0 -> processor [] = None ->
   Pagination.Process processor batchSize items fuel = (repeat [] fuel, None))
  /\ (batchSize = 0 -> forall err, processor [] = Some err ->
      Pagination.Process processor batchSize items (S fuel)
      = ([[]], Some (Pagination.Failed
                       (ErrWrapf "failed to process batch starting at index 0: " err))))
  /\ (GoInt.int_min <= batchSize < 0 ->
      Pagination.Process processor batchSize items (S fuel)
      = ([], Some Pagination.Panicked)).
Proof.
  intros Hne. split; [|split].
  - intros Hz Hp. unfold Pagination.Process.
    rewrite (Process_loop_zero processor batchSize items Hz Hne Hp). reflexivity.
  - intros Hz err Hp. unfold Pagination.Process. rewrite Process_loop_S.
    assert (Hlen : 0 < Z.of_nat (List.length items)).
    { destruct items; [contradiction | cbn [List.length]; lia]. }
    assert (E1 : (0 <? Z.of_nat (List.length items)) = true) by (apply Z.ltb_lt; lia).
    rewrite E1, Hz.
    assert (Hadd : GoInt.add 0 0 = 0) by reflexivity.
    rewrite Hadd.
    assert (E2 : (0 >? Z.of_nat (List.length items)) = false).
    { rewrite Z.gtb_ltb. apply Z.ltb_ge. lia. }
    rewrite E2. unfold Pagination.slice.
    assert (E3 : (0 <=? Z.of_nat (List.length items)) = true) by (apply Z.leb_le; lia).
    rewrite E3. cbn [Z.leb Z.compare andb Z.sub Z.to_nat Z.opp Z.add firstn app].
    rewrite Hp. reflexivity.
  - intros Hneg. unfold Pagination.Process. rewrite Process_loop_S.
    assert (Hlen : 0 < Z.of_nat (List.length items)).
    { destruct items; [contradiction | cbn [List.length]; lia]. }
    assert (E1 : (0 <? Z.of_nat (List.length items)) = true) by (apply Z.ltb_lt; lia).
    rewrite E1.
    assert (Hadd : GoInt.add 0 batchSize = batchSize).
    { unfold GoInt.add. apply wrap64_id.
      unfold GoInt.in_range, GoInt.int_min, GoInt.int_max in *. lia. }
    rewrite Hadd.
    assert (E2 : (batchSize >? Z.of_nat (List.length items)) = false).
    { rewrite Z.gtb_ltb. apply Z.ltb_ge. lia. }
    rewrite E2. unfold Pagination.slice.
    assert (E3 : (0 <=? batchSize) = false) by (apply Z.leb_gt; lia).
    rewrite E3. reflexivity.
Qed.

Lemma Process_nonpositive_batch_size_witness :
  Pagination.Process (fun _ : list nat => None) 0 [7%nat] 3 = (repeat [] 3, None)
  /\ Pagination.Process (fun _ : list nat => Some (ErrNew "empty batch")) 0 [7%nat] 1
     = ([[]], Some (Pagination.Failed
                      (ErrWrapf "failed to process batch starting at index 0: "
                         (ErrNew "empty batch"))))
  /\ Pagination.Process (fun _ : list nat => None) (-1) [7%nat] 1
     = ([], Some Pagination.Panicked).
Proof.
  pose proof (Process_nonpositive_batch_size (fun _ : list nat => None) 0 [7%nat] 3
                ltac:(discriminate)) as H0.
  pose proof (Process_nonpositive_batch_size
                (fun _ : list nat => Some (ErrNew "empty batch")) 0 [7%nat] 0
                ltac:(discriminate)) as H1.
  pose proof (Process_nonpositive_batch_size (fun _ : list nat => None) (-1) [7%nat] 0
                ltac:(discriminate)) as H2.
  split; [|split].
  - apply (proj1 H0); reflexivity.
  - apply (proj1 (proj2 H1)); reflexivity.
  - apply (proj2 (proj2 H2)). unfold GoInt.int_min. lia.
Defined.

(** ** Validation helpers (validation.go) *)

Lemma allowedMap_In (allowed : list string) (f : string) :
  Validation.allowedMap allowed f = true <-> In f allowed.
Proof.
  unfold Validation.allowedMap. rewrite existsb_exists. split.
  - intros (y & Hin & Heq). apply String.eqb_eq in Heq. subst. exact Hin.
  - intros Hin. exists f. split; [exact Hin | apply String.eqb_refl].
Qed.

(** [ValidateFields] returns nil exactly when every requested field is
    allowed; otherwise its message names the fields that are not, each as
    often and in the order it was requested. *)
Theorem ValidateFields_spec (fields allowed : list string) :
  (Validation.ValidateFields fields allowed = None
   <-> forall f, In f fields -> In f allowed)
  /\ (forall e, Validation.ValidateFields fields allowed = Some e ->
                Pagination.Field e = "fields"
                /\ Pagination.Message e
                   = "invalid fields: "
                     ++ Validation.Join
                          (filter (fun f => negb (existsb (String.eqb f) allowed)) fields)
                          ", "
                /\ exists f, In f fields /\ ~ In f allowed).
Proof.
  assert (Hinv : Validation.invalidFields fields allowed = []
                 <-> forall f, In f fields -> In f allowed).
  { unfold Validation.invalidFields. split.
    - intros H f Hf. apply allowedMap_In.
      destruct (Validation.allowedMap allowed f) eqn:E; [reflexivity|].
      assert (Hin : In f (filter (fun field => negb (Validation.allowedMap allowed field))
                            fields)).
      { apply filter_In. split; [exact Hf | rewrite E; reflexivity]. }
      rewrite H in Hin. contradiction.
    - intros H.
      destruct (filter (fun field => negb (Validation.allowedMap allowed field)) fields)
        as [|x l] eqn:E; [reflexivity|].
      assert (Hin : In x (x :: l)) by (left; reflexivity).
      rewrite <- E in Hin. apply filter_In in Hin. destruct Hin as [Hx Hn].
      apply H in Hx. apply allowedMap_In in Hx. rewrite Hx in Hn. discriminate. }
  unfold Validation.ValidateFields. split.
  - destruct fields as [|f0 fs]; [split; [intros _ f [] | reflexivity]|].
    destruct (Validation.invalidFields (f0 :: fs) allowed) as [|x l] eqn:E.
    + split; [intros _; apply Hinv; reflexivity | reflexivity].
    + split; [discriminate|]. intros H. apply Hinv in H. discriminate.
  - intros e He. destruct fields as [|f0 fs]; [discriminate|].
    destruct (Validation.invalidFields (f0 :: fs) allowed) as [|x l] eqn:E;
      [discriminate|].
    assert (He' : e = Pagination.NewValidationError "fields"
                        ("invalid fields: " ++ Validation.Join (x :: l) ", "))
      by congruence.
    rewrite He'. cbn [Pagination.Field Pagination.Message].
    split; [reflexivity|]. split.
    + rewrite <- E. reflexivity.
    + exists x. assert (Hin : In x (x :: l)) by (left; reflexivity).
      rewrite <- E in Hin. unfold Validation.invalidFields in Hin.
      apply filter_In in Hin. destruct Hin as [Hx Hn]. split; [exact Hx|].
      intros Ha. apply allowedMap_In in Ha. rewrite Ha in Hn. discriminate.
Qed.

Lemma ValidateFields_spec_witness :
  Pagination.Field
    (Pagination.NewValidationError "fields" "invalid fields: cost, cost") = "fields"
  /\ Pagination.Message
       (Pagination.NewValidationError "fields" "invalid fields: cost, cost")
     = "invalid fields: "
       ++ Validation.Join
            (filter (fun f => negb (existsb (String.eqb f) ["id"; "name"]))
               ["cost"; "id"; "cost"])
            ", "
  /\ exists f, In f ["cost"; "id"; "cost"] /\ ~ In f ["id"; "name"].
Proof.
  apply (proj2 (ValidateFields_spec ["cost"; "id"; "cost"] ["id"; "name"])).
  reflexivity.
Defined.

(** [ValidatePaginationParams] of pagination.go accepts a pair exactly
    when the page is positive and [ValidatePageSize] of validation.go
    accepts the page size, that is for sizes 1 to 1000; on a positive page
    the two return the same error. *)
Theorem pagination_params_agree_with_page_size (page pageSize : Z) :
  (Pagination.ValidatePaginationParams page pageSize = None
   <-> 0 < page /\ Validation.ValidatePageSize pageSize = None)
  /\ (Validation.ValidatePageSize pageSize = None <-> 1 <= pageSize <= 1000)
  /\ (0 < page ->
      Pagination.ValidatePaginationParams page pageSize
      = Validation.ValidatePageSize pageSize).
Proof.
  unfold Pagination.ValidatePaginationParams, Validation.ValidatePageSize.
  rewrite !Z.gtb_ltb.
  destruct (page <=? 0) eqn:Ep; [apply Z.leb_le in Ep | apply Z.leb_gt in Ep];
    destruct (pageSize <=? 0) eqn:Es; [apply Z.leb_le in Es | apply Z.leb_gt in Es
                                       | apply Z.leb_le in Es | apply Z.leb_gt in Es];
    destruct (1000 <? pageSize) eqn:Eb; [apply Z.ltb_lt in Eb | apply Z.ltb_ge in Eb
                                         | apply Z.ltb_lt in Eb | apply Z.ltb_ge in Eb
                                         | apply Z.ltb_lt in Eb | apply Z.ltb_ge in Eb
                                         | apply Z.ltb_lt in Eb | apply Z.ltb_ge in Eb];
    repeat split; intros; try discriminate; try lia; try reflexivity;
    try (exfalso; lia);
    repeat match goal with H : _ /\ _ |- _ => destruct H end;
    try discriminate; try lia.
Qed.

Lemma pagination_params_agree_with_page_size_witness :
  Pagination.ValidatePaginationParams 3 1001 = Validation.ValidatePageSize 1001.
Proof.
  apply (proj2 (proj2 (pagination_params_agree_with_page_size 3 1001))). lia.
Defined.

Lemma is_digit_bounds (c : ascii) :
  Validation.is_digit c = true -> 0 <= Validation.digit_value c <= 9.
Proof.
  unfold Validation.is_digit, Validation.digit_value. intros H.
  apply andb_true_iff in H. destruct H as [H1 H2].
  apply N.leb_le in H1, H2. lia.
Qed.

Lemma digit_compare (c1 c2 : ascii) :
  Ascii.compare c1 c2
  = Z.compare (Validation.digit_value c1) (Validation.digit_value c2).
Proof.
  unfold Ascii.compare, Validation.digit_value.
  rewrite <- N2Z.inj_compare.
  destruct (Z.compare_spec (Z.of_N (N_of_ascii c1)) (Z.of_N (N_of_ascii c2)));
    symmetry; [apply Z.compare_eq_iff | apply Z.compare_lt_iff | apply Z.compare_gt_iff];
    lia.
Qed.

Lemma hyphen_compare (h1 h2 : ascii) :
  Validation.is_hyphen h1 = true -> Validation.is_hyphen h2 = true ->
  Ascii.compare h1 h2 = Eq.
Proof.
  unfold Validation.is_hyphen. intros H1 H2.
  apply Ascii.eqb_eq in H1, H2. subst. reflexivity.
Qed.

(** On two strings of the form YYYY-MM-DD the byte-wise comparison of Go
    orders them as the numbers YYYYMMDD. *)
Lemma compare_dates (s e : string) :
  Validation.matches_date s = true -> Validation.matches_date e = true ->
  String.compare s e = Z.compare (Validation.date_number s) (Validation.date_number e).
Proof.
  intros Hs He.
  destruct s as [|a1 [|a2 [|a3 [|a4 [|a5 [|a6 [|a7 [|a8 [|a9 [|a10 [|? ?]]]]]]]]]]];
    try discriminate.
  destruct e as [|b1 [|b2 [|b3 [|b4 [|b5 [|b6 [|b7 [|b8 [|b9 [|b10 [|? ?]]]]]]]]]]];
    try discriminate.
  cbn [Validation.matches_date] in Hs, He.
  repeat match goal with
         | H : _ && _ = true |- _ => apply andb_true_iff in H; destruct H
         end.
  repeat match goal with
         | H : Validation.is_digit ?c = true |- _ => apply is_digit_bounds in H
         end.
  cbn [String.compare Validation.date_number].
  rewrite (hyphen_compare a5 b5), (hyphen_compare a8 b8) by assumption.
  rewrite !digit_compare.
  repeat match goal with
         | |- context [Z.compare (Validation.digit_value ?x) (Validation.digit_value ?y)] =>
             destruct (Z.compare_spec (Validation.digit_value x) (Validation.digit_value y))
         end;
    symmetry;
    first [ apply Z.compare_eq_iff; lia
          | apply Z.compare_lt_iff; lia
          | apply Z.compare_gt_iff; lia ].
Qed.

(** [ValidateDateRange] accepts exactly the pairs of strings of the form
    YYYY-MM-DD (ten bytes, digits and two hyphens, nothing checked about
    the calendar) whose start, read as the number YYYYMMDD, is not after
    the end: comparing the strings compares the dates. *)
Theorem ValidateDateRange_spec (startDate endDate : string) :
  Validation.ValidateDateRange startDate endDate = None
  <-> Validation.matches_date startDate = true
      /\ Validation.matches_date endDate = true
      /\ Validation.date_number startDate <= Validation.date_number endDate.
Proof.
  unfold Validation.ValidateDateRange.
  destruct (startDate =? "")%string eqn:E1.
  { apply String.eqb_eq in E1. subst.
    split; [discriminate | intros [H _]; discriminate]. }
  destruct (endDate =? "")%string eqn:E2.
  { apply String.eqb_eq in E2. subst.
    split; [discriminate | intros (_ & H & _); discriminate]. }
  destruct (Validation.matches_date startDate) eqn:Es; cbn [negb];
    [|split; [discriminate | intros [H _]; discriminate]].
  destruct (Validation.matches_date endDate) eqn:Ee; cbn [negb];
    [|split; [discriminate | intros (_ & H & _); discriminate]].
  rewrite (compare_dates startDate endDate Es Ee).
  destruct (Z.compare_spec (Validation.date_number startDate)
              (Validation.date_number endDate)).
  - split; [intros _; repeat split; lia | reflexivity].
  - split; [intros _; repeat split; lia | reflexivity].
  - split; [discriminate | intros (_ & _ & H'); lia].
Qed.

Lemma ValidateDateRange_spec_witness :
  Validation.ValidateDateRange "2024-02-30" "2024-13-01" = None.
Proof.
  apply (proj2 (ValidateDateRange_spec "2024-02-30" "2024-13-01")).
  split; [reflexivity|]. split; [reflexivity|]. cbn. lia.
Defined.

Section BatchFailure.

Context {T : Type}.
Variable processor : list T -> option error.
Variable batchSize : Z.
Variable items : list T.

Lemma slice_chunk (i : Z) :
  0 < batchSize -> 0 <= i < Z.of_nat (List.length items) ->
  Pagination.slice items i
    (if i + batchSize >? Z.of_nat (List.length items)
     then Z.of_nat (List.length items) else i + batchSize)
  = Some (chunk_at batchSize items i).
Proof.
  intros Hbs Hi. unfold chunk_at.
  destruct (i + batchSize >? Z.of_nat (List.length items)) eqn:E;
    rewrite Z.gtb_ltb in E; [apply Z.ltb_lt in E | apply Z.ltb_ge in E].
  - rewrite slice_ok by lia. f_equal.
    rewrite !firstn_all2; [reflexivity | |]; rewrite length_skipn; lia.
  - rewrite slice_ok by lia. f_equal. f_equal. lia.
Qed.

Lemma Process_loop_fail (err : error) :
  0 < batchSize ->
  Z.of_nat (List.length items) + batchSize <= GoInt.int_max ->
  forall (j fuel : nat) (i : Z) (batches : list (list T)),
    0 <= i -> i + Z.of_nat j * batchSize < Z.of_nat (List.length items) ->
    (forall k, (k < j)%nat ->
               processor (chunk_at batchSize items (i + Z.of_nat k * batchSize)) = None) ->
    processor (chunk_at batchSize items (i + Z.of_nat j * batchSize)) = Some err ->
    (j < fuel)%nat ->
    Pagination.Process_loop processor batchSize items fuel i batches
    = ((batches
        ++ map (fun k => chunk_at batchSize items (i + Z.of_nat k * batchSize))
             (seq 0 (S j)))%list,
       Some (Pagination.Failed
               (ErrWrapf ("failed to process batch starting at index "
                          ++ GoInt.fmt_d (i + Z.of_nat j * batchSize) ++ ": ") err))).
Proof.
  intros Hbs Hmax. induction j as [|j IH]; intros fuel i batches Hi Hlt Hok Hbad Hfuel.
  - destruct fuel as [|fuel]; [lia|].
    rewrite Process_loop_S.
    rewrite Z.mul_0_l, Z.add_0_r in *.
    assert (E : (i <? Z.of_nat (List.length items)) = true) by (apply Z.ltb_lt; lia).
    rewrite E.
    assert (Hadd : GoInt.add i batchSize = i + batchSize).
    { unfold GoInt.add. apply wrap64_id.
      unfold GoInt.in_range, GoInt.int_min, GoInt.int_max in *. lia. }
    rewrite Hadd, slice_chunk by lia. rewrite Hbad.
    cbn [seq map]. rewrite Z.mul_0_l, Z.add_0_r. reflexivity.
  - destruct fuel as [|fuel]; [lia|].
    rewrite Process_loop_S.
    assert (E : (i <? Z.of_nat (List.length items)) = true) by (apply Z.ltb_lt; nia).
    rewrite E.
    assert (Hadd : GoInt.add i batchSize = i + batchSize).
    { unfold GoInt.add. apply wrap64_id.
      unfold GoInt.in_range, GoInt.int_min, GoInt.int_max in *. nia. }
    rewrite Hadd, slice_chunk by nia.
    pose proof (Hok 0%nat ltac:(lia)) as H0.
    rewrite Z.mul_0_l, Z.add_0_r in H0. rewrite H0.
    rewrite (IH fuel (i + batchSize) (batches ++ [chunk_at batchSize items i])%list).
    + rewrite <- app_assoc. cbn [app].
      replace (i + batchSize + Z.of_nat j * batchSize)
        with (i + Z.of_nat (S j) * batchSize) by lia.
      f_equal. f_equal.
      change (seq 0 (S (S j))) with (0%nat :: seq 1 (S j)).
      cbn [map]. rewrite Z.mul_0_l, Z.add_0_r. f_equal.
      rewrite <- seq_shift, map_map. apply map_ext. intros k. f_equal. lia.
    + lia.
    + lia.
    + intros k Hk.
      replace (i + batchSize + Z.of_nat k * batchSize)
        with (i + Z.of_nat (S k) * batchSize) by lia.
      apply Hok. lia.
    + replace (i + batchSize + Z.of_nat j * batchSize)
        with (i + Z.of_nat (S j) * batchSize) by lia.
      exact Hbad.
    + lia.
Qed.

End BatchFailure.

(** [Process] stops at the first batch the processor rejects: the batches
    before it and the rejected one are the only ones handed over, and the
    error names the index at which the rejected batch starts and wraps the
    processor's error. *)
Theorem Process_stops_at_first_failure {T : Type} (processor : list T -> option error)
    (batchSize : Z) (items : list T) (j fuel : nat) (err : error) :
  0 < batchSize ->
  Z.of_nat (List.length items) + batchSize <= GoInt.int_max ->
  Z.of_nat j * batchSize < Z.of_nat (List.length items) ->
  (forall k, (k < j)%nat ->
             processor (chunk_at batchSize items (Z.of_nat k * batchSize)) = None) ->
  processor (chunk_at batchSize items (Z.of_nat j * batchSize)) = Some err ->
  (j < fuel)%nat ->
  Pagination.Process processor batchSize items fuel
  = (map (fun k => chunk_at batchSize items (Z.of_nat k * batchSize)) (seq 0 (S j)),
     Some (Pagination.Failed
             (ErrWrapf ("failed to process batch starting at index "
                        ++ GoInt.fmt_d (Z.of_nat j * batchSize) ++ ": ") err))).
Proof.
  intros Hbs Hmax Hlt Hok Hbad Hfuel. unfold Pagination.Process.
  rewrite (Process_loop_fail processor batchSize items err Hbs Hmax j fuel 0 []).
  - cbn [app]. reflexivity.
  - lia.
  - exact Hlt.
  - exact Hok.
  - exact Hbad.
  - exact Hfuel.
Qed.

Lemma Process_stops_at_first_failure_witness :
  Pagination.Process
    (fun b : list nat => if Nat.eqb (hd 0%nat b) 3 then Some (ErrForeign "boom") else None)
    2 [1; 2; 3; 4; 5]%nat 4
  = ([[1; 2]; [3; 4]]%nat,
     Some (Pagination.Failed
             (ErrWrapf "failed to process batch starting at index 2: "
                (ErrForeign "boom")))).
Proof.
  apply (Process_stops_at_first_failure
           (fun b : list nat => if Nat.eqb (hd 0%nat b) 3 then Some (ErrForeign "boom")
                                else None)
           2 [1; 2; 3; 4; 5]%nat 1 4 (ErrForeign "boom")).
  - lia.
  - unfold GoInt.int_max. cbn. lia.
  - cbn. lia.
  - intros k Hk. assert (k = 0%nat) as -> by lia. reflexivity.
  - reflexivity.
  - lia.
Defined.
